(** * V4L2 utility functions (v4l2-utils.c): a shallow embedding

    The module is a thin layer over the kernel's video device interface:
    every operation issues one or a few system calls and turns a failed
    call into process termination through glibc's [error].  The
    embedding keeps that shape.  The kernel side (driver, address space)
    is a parameter [kernel_ops]; the process is a record holding the
    kernel state, [errno], the regions currently mapped and the history
    of system calls made so far; operations are computations in a small
    state-and-exit monad.

    Diagnostics written through log.h ([pr_verb], [pr_debug], [pr_warn],
    [pr_cont]) and the two printing functions built on them are not part
    of the model: they only write to the log. *)

From Stdlib Require Import ZArith String.
From Stdlib Require Import Floats.SpecFloat.
From stdpp Require Import base list gmap.

Local Open Scope string_scope.
Local Open Scope Z_scope.
Local Open Scope list_scope.
Local Open Scope stdpp_scope.

(** ** Constants of the system headers *)

(** Values of <linux/videodev2.h>, <stdlib.h>, <sys/mman.h>, <fcntl.h>,
    <sys/stat.h> and <limits.h> on Linux. *)

Definition V4L2_FIELD_ANY : Z := 0.
Definition V4L2_FIELD_NONE : Z := 1.
Definition V4L2_FIELD_TOP : Z := 2.
Definition V4L2_FIELD_BOTTOM : Z := 3.
Definition V4L2_FIELD_INTERLACED : Z := 4.
Definition V4L2_FIELD_SEQ_TB : Z := 5.
Definition V4L2_FIELD_SEQ_BT : Z := 6.
Definition V4L2_FIELD_ALTERNATE : Z := 7.
Definition V4L2_FIELD_INTERLACED_TB : Z := 8.
Definition V4L2_FIELD_INTERLACED_BT : Z := 9.

Definition V4L2_BUF_TYPE_VIDEO_CAPTURE : Z := 1.
Definition V4L2_BUF_TYPE_VIDEO_OUTPUT : Z := 2.
Definition V4L2_BUF_TYPE_VIDEO_OVERLAY : Z := 3.
Definition V4L2_BUF_TYPE_VBI_CAPTURE : Z := 4.
Definition V4L2_BUF_TYPE_VBI_OUTPUT : Z := 5.
Definition V4L2_BUF_TYPE_SLICED_VBI_CAPTURE : Z := 6.
Definition V4L2_BUF_TYPE_SLICED_VBI_OUTPUT : Z := 7.
Definition V4L2_BUF_TYPE_VIDEO_OUTPUT_OVERLAY : Z := 8.
Definition V4L2_BUF_TYPE_VIDEO_CAPTURE_MPLANE : Z := 9.
Definition V4L2_BUF_TYPE_VIDEO_OUTPUT_MPLANE : Z := 10.
Definition V4L2_BUF_TYPE_SDR_CAPTURE : Z := 11.

Definition V4L2_MEMORY_MMAP : Z := 1.
Definition V4L2_MEMORY_USERPTR : Z := 2.
Definition V4L2_MEMORY_OVERLAY : Z := 3.
Definition V4L2_MEMORY_DMABUF : Z := 4.

Definition V4L2_CAP_TIMEPERFRAME : Z := 0x1000.

Definition EXIT_FAILURE : Z := 1.
Definition INT_MAX : Z := 2147483647.
Definition O_RDWR : Z := 2.
Definition S_IFMT : Z := 61440.
Definition S_IFCHR : Z := 8192.
Definition MAP_SHARED : Z := 1.

(** [MAP_FAILED] is [(void * ) -1]; addresses are integers. *)
Definition MAP_FAILED : Z := -1.

Definition S_ISCHR (mode : Z) : bool := Z.land mode S_IFMT =? S_IFCHR.

(** Conversion of an integer to [unsigned]. *)
Definition to_unsigned (a : Z) : Z := a mod 2 ^ 32.

(** ** Name tables *)

(** A [const char *]: [None] is the null pointer. *)
Definition cstring : Type := option string.
Definition NULL : cstring := None.

(** An array of pointers given by designated initialisers
    [[i] = "s"]: its size is the largest designated index plus one,
    and the elements that no initialiser names are null. *)
Definition designated (inits : list (Z * string)) : list cstring :=
  foldl (λ arr '(i, s), <[Z.to_nat i := Some s]> arr)
        (replicate (Z.to_nat (1 + foldr Z.max (-1) (inits.*1))) NULL)
        inits.

Definition v4l2_field_names : list cstring := designated
  [ (V4L2_FIELD_ANY, "any");
    (V4L2_FIELD_NONE, "none");
    (V4L2_FIELD_TOP, "top");
    (V4L2_FIELD_BOTTOM, "bottom");
    (V4L2_FIELD_INTERLACED, "interlaced");
    (V4L2_FIELD_SEQ_TB, "seq-tb");
    (V4L2_FIELD_SEQ_BT, "seq-bt");
    (V4L2_FIELD_ALTERNATE, "alternate");
    (V4L2_FIELD_INTERLACED_TB, "interlaced-tb");
    (V4L2_FIELD_INTERLACED_BT, "interlaced-bt") ].

Definition v4l2_type_names : list cstring := designated
  [ (V4L2_BUF_TYPE_VIDEO_CAPTURE, "vid-cap");
    (V4L2_BUF_TYPE_VIDEO_OVERLAY, "vid-overlay");
    (V4L2_BUF_TYPE_VIDEO_OUTPUT, "vid-out");
    (V4L2_BUF_TYPE_VBI_CAPTURE, "vbi-cap");
    (V4L2_BUF_TYPE_VBI_OUTPUT, "vbi-out");
    (V4L2_BUF_TYPE_SLICED_VBI_CAPTURE, "sliced-vbi-cap");
    (V4L2_BUF_TYPE_SLICED_VBI_OUTPUT, "sliced-vbi-out");
    (V4L2_BUF_TYPE_VIDEO_OUTPUT_OVERLAY, "vid-out-overlay");
    (V4L2_BUF_TYPE_VIDEO_CAPTURE_MPLANE, "vid-cap-mplane");
    (V4L2_BUF_TYPE_VIDEO_OUTPUT_MPLANE, "vid-out-mplane");
    (V4L2_BUF_TYPE_SDR_CAPTURE, "sdr-cap") ].

Definition v4l2_memory_names : list cstring := designated
  [ (V4L2_MEMORY_MMAP, "mmap");
    (V4L2_MEMORY_USERPTR, "userptr");
    (V4L2_MEMORY_OVERLAY, "overlay");
    (V4L2_MEMORY_DMABUF, "dmabuf") ].

Definition ARRAY_SIZE {A} (arr : list A) : Z := Z.of_nat (length arr).

(** [v4l2_name(a, arr)]: the element read is [arr[a]], with [a] as it
    is, while the guard compares [(unsigned) a].  The result is [None]
    when the read falls outside the array, and [Some p] when it reads
    the pointer [p] (or yields the literal). *)
Definition v4l2_name (a : Z) (arr : list cstring) : option cstring :=
  if to_unsigned a <? ARRAY_SIZE arr
  then (if a <? 0 then None else arr !! Z.to_nat a)
  else Some (Some "unknown").

Definition v4l2_field_name (field : Z) : option cstring :=
  v4l2_name field v4l2_field_names.

Definition v4l2_type_name (type : Z) : option cstring :=
  v4l2_name type v4l2_type_names.

Definition v4l2_memory_name (memory : Z) : option cstring :=
  v4l2_name memory v4l2_memory_names.

(** ** Kernel structures *)

(** The fields of the <linux/videodev2.h> structures that the module
    reads, writes or prints.  All of them are [__u32] or [int] values;
    the module copies and compares them and does no arithmetic on them
    (the one division is in floating point). *)

Record v4l2_capability := mk_capability
  { cap_card : string; cap_capabilities : Z }.

Record v4l2_pix_format := mk_pix_format
  { pix_width : Z; pix_height : Z; pix_pixelformat : Z; pix_field : Z;
    pix_bytesperline : Z; pix_sizeimage : Z; pix_colorspace : Z;
    pix_flags : Z; pix_ycbcr_enc : Z; pix_quantization : Z }.

(** [struct v4l2_format]: of the union [fmt] only the member [pix] is
    used outside the printing function. *)
Record v4l2_format := mk_format
  { fmt_type : Z; fmt_pix : v4l2_pix_format }.

(** [struct v4l2_streamparm]: the members [parm.capture] and
    [parm.output] of the union have the same layout (capability, mode,
    timeperframe, extendedmode, buffer count), so they are one and the
    same storage; the record holds it once. *)
Record v4l2_streamparm := mk_streamparm
  { parm_type : Z; parm_capability : Z; parm_mode : Z;
    parm_numerator : Z; parm_denominator : Z;
    parm_extendedmode : Z; parm_buffers : Z }.

Record v4l2_requestbuffers := mk_requestbuffers
  { req_count : Z; req_type : Z; req_memory : Z }.

Record v4l2_buffer := mk_buffer
  { buf_index : Z; buf_type : Z; buf_bytesused : Z; buf_flags : Z;
    buf_field : Z; buf_tv_sec : Z; buf_tv_usec : Z; buf_sequence : Z;
    buf_memory : Z; buf_offset : Z; buf_length : Z }.

Record v4l2_exportbuffer := mk_exportbuffer
  { exp_type : Z; exp_index : Z; exp_plane : Z; exp_flags : Z; exp_fd : Z }.

(** ** The kernel as a parameter *)

(** What a system call gives back: its return value, the error number
    it would store in [errno], the argument structure as the kernel
    left it, and the kernel's next state. *)
Record reply (K A : Type) := mk_reply
  { rc : Z; err : Z; out : A; next : K }.
Arguments mk_reply {K A}.
Arguments rc {K A}.
Arguments err {K A}.
Arguments out {K A}.
Arguments next {K A}.

(** The calls the module makes.  [sys_mmap k len prot flags fd off]
    returns the address in [rc]. *)
Record kernel_ops (K : Type) := mk_kernel_ops
  { sys_open : K → string → Z → reply K unit;
    sys_fstat : K → Z → reply K Z;
    sys_mmap : K → Z → Z → Z → Z → Z → reply K unit;
    vidioc_querycap : K → Z → v4l2_capability → reply K v4l2_capability;
    vidioc_s_fmt : K → Z → v4l2_format → reply K v4l2_format;
    vidioc_g_parm : K → Z → v4l2_streamparm → reply K v4l2_streamparm;
    vidioc_s_parm : K → Z → v4l2_streamparm → reply K v4l2_streamparm;
    vidioc_reqbufs :
      K → Z → v4l2_requestbuffers → reply K v4l2_requestbuffers;
    vidioc_querybuf : K → Z → v4l2_buffer → reply K v4l2_buffer;
    vidioc_expbuf : K → Z → v4l2_exportbuffer → reply K v4l2_exportbuffer;
    vidioc_dqbuf : K → Z → v4l2_buffer → reply K v4l2_buffer;
    vidioc_qbuf : K → Z → v4l2_buffer → reply K v4l2_buffer;
    vidioc_streamon : K → Z → Z → reply K Z }.
Arguments sys_open {K}.
Arguments sys_fstat {K}.
Arguments sys_mmap {K}.
Arguments vidioc_querycap {K}.
Arguments vidioc_s_fmt {K}.
Arguments vidioc_g_parm {K}.
Arguments vidioc_s_parm {K}.
Arguments vidioc_reqbufs {K}.
Arguments vidioc_querybuf {K}.
Arguments vidioc_expbuf {K}.
Arguments vidioc_dqbuf {K}.
Arguments vidioc_qbuf {K}.
Arguments vidioc_streamon {K}.

(** ** The process *)

Inductive request :=
| VIDIOC_QUERYCAP (a : v4l2_capability)
| VIDIOC_S_FMT (a : v4l2_format)
| VIDIOC_G_PARM (a : v4l2_streamparm)
| VIDIOC_S_PARM (a : v4l2_streamparm)
| VIDIOC_REQBUFS (a : v4l2_requestbuffers)
| VIDIOC_QUERYBUF (a : v4l2_buffer)
| VIDIOC_EXPBUF (a : v4l2_exportbuffer)
| VIDIOC_DQBUF (a : v4l2_buffer)
| VIDIOC_QBUF (a : v4l2_buffer)
| VIDIOC_STREAMON (a : Z).

(** One entry of the history: a system call with its arguments, the
    argument structure as the kernel left it, and the value returned. *)
Inductive event :=
| E_open (path : string) (flags : Z) (ret : Z)
| E_fstat (fd : Z) (ret : Z)
| E_ioctl (fd : Z) (arg res : request) (ret : Z)
| E_mmap (len prot flags fd off : Z) (ret : Z).

(** A region of the address space established by a successful [mmap]. *)
Record region := mk_region
  { r_addr : Z; r_len : Z; r_prot : Z; r_flags : Z; r_fd : Z; r_off : Z }.

Record proc (K : Type) := mk_proc
  { kernel : K; errno : Z; maps : list region; trace : list event }.
Arguments mk_proc {K}.
Arguments kernel {K}.
Arguments errno {K}.
Arguments maps {K}.
Arguments trace {K}.

(** An argument of a format string. *)
Inductive arg :=
| AStr (s : string)
| AName (n : option cstring)
| AInt (z : Z).

(** What [error] reports before it calls [exit]. *)
Record fatal := mk_fatal
  { status : Z; errnum : Z; format : string; fargs : list arg }.

(** How a computation ends: it returns a value, or the process exits,
    or the C program has no defined behaviour (signed overflow of a
    loop counter, a store past the end of the caller's array). *)
Inductive outcome (K A : Type) :=
| Ret (a : A) (p : proc K)
| Exit (f : fatal) (p : proc K)
| Undefined.
Arguments Ret {K A}.
Arguments Exit {K A}.
Arguments Undefined {K A}.

Definition M (K A : Type) : Type := proc K → outcome K A.

#[global] Instance M_ret {K} : MRet (M K) := λ A a p, Ret a p.

#[global] Instance M_bind {K} : MBind (M K) := λ A B f m p,
  match m p with
  | Ret a p' => f a p'
  | Exit e p' => Exit e p'
  | Undefined => Undefined
  end.

(** A failing call returns -1 and stores its error number. *)
Definition set_errno (ret e old : Z) : Z := if ret =? -1 then e else old.

Definition after {K A} (p : proc K) (r : reply K A) (e : event) : proc K :=
  {| kernel := next r;
     errno := set_errno (rc r) (err r) (errno p);
     maps := maps p;
     trace := trace p ++ [e] |}.

(** The process after the request [req a] on [fd], answered by [call]. *)
Definition ioctl_after {K A} (call : K → Z → A → reply K A)
    (req : A → request) (p : proc K) (fd : Z) (a : A) : proc K :=
  let r := call (kernel p) fd a in
  after p r (E_ioctl fd (req a) (req (out r)) (rc r)).

(** The process after [mmap]: a successful call establishes the
    region. *)
Definition mmap_after {K} (dev : kernel_ops K) (p : proc K)
    (len prot flags fd off : Z) : proc K :=
  let r := sys_mmap dev (kernel p) len prot flags fd off in
  let p' := after p r (E_mmap len prot flags fd off (rc r)) in
  {| kernel := kernel p'; errno := errno p';
     maps := if rc r =? MAP_FAILED then maps p
             else maps p ++ [mk_region (rc r) len prot flags fd off];
     trace := trace p' |}.

Section Operations.
Context {K : Type} (dev : kernel_ops K).

(** *** System calls *)

Definition open (path : string) (flags : Z) : M K Z := λ p,
  let r := sys_open dev (kernel p) path flags in
  Ret (rc r) (after p r (E_open path flags (rc r))).

Definition fstat (fd : Z) : M K (Z * Z) := λ p,
  let r := sys_fstat dev (kernel p) fd in
  Ret (rc r, out r) (after p r (E_fstat fd (rc r))).

Definition ioctl {A} (call : K → Z → A → reply K A) (req : A → request)
    (fd : Z) (a : A) : M K (Z * A) := λ p,
  let r := call (kernel p) fd a in
  Ret (rc r, out r) (ioctl_after call req p fd a).

(** [mmap (NULL, len, prot, flags, fd, off)]: a successful call
    establishes the region; nothing in the module ever removes one (it
    never calls [munmap]). *)
Definition mmap (len prot flags fd off : Z) : M K Z := λ p,
  let r := sys_mmap dev (kernel p) len prot flags fd off in
  Ret (rc r) (mmap_after dev p len prot flags fd off).

(** glibc's [error (status, errnum, format, ...)]: prints the message
    and, when [status] is not zero, calls [exit (status)].  The second
    argument is an expression over the process, [errno] or a literal. *)
Definition error (st : Z) (en : proc K → Z) (fmt : string)
    (args : list arg) : M K unit := λ p,
  if st =? 0 then Ret () p
  else Exit {| status := st; errnum := en p; format := fmt; fargs := args |} p.

Definition lit (z : Z) : proc K → Z := λ _, z.

Definition when (b : bool) (m : M K unit) : M K unit :=
  if b then m else mret ().

(** [bufs[i] = v]: a store past the end of the array is undefined. *)
Definition store (bufs : list Z) (i : Z) (v : Z) : M K (list Z) := λ p,
  if bool_decide (0 ≤ i < Z.of_nat (length bufs))
  then Ret (<[Z.to_nat i := v]> bufs) p
  else Undefined.

(** [++i] on an [int]. *)
Definition incr (i : Z) : M K Z := λ p,
  if bool_decide (i < INT_MAX) then Ret (i + 1) p else Undefined.

(** *** v4l2_open *)

(** [cap] is not initialised by the caller and only written by the
    kernel; a zeroed structure stands for it.  [card] is [None] for a
    null pointer; the result holds the new contents of the array. *)

Definition v4l2_open (device : string) (positive negative : Z)
    (card : option string) : M K (Z * option string) :=
  fd ← open device O_RDWR;
  when (fd <? 0) (error EXIT_FAILURE errno "Can not open %s" [AStr device]);;
  '(r, st_mode) ← fstat fd;
  (if r =? -1
   then error EXIT_FAILURE errno "Can not stat() %s" [AStr device]
   else when (negb (S_ISCHR st_mode))
          (error EXIT_FAILURE (lit 0) "%s is not a character device"
             [AStr device]));;
  '(ret, cap) ← ioctl (vidioc_querycap dev) VIDIOC_QUERYCAP fd
                  (mk_capability "" 0);
  when (bool_decide (ret ≠ 0))
    (error EXIT_FAILURE errno "Can not query device capabilities" []);;
  when (bool_decide (Z.land (cap_capabilities cap) positive ≠ positive))
    (error EXIT_FAILURE (lit 0)
       "Device %s does not support required capabilities: %#08x"
       [AStr device; AInt positive]);;
  when (bool_decide (Z.land (cap_capabilities cap) negative ≠ 0))
    (error EXIT_FAILURE (lit 0)
       "Device %s supports unsupported capabilities: %#08x"
       [AStr device; AInt negative]);;
  mret (fd, match card with Some _ => Some (cap_card cap) | None => None end).

(** *** v4l2_configure *)

Definition v4l2_configure (fd type pixelformat width height : Z) : M K unit :=
  let fmt := mk_format type
    (mk_pix_format width height pixelformat V4L2_FIELD_ANY 0 0 0 0 0 0) in
  '(rc, fmt) ← ioctl (vidioc_s_fmt dev) VIDIOC_S_FMT fd fmt;
  when (bool_decide (rc ≠ 0))
    (error EXIT_FAILURE (lit 0) "Can not set %s format"
       [AName (v4l2_type_name type)]);;
  when (bool_decide (pix_width (fmt_pix fmt) ≠ width)
        || bool_decide (pix_height (fmt_pix fmt) ≠ height))
    (error EXIT_FAILURE (lit 0) "Can not set requested size" []);;
  when (bool_decide (pix_pixelformat (fmt_pix fmt) ≠ pixelformat))
    (error EXIT_FAILURE (lit 0) "Can not set requested pixel format" []).

(** *** v4l2_framerate_configure *)

Definition set_timeperframe (parm : v4l2_streamparm) (n d : Z)
    : v4l2_streamparm :=
  mk_streamparm (parm_type parm) (parm_capability parm) (parm_mode parm)
    n d (parm_extendedmode parm) (parm_buffers parm).

Definition framerate_commit (fd type framerate : Z)
    (parm : v4l2_streamparm) : M K unit :=
  '(rc, parm) ← ioctl (vidioc_s_parm dev) VIDIOC_S_PARM fd parm;
  when (bool_decide (rc ≠ 0))
    (error EXIT_FAILURE (lit 0) "Can not set device streaming parameters" []);;
  when ((bool_decide (type = V4L2_BUF_TYPE_VIDEO_CAPTURE)
           && bool_decide (parm_denominator parm ≠ framerate))
        || (bool_decide (type = V4L2_BUF_TYPE_VIDEO_OUTPUT)
              && bool_decide (parm_denominator parm ≠ framerate)))
    (error EXIT_FAILURE (lit 0)
       "Device %d %s failed to set requested framerate"
       [AInt fd; AName (v4l2_type_name type)]).

Definition v4l2_framerate_configure (fd type framerate : Z) : M K unit :=
  let parm := mk_streamparm type 0 0 0 0 0 0 in
  '(rc, parm) ← ioctl (vidioc_g_parm dev) VIDIOC_G_PARM fd parm;
  when (bool_decide (rc ≠ 0))
    (error EXIT_FAILURE (lit 0) "Can not get device streaming parameters" []);;
  if bool_decide (type = V4L2_BUF_TYPE_VIDEO_CAPTURE) then
    if Z.land (parm_capability parm) V4L2_CAP_TIMEPERFRAME =? 0
    then mret ()
    else framerate_commit fd type framerate (set_timeperframe parm 1 framerate)
  else if bool_decide (type = V4L2_BUF_TYPE_VIDEO_OUTPUT) then
    if Z.land (parm_capability parm) V4L2_CAP_TIMEPERFRAME =? 0
    then mret ()
    else framerate_commit fd type framerate (set_timeperframe parm 1 framerate)
  else framerate_commit fd type framerate parm.

(** *** v4l2_framerate_get *)

(** [float] is IEEE binary32; [(float) n] rounds to nearest even. *)
Definition float_of_u32 (n : Z) : spec_float := binary_normalize 24 128 n 0 false.
Definition float_div (x y : spec_float) : spec_float := SFdiv 24 128 x y.
Definition NAN : spec_float := S754_nan.

Definition v4l2_framerate_get (fd type : Z) : M K spec_float :=
  let parm := mk_streamparm type 0 0 0 0 0 0 in
  '(rc, parm) ← ioctl (vidioc_g_parm dev) VIDIOC_G_PARM fd parm;
  if bool_decide (rc ≠ 0) then mret NAN
  else mret (float_div (float_of_u32 (parm_denominator parm))
                       (float_of_u32 (parm_numerator parm))).

(** *** v4l2_buffers_request *)

Definition v4l2_buffers_request (fd type num memory : Z) : M K Z :=
  let reqbuf := mk_requestbuffers num type memory in
  '(rc, reqbuf) ← ioctl (vidioc_reqbufs dev) VIDIOC_REQBUFS fd reqbuf;
  when (bool_decide (rc ≠ 0))
    (error EXIT_FAILURE errno "Can not request %s buffers"
       [AName (v4l2_type_name type)]);;
  when (bool_decide (req_count reqbuf = 0))
    (error EXIT_FAILURE (lit 0) "Device gives zero %s buffers"
       [AName (v4l2_type_name type)]);;
  when (bool_decide (req_count reqbuf ≠ num))
    (error EXIT_FAILURE (lit 0)
       "Device gives %u %s buffers, but %u is requested"
       [AInt (req_count reqbuf); AName (v4l2_type_name type); AInt num]);;
  mret (req_count reqbuf).

(** *** v4l2_buffers_mmap *)

(** The loop [for (int i = 0; i < num; ++i)]: [n] is the number of
    iterations still to run, [num - i]; every iteration ends with the
    [++i] of the [int] counter, also the last one. *)
Fixpoint buffers_mmap_from (n : nat) (fd type prot : Z) (i : Z)
    (bufs : list Z) : M K (list Z) :=
  match n with
  | O => mret bufs
  | S n' =>
      let buf := mk_buffer i type 0 0 0 0 0 0 0 0 0 in
      '(rc, buf) ← ioctl (vidioc_querybuf dev) VIDIOC_QUERYBUF fd buf;
      when (bool_decide (rc ≠ 0))
        (error EXIT_FAILURE errno "Can not query buffer" []);;
      a ← mmap (buf_length buf) prot MAP_SHARED fd (buf_offset buf);
      bufs ← store bufs i a;
      when (bool_decide (a = MAP_FAILED))
        (error EXIT_FAILURE errno "Can not mmap %s buffer"
           [AName (v4l2_type_name type)]);;
      i ← incr i;
      buffers_mmap_from n' fd type prot i bufs
  end.

Definition v4l2_buffers_mmap (fd type num : Z) (bufs : list Z) (prot : Z)
    : M K (list Z) :=
  buffers_mmap_from (Z.to_nat num) fd type prot 0 bufs.

(** *** v4l2_buffers_export *)

Fixpoint buffers_export_from (n : nat) (fd type : Z) (i : Z)
    (bufs : list Z) : M K (list Z) :=
  match n with
  | O => mret bufs
  | S n' =>
      let ebuf := mk_exportbuffer type i 0 0 0 in
      '(rc, ebuf) ← ioctl (vidioc_expbuf dev) VIDIOC_EXPBUF fd ebuf;
      when (bool_decide (rc ≠ 0))
        (error EXIT_FAILURE errno "Can not export %s buffer"
           [AName (v4l2_type_name type)]);;
      bufs ← store bufs i (exp_fd ebuf);
      i ← incr i;
      buffers_export_from n' fd type i bufs
  end.

Definition v4l2_buffers_export (fd type num : Z) (bufs : list Z)
    : M K (list Z) :=
  buffers_export_from (Z.to_nat num) fd type 0 bufs.

(** *** v4l2_dqbuf, v4l2_qbuf, v4l2_streamon *)

(** The buffer is passed by pointer; the result is the structure as
    the kernel left it. *)
Definition v4l2_dqbuf (fd : Z) (buf : v4l2_buffer) : M K v4l2_buffer :=
  '(rc, buf) ← ioctl (vidioc_dqbuf dev) VIDIOC_DQBUF fd buf;
  when (bool_decide (rc ≠ 0))
    (error EXIT_FAILURE errno "Can not dequeue %s buffer from %d"
       [AName (v4l2_type_name (buf_type buf)); AInt fd]);;
  mret buf.

Definition v4l2_qbuf (fd : Z) (buf : v4l2_buffer) : M K v4l2_buffer :=
  '(rc, buf) ← ioctl (vidioc_qbuf dev) VIDIOC_QBUF fd buf;
  when (bool_decide (rc ≠ 0))
    (error EXIT_FAILURE errno "Can not enqueue %s buffer to %d"
       [AName (v4l2_type_name (buf_type buf)); AInt fd]);;
  mret buf.

Definition v4l2_streamon (fd type : Z) : M K unit :=
  '(rc, _) ← ioctl (vidioc_streamon dev) VIDIOC_STREAMON fd type;
  when (bool_decide (rc ≠ 0))
    (error EXIT_FAILURE errno "Failed to start %s stream"
       [AName (v4l2_type_name type)]).

End Operations.

(** ** The protocol of the specification *)

(** The specification describes the module through a per-index buffer
    state, a stream state and named errors.  The C code keeps none of
    these: custody of a buffer and the state of the stream live in the
    driver, and every failure is a call of [error].  The definitions of
    this module follow the specification's words, so that the
    operations above can be compared with them: the states are read off
    the history of requests the driver accepted, and an error kind is
    read off the message of the failing [error] call. *)
Module Protocol.

Inductive BufferState := Free | QueuedToDriver | DequeuedByApp.

Inductive StreamState := Stopped | Running.

Inductive error_kind :=
| UnsupportedCapability
| CountMismatch
| MapFailed
| InvalidState
| DriverRejected
| DequeueFailed
| StreamStartFailed.

#[global] Instance BufferState_eq_dec : EqDecision BufferState.
Proof. solve_decision. Defined.

#[global] Instance StreamState_eq_dec : EqDecision StreamState.
Proof. solve_decision. Defined.

#[global] Instance error_kind_eq_dec : EqDecision error_kind.
Proof. solve_decision. Defined.

(** The ring of one pool: the state of every index; an index never
    queued is [Free]. *)
Definition state_of (r : gmap Z BufferState) (i : Z) : BufferState :=
  default Free (r !! i).

(** [queue]: requires [Free] or [DequeuedByApp], moves the index to
    [QueuedToDriver]; [InvalidState] on a buffer already queued,
    [DriverRejected] when the driver refuses. *)
Definition queue (r : gmap Z BufferState) (i : Z) (driver_rc : Z)
    : error_kind + gmap Z BufferState :=
  match state_of r i with
  | QueuedToDriver => inl InvalidState
  | _ => if bool_decide (driver_rc = 0)
         then inr (<[i := QueuedToDriver]> r)
         else inl DriverRejected
  end.

(** [dequeue]: the index the driver completed moves from
    [QueuedToDriver] to [DequeuedByApp]; [DequeueFailed] when the wait
    errors.  The specification has no transition for a completed index
    in another state: there the result is [None]. *)
Definition dequeue (r : gmap Z BufferState) (i : Z) (driver_rc : Z)
    : option (error_kind + gmap Z BufferState) :=
  if bool_decide (driver_rc = 0)
  then match state_of r i with
       | QueuedToDriver => Some (inr (<[i := DequeuedByApp]> r))
       | _ => None
       end
  else Some (inl DequeueFailed).

(** [start]: [Stopped] to [Running], or [StreamStartFailed]. *)
Definition start (s : StreamState) (driver_rc : Z)
    : error_kind + StreamState :=
  if bool_decide (driver_rc = 0) then inr Running else inl StreamStartFailed.

(** The ring of the pool of buffer type [type] on device [fd], after
    one more system call.  An accepted request for buffers creates the
    pool anew, with every index [Free]; an accepted enqueue of a buffer
    of this type hands its index to the driver; an accepted dequeue
    from the queue of this type hands the index the driver names to the
    application.  A refused request, and a request on another
    descriptor or for another buffer type, leave the ring as it is. *)
Definition custody_step (fd type : Z) (r : gmap Z BufferState) (e : event)
    : gmap Z BufferState :=
  match e with
  | E_ioctl fd' (VIDIOC_REQBUFS a) _ ret =>
      if bool_decide (fd' = fd ∧ req_type a = type ∧ ret = 0)
      then ∅ else r
  | E_ioctl fd' (VIDIOC_QBUF a) _ ret =>
      if bool_decide (fd' = fd ∧ buf_type a = type ∧ ret = 0)
      then <[buf_index a := QueuedToDriver]> r else r
  | E_ioctl fd' (VIDIOC_DQBUF a) (VIDIOC_DQBUF b) ret =>
      if bool_decide (fd' = fd ∧ buf_type a = type ∧ ret = 0)
      then <[buf_index b := DequeuedByApp]> r else r
  | _ => r
  end.

Definition custody (fd type : Z) (t : list event) : gmap Z BufferState :=
  foldl (custody_step fd type) ∅ t.

(** The stream of buffer type [type] on device [fd]: a device has one
    stream for each buffer type, started by an accepted stream-on
    request for that type. *)
Definition stream_step (fd type : Z) (s : StreamState) (e : event)
    : StreamState :=
  match e with
  | E_ioctl fd' (VIDIOC_STREAMON ty) _ ret =>
      if bool_decide (fd' = fd ∧ ty = type ∧ ret = 0) then Running else s
  | _ => s
  end.

Definition stream (fd type : Z) (t : list event) : StreamState :=
  foldl (stream_step fd type) Stopped t.

(** The error kind of a fatal message. *)
Definition classify (f : fatal) : option error_kind :=
  if String.eqb (format f) "Device gives zero %s buffers"
  then Some UnsupportedCapability
  else if String.eqb (format f)
            "Device gives %u %s buffers, but %u is requested"
  then Some CountMismatch
  else if String.eqb (format f) "Can not mmap %s buffer"
  then Some MapFailed
  else if String.eqb (format f) "Can not enqueue %s buffer to %d"
  then Some DriverRejected
  else if String.eqb (format f) "Can not dequeue %s buffer from %d"
  then Some DequeueFailed
  else if String.eqb (format f) "Failed to start %s stream"
  then Some StreamStartFailed
  else None.

(** The error kind an operation failed with, if it did. *)
Definition failure {K A} (o : outcome K A) : option error_kind :=
  match o with
  | Exit f _ => classify f
  | _ => None
  end.

(** What an operation did in the protocol's terms, for the pool or the
    stream of type [type] on [fd]: where it returned, the state read
    off the history; where the process exited, the kind of the error. *)
Definition ring_result {K A} (fd type : Z) (o : outcome K A)
    : option (error_kind + gmap Z BufferState) :=
  match o with
  | Ret _ p => Some (inr (custody fd type (trace p)))
  | Exit f _ => inl <$> classify f
  | Undefined => None
  end.

Definition stream_result {K A} (fd type : Z) (o : outcome K A)
    : option (error_kind + StreamState) :=
  match o with
  | Ret _ p => Some (inr (stream fd type (trace p)))
  | Exit f _ => inl <$> classify f
  | Undefined => None
  end.

End Protocol.

(** ** A system call that failed, as the module tests it *)

Definition io_failed (e : event) : bool :=
  match e with
  | E_open _ _ ret => ret <? 0
  | E_fstat _ ret => ret =? -1
  | E_ioctl _ _ _ ret => negb (ret =? 0)
  | E_mmap _ _ _ _ _ ret => ret =? MAP_FAILED
  end.

(** The process at the end of a computation, when there is one. *)
Definition final {K A} (o : outcome K A) : option (proc K) :=
  match o with
  | Ret _ p => Some p
  | Exit _ p => Some p
  | Undefined => None
  end.

(** An operation for which a failed system call is fatal: if it
    returns, none of the calls it made has failed, and if the process
    exits, it exits with failure status. *)
Definition io_failure_fatal {K A} (m : M K A) : Prop :=
  ∀ p, match m p with
       | Ret _ p' =>
           ∃ t, trace p' = trace p ++ t
                ∧ Forall (λ e, io_failed e = false) t
       | Exit f _ => status f = EXIT_FAILURE
       | Undefined => True
       end.

(** A computation that ends the process. *)
Definition never_returns {K A} (m : M K A) : Prop :=
  ∀ p, match m p with
       | Ret _ _ => False
       | Exit f _ => status f = EXIT_FAILURE
       | Undefined => True
       end.

(** A system call: it returns, having added one entry to the history,
    and [failed] tells from the value returned whether it failed. *)
Definition one_call {K A} (m : M K A) (failed : A → bool) : Prop :=
  ∀ p, match m p with
       | Ret a p' =>
           ∃ e, trace p' = trace p ++ [e] ∧ io_failed e = failed a
       | _ => False
       end.

(** ** The history of a successful pool construction *)

(** Mapping the buffers [i], [i+1], ...: for each, the query that
    returned [q] and the mapping of its length and offset at address
    [a]. *)
Fixpoint mmap_events (fd type prot : Z) (i : Z)
    (qas : list (v4l2_buffer * Z)) : list event :=
  match qas with
  | [] => []
  | (q, a) :: rest =>
      E_ioctl fd (VIDIOC_QUERYBUF (mk_buffer i type 0 0 0 0 0 0 0 0 0))
        (VIDIOC_QUERYBUF q) 0
      :: E_mmap (buf_length q) prot MAP_SHARED fd (buf_offset q) a
      :: mmap_events fd type prot (i + 1) rest
  end.

Definition mmap_region (fd prot : Z) (qa : v4l2_buffer * Z) : region :=
  mk_region qa.2 (buf_length qa.1) prot MAP_SHARED fd (buf_offset qa.1).

Fixpoint export_events (fd type : Z) (i : Z)
    (es : list v4l2_exportbuffer) : list event :=
  match es with
  | [] => []
  | e :: rest =>
      E_ioctl fd (VIDIOC_EXPBUF (mk_exportbuffer type i 0 0 0))
        (VIDIOC_EXPBUF e) 0
      :: export_events fd type (i + 1) rest
  end.

(** The address [qa.2] is a mapping that the kernel made of the length
    and offset reported in [qa.1]. *)
Definition mapped_by {K} (dev : kernel_ops K) (fd prot : Z)
    (qa : v4l2_buffer * Z) : Prop :=
  qa.2 ≠ MAP_FAILED
  ∧ ∃ k, qa.2 = rc (sys_mmap dev k (buf_length qa.1) prot MAP_SHARED fd
                      (buf_offset qa.1)).

(** How a mapping loop that stopped at buffer [i] ended: the query
    failed, or the query succeeded and the mapping failed. *)
Definition mmap_stopped (fd type prot i : Z) (f : fatal) (tl : list event)
    : Prop :=
  (format f = "Can not query buffer"
   ∧ ∃ q ret, ret ≠ 0
       ∧ tl = [E_ioctl fd
                 (VIDIOC_QUERYBUF (mk_buffer i type 0 0 0 0 0 0 0 0 0))
                 (VIDIOC_QUERYBUF q) ret])
  ∨ (format f = "Can not mmap %s buffer"
     ∧ ∃ q, tl = [E_ioctl fd
                    (VIDIOC_QUERYBUF (mk_buffer i type 0 0 0 0 0 0 0 0 0))
                    (VIDIOC_QUERYBUF q) 0;
                  E_mmap (buf_length q) prot MAP_SHARED fd (buf_offset q)
                    MAP_FAILED]).

(** ** A simulated device *)

(** A kernel with no state of its own, used to run the operations on
    concrete inputs.  [grant n] is the count it grants for a request of
    [n] buffers; [len i] the length it reports for buffer [i], whose
    offset is [4096 * i]; it maps the offsets below [4096 * avail] and,
    as POSIX requires, no region of length zero; every other call
    returns [verdict] (with [EIO] when it is not zero) and leaves its
    argument as it was. *)
Definition EINVAL : Z := 22.
Definition ENOMEM : Z := 12.
Definition EIO : Z := 5.

Definition sim_kernel (grant len : Z → Z) (avail verdict : Z)
    : kernel_ops unit :=
  {| sys_open := λ k path flags,
       mk_reply (if verdict =? 0 then 3 else -1) EIO () k;
     sys_fstat := λ k fd, mk_reply verdict EIO S_IFCHR k;
     sys_mmap := λ k len prot flags fd off,
       if len =? 0 then mk_reply MAP_FAILED EINVAL () k
       else if off <? 4096 * avail then mk_reply (65536 + off) 0 () k
       else mk_reply MAP_FAILED ENOMEM () k;
     vidioc_querycap := λ k fd a,
       mk_reply verdict EIO (mk_capability "sim" 0x04200001) k;
     vidioc_s_fmt := λ k fd a, mk_reply verdict EIO a k;
     vidioc_g_parm := λ k fd a,
       mk_reply verdict EIO
         (mk_streamparm (parm_type a) V4L2_CAP_TIMEPERFRAME 0 1 30 0 0) k;
     vidioc_s_parm := λ k fd a, mk_reply verdict EIO a k;
     vidioc_reqbufs := λ k fd a,
       mk_reply 0 0
         (mk_requestbuffers (grant (req_count a)) (req_type a) (req_memory a))
         k;
     vidioc_querybuf := λ k fd a,
       mk_reply 0 0
         (mk_buffer (buf_index a) (buf_type a) 0 0 0 0 0 0 V4L2_MEMORY_MMAP
            (4096 * buf_index a) (len (buf_index a))) k;
     vidioc_expbuf := λ k fd a,
       mk_reply 0 0
         (mk_exportbuffer (exp_type a) (exp_index a) (exp_plane a)
            (exp_flags a) (10 + exp_index a)) k;
     vidioc_dqbuf := λ k fd a, mk_reply verdict EIO a k;
     vidioc_qbuf := λ k fd a, mk_reply verdict EIO a k;
     vidioc_streamon := λ k fd a, mk_reply verdict EIO a k |}.

Definition proc0 : proc unit :=
  {| kernel := (); errno := 0; maps := []; trace := [] |}.

Definition buf0 : v4l2_buffer :=
  mk_buffer 0 V4L2_BUF_TYPE_VIDEO_CAPTURE 0 0 0 0 0 0 V4L2_MEMORY_MMAP 0 0.

(** A device that accepts every request and grants what is asked. *)
Definition willing : kernel_ops unit := sim_kernel id (λ _, 4096) 8 0.

(** A device that grants no buffer, and one that grants two. *)
Definition stingy : kernel_ops unit := sim_kernel (λ _, 0) (λ _, 4096) 8 0.
Definition two_only : kernel_ops unit := sim_kernel (λ _, 2) (λ _, 4096) 8 0.

(** A device with room for one mapping only, and one whose buffers
    have length zero. *)
Definition one_mapping : kernel_ops unit := sim_kernel id (λ _, 4096) 1 0.
Definition hollow : kernel_ops unit := sim_kernel id (λ _, 0) 8 0.

(** A device that refuses the calls that can be refused. *)
Definition refusing : kernel_ops unit := sim_kernel id (λ _, 4096) 8 (-1).

(** A device like [willing] whose dequeue always reports buffer 7 as
    completed, whatever was queued. *)
Definition stray : kernel_ops unit :=
  {| sys_open := sys_open willing;
     sys_fstat := sys_fstat willing;
     sys_mmap := sys_mmap willing;
     vidioc_querycap := vidioc_querycap willing;
     vidioc_s_fmt := vidioc_s_fmt willing;
     vidioc_g_parm := vidioc_g_parm willing;
     vidioc_s_parm := vidioc_s_parm willing;
     vidioc_reqbufs := vidioc_reqbufs willing;
     vidioc_querybuf := vidioc_querybuf willing;
     vidioc_expbuf := vidioc_expbuf willing;
     vidioc_dqbuf := λ k fd a,
       mk_reply 0 0
         (mk_buffer 7 (buf_type a) 614400 0 (buf_field a) 1 0 0
            (buf_memory a) 0 614400) k;
     vidioc_qbuf := vidioc_qbuf willing;
     vidioc_streamon := vidioc_streamon willing |}.

(** ** Printing a format and a buffer *)

(** [v4l2_print_format] and [v4l2_print_buffer] read a structure and
    write it to the log through the macros [pr_cont] and [pr_debug] of
    log.h.  The macros are not interpreted: a printing function is the
    list of the calls it makes, each with its format string and its
    arguments in order. *)

Definition LF : string := String (Ascii.ascii_of_nat 10) EmptyString.

(** An argument of a printing call: an integer, a character given by
    its code ([%c]), a name ([%s]) or a pointer ([%p]). *)
Inductive parg :=
| PInt (z : Z)
| PChar (c : Z)
| PName (n : option cstring)
| PPtr (a : Z).

Inductive log_level := LOG_DEBUG.

Inductive log_call :=
| pr_cont (level : log_level) (fmt : string) (args : list parg)
| pr_debug (fmt : string) (args : list parg).

Definition VIDEO_MAX_PLANES : Z := 8.

Record v4l2_plane_pix_format := mk_plane_pix_format
  { plane_sizeimage : Z; plane_bytesperline : Z }.

(** [plane_fmt] is an array of [VIDEO_MAX_PLANES] elements and
    [num_planes] a [__u8]. *)
Record v4l2_pix_format_mplane := mk_pix_format_mplane
  { mp_width : Z; mp_height : Z; mp_pixelformat : Z; mp_field : Z;
    mp_colorspace : Z; mp_plane_fmt : list v4l2_plane_pix_format;
    mp_num_planes : Z; mp_flags : Z; mp_ycbcr_enc : Z;
    mp_quantization : Z }.

Record v4l2_rect := mk_rect
  { rect_left : Z; rect_top : Z; rect_width : Z; rect_height : Z }.

Record v4l2_window := mk_window
  { win_w : v4l2_rect; win_field : Z; win_chromakey : Z; win_clips : Z;
    win_clipcount : Z; win_bitmap : Z; win_global_alpha : Z }.

Record v4l2_vbi_format := mk_vbi_format
  { vbi_sampling_rate : Z; vbi_offset : Z; vbi_samples_per_line : Z;
    vbi_sample_format : Z; vbi_start : Z * Z; vbi_count : Z * Z }.

(** [service_lines] is an array [2][24]. *)
Record v4l2_sliced_vbi_format := mk_sliced_vbi_format
  { sliced_service_set : Z; sliced_service_lines : list Z * list Z;
    sliced_io_size : Z }.

Record v4l2_sdr_format := mk_sdr_format
  { sdr_pixelformat : Z }.

(** [struct v4l2_format] as the printing function reads it: the members
    of the union [fmt] share their storage, and the function reads the
    one member that belongs to [type]; each field below is what the
    storage holds when read as that member. *)
Record v4l2_format_members := mk_format_members
  { f_type : Z;
    f_pix : v4l2_pix_format;
    f_pix_mp : v4l2_pix_format_mplane;
    f_win : v4l2_window;
    f_vbi : v4l2_vbi_format;
    f_sliced : v4l2_sliced_vbi_format;
    f_sdr : v4l2_sdr_format }.

(** The loop over the planes, [for (i = 0; i < mp->num_planes; i++)]:
    [n] is the number of iterations still to run.  The result is [None]
    when [plane_fmt[i]] is read outside the array. *)
Fixpoint print_planes (n : nat) (i : Z)
    (plane_fmt : list v4l2_plane_pix_format) : option (list log_call) :=
  match n with
  | O => Some []
  | S n' =>
      match plane_fmt !! Z.to_nat i with
      | None => None
      | Some pl =>
          cons (pr_debug
                  (String.append "plane %u: bytesperline=%u sizeimage=%u" LF)
                  [PInt i; PInt (plane_bytesperline pl);
                   PInt (plane_sizeimage pl)])
            <$> print_planes n' (i + 1) plane_fmt
      end
  end.

(** The loop over the 24 lines, [for (i = 0; i < 24; i++)]. *)
Fixpoint print_lines (n : nat) (i : Z) (lines : list Z * list Z)
    : option (list log_call) :=
  match n with
  | O => Some []
  | S n' =>
      match lines.1 !! Z.to_nat i, lines.2 !! Z.to_nat i with
      | Some l0, Some l1 =>
          cons (pr_debug (String.append "line[%02u]=0x%04x, 0x%04x" LF)
                  [PInt i; PInt l0; PInt l1])
            <$> print_lines n' (i + 1) lines
      | _, _ => None
      end
  end.

Definition v4l2_print_format (p : v4l2_format_members)
    : option (list log_call) :=
  let head := pr_cont LOG_DEBUG "type=%s" [PName (v4l2_type_name (f_type p))] in
  let type := f_type p in
  if bool_decide (type = V4L2_BUF_TYPE_VIDEO_CAPTURE
                  ∨ type = V4L2_BUF_TYPE_VIDEO_OUTPUT) then
    let pix := f_pix p in
    Some [head;
          pr_cont LOG_DEBUG
            (String.append
               ", width=%u, height=%u, pixelformat=%c%c%c%c, field=%s, bytesperline=%u, sizeimage=%u, colorspace=%d, flags=0x%x, ycbcr_enc=%u, quantization=%u"
               LF)
            [PInt (pix_width pix); PInt (pix_height pix);
             PChar (Z.land (pix_pixelformat pix) 0xff);
             PChar (Z.land (Z.shiftr (pix_pixelformat pix) 8) 0xff);
             PChar (Z.land (Z.shiftr (pix_pixelformat pix) 16) 0xff);
             PChar (Z.land (Z.shiftr (pix_pixelformat pix) 24) 0xff);
             PName (v4l2_field_name (pix_field pix));
             PInt (pix_bytesperline pix); PInt (pix_sizeimage pix);
             PInt (pix_colorspace pix); PInt (pix_flags pix);
             PInt (pix_ycbcr_enc pix); PInt (pix_quantization pix)]]
  else if bool_decide (type = V4L2_BUF_TYPE_VIDEO_CAPTURE_MPLANE
                       ∨ type = V4L2_BUF_TYPE_VIDEO_OUTPUT_MPLANE) then
    let mp := f_pix_mp p in
    planes ← print_planes (Z.to_nat (mp_num_planes mp)) 0 (mp_plane_fmt mp);
    Some (head ::
          pr_cont LOG_DEBUG
            (String.append
               ", width=%u, height=%u, format=%c%c%c%c, field=%s, colorspace=%d, num_planes=%u, flags=0x%x, ycbcr_enc=%u, quantization=%u"
               LF)
            [PInt (mp_width mp); PInt (mp_height mp);
             PChar (Z.land (mp_pixelformat mp) 0xff);
             PChar (Z.land (Z.shiftr (mp_pixelformat mp) 8) 0xff);
             PChar (Z.land (Z.shiftr (mp_pixelformat mp) 16) 0xff);
             PChar (Z.land (Z.shiftr (mp_pixelformat mp) 24) 0xff);
             PName (v4l2_field_name (mp_field mp));
             PInt (mp_colorspace mp); PInt (mp_num_planes mp);
             PInt (mp_flags mp); PInt (mp_ycbcr_enc mp);
             PInt (mp_quantization mp)]
          :: planes)
  else if bool_decide (type = V4L2_BUF_TYPE_VIDEO_OVERLAY
                       ∨ type = V4L2_BUF_TYPE_VIDEO_OUTPUT_OVERLAY) then
    let win := f_win p in
    Some [head;
          pr_cont LOG_DEBUG
            (String.append
               ", wxh=%dx%d, x,y=%d,%d, field=%s, chromakey=0x%08x, clipcount=%u, clips=%p, bitmap=%p, global_alpha=0x%02x"
               LF)
            [PInt (rect_width (win_w win)); PInt (rect_height (win_w win));
             PInt (rect_left (win_w win)); PInt (rect_top (win_w win));
             PName (v4l2_field_name (win_field win));
             PInt (win_chromakey win); PInt (win_clipcount win);
             PPtr (win_clips win); PPtr (win_bitmap win);
             PInt (win_global_alpha win)]]
  else if bool_decide (type = V4L2_BUF_TYPE_VBI_CAPTURE
                       ∨ type = V4L2_BUF_TYPE_VBI_OUTPUT) then
    let vbi := f_vbi p in
    Some [head;
          pr_cont LOG_DEBUG
            (String.append
               ", sampling_rate=%u, offset=%u, samples_per_line=%u, sample_format=%c%c%c%c, start=%u,%u, count=%u,%u"
               LF)
            [PInt (vbi_sampling_rate vbi); PInt (vbi_offset vbi);
             PInt (vbi_samples_per_line vbi);
             PChar (Z.land (vbi_sample_format vbi) 0xff);
             PChar (Z.land (Z.shiftr (vbi_sample_format vbi) 8) 0xff);
             PChar (Z.land (Z.shiftr (vbi_sample_format vbi) 16) 0xff);
             PChar (Z.land (Z.shiftr (vbi_sample_format vbi) 24) 0xff);
             PInt (vbi_start vbi).1; PInt (vbi_start vbi).2;
             PInt (vbi_count vbi).1; PInt (vbi_count vbi).2]]
  else if bool_decide (type = V4L2_BUF_TYPE_SLICED_VBI_CAPTURE
                       ∨ type = V4L2_BUF_TYPE_SLICED_VBI_OUTPUT) then
    let sliced := f_sliced p in
    lines ← print_lines 24 0 (sliced_service_lines sliced);
    Some (head ::
          pr_cont LOG_DEBUG
            (String.append ", service_set=0x%08x, io_size=%d" LF)
            [PInt (sliced_service_set sliced); PInt (sliced_io_size sliced)]
          :: lines)
  else if bool_decide (type = V4L2_BUF_TYPE_SDR_CAPTURE) then
    let sdr := f_sdr p in
    Some [head;
          pr_cont LOG_DEBUG (String.append ", pixelformat=%c%c%c%c" LF)
            [PChar (Z.land (Z.shiftr (sdr_pixelformat sdr) 0) 0xff);
             PChar (Z.land (Z.shiftr (sdr_pixelformat sdr) 8) 0xff);
             PChar (Z.land (Z.shiftr (sdr_pixelformat sdr) 16) 0xff);
             PChar (Z.land (Z.shiftr (sdr_pixelformat sdr) 24) 0xff)]]
  else Some [head].

(** Conversion of a [long] to [int]. *)
Definition to_int (z : Z) : Z := (z + 2 ^ 31) mod 2 ^ 32 - 2 ^ 31.

(** [/] and [%] of C truncate towards zero: [Z.quot] and [Z.rem]. *)
Definition v4l2_print_buffer (p : v4l2_buffer) : list log_call :=
  [pr_debug
     "%02ld:%02d:%02d.%08ld index=%d, type=%s, flags=0x%08x, sequence=%d, memory=%s, bytesused=%d, length=%d, offset=%d"
     [PInt (Z.quot (buf_tv_sec p) 3600);
      PInt (Z.rem (to_int (Z.quot (buf_tv_sec p) 60)) 60);
      PInt (to_int (Z.rem (buf_tv_sec p) 60));
      PInt (buf_tv_usec p);
      PInt (buf_index p);
      PName (v4l2_type_name (buf_type p));
      PInt (buf_flags p);
      PInt (buf_sequence p); PName (v4l2_memory_name (buf_memory p));
      PInt (buf_bytesused p); PInt (buf_length p);
      PInt (if bool_decide (buf_memory p = V4L2_MEMORY_MMAP)
            then buf_offset p else 0)]].

(** The arguments of a call, and among them the character codes and
    the names. *)
Definition args_of (c : log_call) : list parg :=
  match c with
  | pr_cont _ _ args => args
  | pr_debug _ args => args
  end.

Definition chars_of (c : log_call) : list Z :=
  omap (λ a, match a with PChar c => Some c | _ => None end) (args_of c).

Definition names_of (c : log_call) : list (option cstring) :=
  omap (λ a, match a with PName n => Some n | _ => None end) (args_of c).

(** The code that four characters spell, first character in the low
    byte, as the macro [v4l2_fourcc] of the kernel header packs them. *)
Definition fourcc (cs : list Z) : Z := foldr (λ c acc, c + 256 * acc) 0 cs.

(** The four-character code that a format of the given type carries:
    the pixel format, or the sample format of a VBI stream. *)
Definition format_code (p : v4l2_format_members) : option Z :=
  let type := f_type p in
  if bool_decide (type = V4L2_BUF_TYPE_VIDEO_CAPTURE
                  ∨ type = V4L2_BUF_TYPE_VIDEO_OUTPUT)
  then Some (pix_pixelformat (f_pix p))
  else if bool_decide (type = V4L2_BUF_TYPE_VIDEO_CAPTURE_MPLANE
                       ∨ type = V4L2_BUF_TYPE_VIDEO_OUTPUT_MPLANE)
  then Some (mp_pixelformat (f_pix_mp p))
  else if bool_decide (type = V4L2_BUF_TYPE_VBI_CAPTURE
                       ∨ type = V4L2_BUF_TYPE_VBI_OUTPUT)
  then Some (vbi_sample_format (f_vbi p))
  else if bool_decide (type = V4L2_BUF_TYPE_SDR_CAPTURE)
  then Some (sdr_pixelformat (f_sdr p))
  else None.

(** A format to print: 640 by 480 in YUYV, the other members empty. *)
Definition yuyv : Z := 0x56595559.

Definition sample_format (type num_planes : Z) : v4l2_format_members :=
  {| f_type := type;
     f_pix := mk_pix_format 640 480 yuyv V4L2_FIELD_NONE 1280 614400 0 0 0 0;
     f_pix_mp :=
       mk_pix_format_mplane 640 480 yuyv V4L2_FIELD_NONE 0
         (replicate 8 (mk_plane_pix_format 614400 1280)) num_planes 0 0 0;
     f_win := mk_window (mk_rect 0 0 640 480) V4L2_FIELD_NONE 0 0 0 0 0;
     f_vbi := mk_vbi_format 0 0 0 yuyv (0, 0) (0, 0);
     f_sliced := mk_sliced_vbi_format 0 (replicate 24 0, replicate 24 0) 0;
     f_sdr := mk_sdr_format yuyv |}.

(** ** Operations and the mapped regions *)

(** A computation that leaves the mapped regions as they are, whether
    it returns or the process exits. *)
Definition keeps_maps {K A} (m : M K A) : Prop :=
  ∀ p, match m p with
       | Ret _ p' => maps p' = maps p
       | Exit _ p' => maps p' = maps p
       | Undefined => True
       end.

(** A device like [willing] that knows only the buffers below [bad]:
    it refuses to describe or to export the others. *)
Definition faulty (bad : Z) : kernel_ops unit :=
  {| sys_open := sys_open willing;
     sys_fstat := sys_fstat willing;
     sys_mmap := sys_mmap willing;
     vidioc_querycap := vidioc_querycap willing;
     vidioc_s_fmt := vidioc_s_fmt willing;
     vidioc_g_parm := vidioc_g_parm willing;
     vidioc_s_parm := vidioc_s_parm willing;
     vidioc_reqbufs := vidioc_reqbufs willing;
     vidioc_querybuf := λ k fd a,
       if buf_index a <? bad then vidioc_querybuf willing k fd a
       else mk_reply (-1) EINVAL a k;
     vidioc_expbuf := λ k fd a,
       if exp_index a <? bad then vidioc_expbuf willing k fd a
       else mk_reply (-1) EINVAL a k;
     vidioc_dqbuf := vidioc_dqbuf willing;
     vidioc_qbuf := vidioc_qbuf willing;
     vidioc_streamon := vidioc_streamon willing |}.

(** ** The error code of the final message *)

(** A computation all of whose fatal messages satisfy [P], a relation
    between the arguments of the [error] call and the process at that
    point. *)
Definition exits_with {K A} (P : fatal → proc K → Prop) (m : M K A) : Prop :=
  ∀ p, match m p with
       | Exit f p' => P f p'
       | _ => True
       end.

(** The message names no system error: [errnum] is 0 and [error]
    prints no [strerror] text. *)
Definition no_code {K} (f : fatal) (p : proc K) : Prop := errnum f = 0.

(** The message carries [errno] as it stands when the process exits. *)
Definition system_code {K} (f : fatal) (p : proc K) : Prop :=
  errnum f = errno p.

(** * Properties *)

(** Running a computation: the binds and the primitive steps are
    unfolded down to the case analysis on the values returned. *)
Ltac run_monad :=
  unfold mbind, M_bind, ioctl, mmap, store, incr, when, error; simpl.

(** ** Reading the history *)

Lemma custody_snoc (fd type : Z) (t : list event) (e : event) :
  Protocol.custody fd type (t ++ [e])
  = Protocol.custody_step fd type (Protocol.custody fd type t) e.
Proof. unfold Protocol.custody. by rewrite foldl_app. Qed.

Lemma stream_snoc (fd type : Z) (t : list event) (e : event) :
  Protocol.stream fd type (t ++ [e])
  = Protocol.stream_step fd type (Protocol.stream fd type t) e.
Proof. unfold Protocol.stream. by rewrite foldl_app. Qed.

Lemma state_of_insert (r : gmap Z Protocol.BufferState) (i j : Z)
    (s : Protocol.BufferState) :
  Protocol.state_of (<[i := s]> r) j
  = if decide (i = j) then s else Protocol.state_of r j.
Proof.
  unfold Protocol.state_of. rewrite lookup_insert.
  by destruct (decide (i = j)).
Qed.

(** ** Name lookup *)

Lemma to_unsigned_nonneg (a : Z) : 0 ≤ a < 2 ^ 32 → to_unsigned a = a.
Proof. intros. unfold to_unsigned. apply Z.mod_small. lia. Qed.

Lemma to_unsigned_neg (a : Z) :
  - 2 ^ 31 ≤ a < 0 → to_unsigned a = a + 2 ^ 32.
Proof.
  intros. unfold to_unsigned. symmetry.
  apply (Z.mod_unique_pos _ _ (-1)); lia.
Qed.

(** The guard of [v4l2_name] keeps every read inside the table, for
    every value of an [int] or an [unsigned]. *)
Lemma v4l2_name_in_bounds (a : Z) (arr : list cstring) :
  - 2 ^ 31 ≤ a < 2 ^ 32 → ARRAY_SIZE arr < 2 ^ 31 →
  is_Some (v4l2_name a arr).
Proof.
  intros Ha Hsz. unfold v4l2_name, ARRAY_SIZE in *.
  destruct (Z.ltb_spec (to_unsigned a) (Z.of_nat (length arr))) as [Hlt|_];
    [|by eexists].
  destruct (Z.ltb_spec a 0) as [Hneg|Hpos].
  - rewrite to_unsigned_neg in Hlt; lia.
  - rewrite to_unsigned_nonneg in Hlt by lia.
    apply lookup_lt_is_Some. lia.
Qed.

Lemma v4l2_field_name_not_null (field : Z) :
  - 2 ^ 31 ≤ field < 2 ^ 32 →
  ∃ s, v4l2_field_name field = Some (Some s).
Proof.
  intros Hr. unfold v4l2_field_name, v4l2_name.
  change (ARRAY_SIZE v4l2_field_names) with 10.
  destruct (Z.ltb_spec (to_unsigned field) 10) as [Hlt|_]; [|by eexists].
  destruct (Z.ltb_spec field 0) as [Hneg|Hpos].
  - rewrite to_unsigned_neg in Hlt; lia.
  - rewrite to_unsigned_nonneg in Hlt by lia.
    assert (Hc : field = 0 ∨ field = 1 ∨ field = 2 ∨ field = 3 ∨ field = 4
                 ∨ field = 5 ∨ field = 6 ∨ field = 7 ∨ field = 8 ∨ field = 9)
      by lia.
    repeat (destruct Hc as [->|Hc]; [by eexists|]). subst. by eexists.
Qed.

Lemma v4l2_type_name_not_null (type : Z) :
  - 2 ^ 31 ≤ type < 2 ^ 32 → type ≠ 0 →
  ∃ s, v4l2_type_name type = Some (Some s).
Proof.
  intros Hr Hnz. unfold v4l2_type_name, v4l2_name.
  change (ARRAY_SIZE v4l2_type_names) with 12.
  destruct (Z.ltb_spec (to_unsigned type) 12) as [Hlt|_]; [|by eexists].
  destruct (Z.ltb_spec type 0) as [Hneg|Hpos].
  - rewrite to_unsigned_neg in Hlt; lia.
  - rewrite to_unsigned_nonneg in Hlt by lia.
    assert (Hc : type = 1 ∨ type = 2 ∨ type = 3 ∨ type = 4 ∨ type = 5
                 ∨ type = 6 ∨ type = 7 ∨ type = 8 ∨ type = 9 ∨ type = 10
                 ∨ type = 11) by lia.
    repeat (destruct Hc as [->|Hc]; [by eexists|]). subst. by eexists.
Qed.

Lemma v4l2_memory_name_not_null (memory : Z) :
  - 2 ^ 31 ≤ memory < 2 ^ 32 → memory ≠ 0 →
  ∃ s, v4l2_memory_name memory = Some (Some s).
Proof.
  intros Hr Hnz. unfold v4l2_memory_name, v4l2_name.
  change (ARRAY_SIZE v4l2_memory_names) with 5.
  destruct (Z.ltb_spec (to_unsigned memory) 5) as [Hlt|_]; [|by eexists].
  destruct (Z.ltb_spec memory 0) as [Hneg|Hpos].
  - rewrite to_unsigned_neg in Hlt; lia.
  - rewrite to_unsigned_nonneg in Hlt by lia.
    assert (Hc : memory = 1 ∨ memory = 2 ∨ memory = 3 ∨ memory = 4) by lia.
    repeat (destruct Hc as [->|Hc]; [by eexists|]). subst. by eexists.
Qed.

(** C8. The lookup functions never read outside their tables, and
    [v4l2_field_name] always returns a string; but the tables of buffer
    types and of memory kinds are initialised from index 1 on, so that
    their slot 0 is a null pointer, which [v4l2_type_name (0)] and
    [v4l2_memory_name (0)] read and return.  Every other value gives a
    string. *)
Theorem v4l2_name_null_at_zero :
  v4l2_type_name 0 = Some NULL
  ∧ v4l2_memory_name 0 = Some NULL
  ∧ (∀ a, - 2 ^ 31 ≤ a < 2 ^ 32 →
       is_Some (v4l2_field_name a) ∧ is_Some (v4l2_type_name a)
       ∧ is_Some (v4l2_memory_name a))
  ∧ (∀ a, - 2 ^ 31 ≤ a < 2 ^ 32 →
       (∃ s, v4l2_field_name a = Some (Some s))
       ∧ (a ≠ 0 → ∃ s, v4l2_type_name a = Some (Some s))
       ∧ (a ≠ 0 → ∃ s, v4l2_memory_name a = Some (Some s))).
Proof.
  split; [reflexivity|]. split; [reflexivity|]. split.
  - intros a Ha. split_and!; by apply v4l2_name_in_bounds.
  - intros a Ha. split_and!.
    + by apply v4l2_field_name_not_null.
    + by apply v4l2_type_name_not_null.
    + by apply v4l2_memory_name_not_null.
Qed.

(** ** Requesting buffers *)

Section Request.
Context {K : Type} (dev : kernel_ops K).
Implicit Types (p : proc K) (fd type num memory : Z).

Lemma v4l2_buffers_request_eq p fd type num memory :
  let r := vidioc_reqbufs dev (kernel p) fd
             (mk_requestbuffers num type memory) in
  let p' := ioctl_after (vidioc_reqbufs dev) VIDIOC_REQBUFS p fd
              (mk_requestbuffers num type memory) in
  v4l2_buffers_request dev fd type num memory p =
    if decide (rc r ≠ 0) then
      Exit (mk_fatal EXIT_FAILURE (errno p') "Can not request %s buffers"
              [AName (v4l2_type_name type)]) p'
    else if decide (req_count (out r) = 0) then
      Exit (mk_fatal EXIT_FAILURE 0 "Device gives zero %s buffers"
              [AName (v4l2_type_name type)]) p'
    else if decide (req_count (out r) ≠ num) then
      Exit (mk_fatal EXIT_FAILURE 0
              "Device gives %u %s buffers, but %u is requested"
              [AInt (req_count (out r)); AName (v4l2_type_name type);
               AInt num]) p'
    else Ret (req_count (out r)) p'.
Proof.
  intros r p'. subst r p'.
  unfold v4l2_buffers_request. run_monad.
  repeat (case_bool_decide; destruct (decide _); try done; simpl).
Qed.

(** The request returns only the count that was asked for, and only
    when the driver granted exactly that count, which is then not
    zero. *)
Lemma v4l2_buffers_request_ret p fd type num memory n p' :
  v4l2_buffers_request dev fd type num memory p = Ret n p' →
  let r := vidioc_reqbufs dev (kernel p) fd
             (mk_requestbuffers num type memory) in
  n = num ∧ num ≠ 0 ∧ rc r = 0 ∧ req_count (out r) = num
  ∧ p' = ioctl_after (vidioc_reqbufs dev) VIDIOC_REQBUFS p fd
           (mk_requestbuffers num type memory).
Proof.
  rewrite v4l2_buffers_request_eq. intros Hrun r. fold r in Hrun.
  destruct (decide (rc r ≠ 0)); [done|].
  destruct (decide (req_count (out r) = 0)); [done|].
  destruct (decide (req_count (out r) ≠ num)); [done|].
  injection Hrun as <- <-.
  assert (req_count (out r) = num)
    by (by destruct (decide (req_count (out r) = num))).
  assert (rc r = 0) by (by destruct (decide (rc r = 0))).
  repeat split; congruence.
Qed.

(** C2, as the code has it.  When the request is answered and the
    driver grants a count that is not zero: a count different from the
    one requested ends the process with the count-mismatch error, and
    the exact count is returned.  (A grant of zero is the other error,
    whatever was requested.) *)
Theorem v4l2_buffers_request_exact p fd type num memory :
  let r := vidioc_reqbufs dev (kernel p) fd
             (mk_requestbuffers num type memory) in
  let p' := ioctl_after (vidioc_reqbufs dev) VIDIOC_REQBUFS p fd
              (mk_requestbuffers num type memory) in
  rc r = 0 → req_count (out r) ≠ 0 →
  if decide (req_count (out r) = num)
  then v4l2_buffers_request dev fd type num memory p = Ret num p'
  else ∃ f, v4l2_buffers_request dev fd type num memory p = Exit f p'
            ∧ status f = EXIT_FAILURE
            ∧ Protocol.classify f = Some Protocol.CountMismatch.
Proof.
  intros r p' Hrc Hnz. rewrite v4l2_buffers_request_eq. fold r p'.
  destruct (decide (rc r ≠ 0)); [done|].
  destruct (decide (req_count (out r) = 0)); [done|].
  destruct (decide (req_count (out r) = num)) as [Heq|Hne].
  - destruct (decide (req_count (out r) ≠ num)); [done|]. by rewrite Heq.
  - destruct (decide (req_count (out r) ≠ num)); [|done]. by eexists.
Qed.

(** C4. When the request is answered with a grant of zero buffers, for
    any count requested, the process exits with the
    unsupported-capability error, having made that one call: nothing is
    mapped or exported. *)
Theorem v4l2_buffers_request_zero p fd type num memory :
  let r := vidioc_reqbufs dev (kernel p) fd
             (mk_requestbuffers num type memory) in
  let p' := ioctl_after (vidioc_reqbufs dev) VIDIOC_REQBUFS p fd
              (mk_requestbuffers num type memory) in
  rc r = 0 → req_count (out r) = 0 →
  ∃ f, v4l2_buffers_request dev fd type num memory p = Exit f p'
       ∧ status f = EXIT_FAILURE
       ∧ Protocol.classify f = Some Protocol.UnsupportedCapability
       ∧ maps p' = maps p
       ∧ trace p' = trace p ++
           [E_ioctl fd (VIDIOC_REQBUFS (mk_requestbuffers num type memory))
              (VIDIOC_REQBUFS (out r)) 0].
Proof.
  intros r p' Hrc Hz. rewrite v4l2_buffers_request_eq. fold r p'.
  destruct (decide (rc r ≠ 0)); [done|].
  destruct (decide (req_count (out r) = 0)); [|done].
  eexists. repeat split. subst p'. unfold ioctl_after, after; simpl.
  fold r. by rewrite Hrc.
Qed.

End Request.

Lemma v4l2_buffers_request_exact_witness :
  v4l2_buffers_request willing 3 V4L2_BUF_TYPE_VIDEO_CAPTURE 4
    V4L2_MEMORY_MMAP proc0
  = Ret 4 (ioctl_after (vidioc_reqbufs willing) VIDIOC_REQBUFS proc0 3
             (mk_requestbuffers 4 V4L2_BUF_TYPE_VIDEO_CAPTURE
                V4L2_MEMORY_MMAP)).
Proof.
  apply (v4l2_buffers_request_exact willing proc0 3
           V4L2_BUF_TYPE_VIDEO_CAPTURE 4 V4L2_MEMORY_MMAP).
  - reflexivity.
  - vm_compute. discriminate.
Defined.

Lemma v4l2_buffers_request_zero_witness :
  ∃ f, v4l2_buffers_request stingy 3 V4L2_BUF_TYPE_VIDEO_CAPTURE 4
         V4L2_MEMORY_MMAP proc0
       = Exit f (ioctl_after (vidioc_reqbufs stingy) VIDIOC_REQBUFS proc0 3
                   (mk_requestbuffers 4 V4L2_BUF_TYPE_VIDEO_CAPTURE
                      V4L2_MEMORY_MMAP))
       ∧ Protocol.classify f = Some Protocol.UnsupportedCapability.
Proof.
  destruct (v4l2_buffers_request_zero stingy proc0 3
              V4L2_BUF_TYPE_VIDEO_CAPTURE 4 V4L2_MEMORY_MMAP)
    as (f & Hrun & _ & Hkind & _).
  - reflexivity.
  - reflexivity.
  - exists f. split; assumption.
Defined.

(** C2 as stated fails where the driver grants zero buffers: the count
    differs from the four requested, yet the error is the
    unsupported-capability one, not the count mismatch.  And a request
    for zero buffers that is granted exactly does not succeed. *)
Lemma zero_grant_is_not_count_mismatch :
  let r := vidioc_reqbufs stingy () 3
             (mk_requestbuffers 4 V4L2_BUF_TYPE_VIDEO_CAPTURE
                V4L2_MEMORY_MMAP) in
  rc r = 0 ∧ req_count (out r) ≠ 4
  ∧ Protocol.failure (v4l2_buffers_request stingy 3
                        V4L2_BUF_TYPE_VIDEO_CAPTURE 4 V4L2_MEMORY_MMAP proc0)
    = Some Protocol.UnsupportedCapability
  ∧ Protocol.failure (v4l2_buffers_request stingy 3
                        V4L2_BUF_TYPE_VIDEO_CAPTURE 4 V4L2_MEMORY_MMAP proc0)
    ≠ Some Protocol.CountMismatch
  ∧ req_count (out (vidioc_reqbufs willing () 3
                      (mk_requestbuffers 0 V4L2_BUF_TYPE_VIDEO_CAPTURE
                         V4L2_MEMORY_MMAP))) = 0
  ∧ Protocol.failure (v4l2_buffers_request willing 3
                        V4L2_BUF_TYPE_VIDEO_CAPTURE 0 V4L2_MEMORY_MMAP proc0)
    = Some Protocol.UnsupportedCapability.
Proof. vm_compute. repeat split; discriminate. Qed.

(** ** Setting the format *)

Section Configure.
Context {K : Type} (dev : kernel_ops K).
Implicit Types (p : proc K) (fd type : Z).

(** C10. [v4l2_configure] returns exactly when the driver accepts the
    request and hands back the requested width, height and pixel
    format; in every other case the process exits with failure
    status. *)
Theorem v4l2_configure_exact p fd type pixelformat width height :
  let req := mk_format type
    (mk_pix_format width height pixelformat V4L2_FIELD_ANY 0 0 0 0 0 0) in
  let r := vidioc_s_fmt dev (kernel p) fd req in
  let p' := ioctl_after (vidioc_s_fmt dev) VIDIOC_S_FMT p fd req in
  let confirmed :=
    rc r = 0
    ∧ pix_width (fmt_pix (out r)) = width
    ∧ pix_height (fmt_pix (out r)) = height
    ∧ pix_pixelformat (fmt_pix (out r)) = pixelformat in
  match v4l2_configure dev fd type pixelformat width height p with
  | Ret _ q => q = p' ∧ confirmed
  | Exit f q => q = p' ∧ status f = EXIT_FAILURE ∧ ¬ confirmed
  | Undefined => False
  end.
Proof.
  intros req r p' confirmed. subst confirmed p'.
  unfold v4l2_configure. run_monad.
  fold req. fold r.
  case_bool_decide as Hrc; simpl.
  { repeat split. tauto. }
  destruct (bool_decide (pix_width (fmt_pix (out r)) ≠ width)) eqn:Hw; simpl.
  { apply bool_decide_eq_true in Hw. repeat split. tauto. }
  apply bool_decide_eq_false in Hw.
  destruct (bool_decide (pix_height (fmt_pix (out r)) ≠ height)) eqn:Hh; simpl.
  { apply bool_decide_eq_true in Hh. repeat split. tauto. }
  apply bool_decide_eq_false in Hh.
  case_bool_decide as Hp; simpl.
  { repeat split. tauto. }
  repeat split.
  - by destruct (decide (rc r = 0)).
  - by destruct (decide (pix_width (fmt_pix (out r)) = width)).
  - by destruct (decide (pix_height (fmt_pix (out r)) = height)).
  - by destruct (decide (pix_pixelformat (fmt_pix (out r)) = pixelformat)).
Qed.

End Configure.

(** ** Queueing, dequeueing and starting the stream *)

Section Ring.
Context {K : Type} (dev : kernel_ops K).
Implicit Types (p : proc K) (fd type : Z) (buf : v4l2_buffer).

(** A pool starts with every index [Free]: when
    [v4l2_buffers_request] returns, the ring of its buffer type on its
    descriptor is empty, whatever was queued there before, and the
    other rings are as they were. *)
Lemma v4l2_buffers_request_fresh_ring p fd type num memory n p' :
  v4l2_buffers_request dev fd type num memory p = Ret n p' →
  (∀ i, Protocol.state_of (Protocol.custody fd type (trace p')) i
        = Protocol.Free)
  ∧ (∀ fd' type', (fd', type') ≠ (fd, type) →
       Protocol.custody fd' type' (trace p')
       = Protocol.custody fd' type' (trace p)).
Proof.
  intros Hrun. apply v4l2_buffers_request_ret in Hrun
    as (_ & _ & Hrc & _ & ->).
  unfold ioctl_after, after; simpl. split.
  - intros i. rewrite custody_snoc; simpl.
    by rewrite (bool_decide_eq_true_2 _).
  - intros fd' type' Hother. rewrite custody_snoc; simpl.
    rewrite (bool_decide_eq_false_2 _); [done|]. intros (-> & -> & _).
    by apply Hother.
Qed.

(** C1, as the code has it.  [v4l2_qbuf] keeps no state of the buffers
    and checks none: it passes every request to the driver, returns the
    buffer when the driver accepts and exits with the driver-rejected
    error when it refuses.  An accepted request hands the index to the
    driver in the ring of the buffer's type on this descriptor and
    changes nothing else; a refused request leaves every ring as it
    was.  On an index that is free or held by the application this is
    the specification's [queue]; on an index already queued the
    driver's answer decides as well, and an accepted request leaves the
    index queued. *)
Theorem v4l2_qbuf_driver_verdict p fd buf :
  let r := vidioc_qbuf dev (kernel p) fd buf in
  let p' := ioctl_after (vidioc_qbuf dev) VIDIOC_QBUF p fd buf in
  let ring := Protocol.custody fd (buf_type buf) (trace p) in
  v4l2_qbuf dev fd buf p =
    (if decide (rc r = 0) then Ret (out r) p'
     else Exit (mk_fatal EXIT_FAILURE (errno p')
                  "Can not enqueue %s buffer to %d"
                  [AName (v4l2_type_name (buf_type (out r))); AInt fd]) p')
  ∧ final (v4l2_qbuf dev fd buf p) = Some p'
  ∧ trace p' = trace p ++
      [E_ioctl fd (VIDIOC_QBUF buf) (VIDIOC_QBUF (out r)) (rc r)]
  ∧ (∀ fd' type,
       Protocol.custody fd' type (trace p') =
         if decide (rc r = 0 ∧ fd' = fd ∧ type = buf_type buf)
         then <[buf_index buf := Protocol.QueuedToDriver]>
                (Protocol.custody fd' type (trace p))
         else Protocol.custody fd' type (trace p))
  ∧ Protocol.ring_result fd (buf_type buf) (v4l2_qbuf dev fd buf p) =
      Some (if decide (Protocol.state_of ring (buf_index buf)
                       = Protocol.QueuedToDriver)
            then (if decide (rc r = 0)
                  then inr (<[buf_index buf := Protocol.QueuedToDriver]> ring)
                  else inl Protocol.DriverRejected)
            else Protocol.queue ring (buf_index buf) (rc r)).
Proof.
  intros r p' ring.
  assert (Hrun : v4l2_qbuf dev fd buf p =
    if decide (rc r = 0) then Ret (out r) p'
    else Exit (mk_fatal EXIT_FAILURE (errno p')
                 "Can not enqueue %s buffer to %d"
                 [AName (v4l2_type_name (buf_type (out r))); AInt fd]) p').
  { unfold v4l2_qbuf. run_monad. fold r p'.
    case_bool_decide; destruct (decide (rc r = 0)); done. }
  assert (Hring : ∀ fd' type,
    Protocol.custody fd' type (trace p') =
      if decide (rc r = 0 ∧ fd' = fd ∧ type = buf_type buf)
      then <[buf_index buf := Protocol.QueuedToDriver]>
             (Protocol.custody fd' type (trace p))
      else Protocol.custody fd' type (trace p)).
  { intros fd' type. subst p'. unfold ioctl_after, after; simpl. fold r.
    rewrite custody_snoc; simpl.
    destruct (decide (rc r = 0 ∧ fd' = fd ∧ type = buf_type buf))
      as [(Hrc & -> & ->)|Hno].
    - by rewrite (bool_decide_eq_true_2 _).
    - rewrite (bool_decide_eq_false_2 _); [done|].
      intros (? & ? & ?). apply Hno. split_and!; congruence. }
  split; [exact Hrun|]. split; [by rewrite Hrun; destruct (decide _)|].
  split; [done|]. split; [exact Hring|]. rewrite Hrun.
  unfold Protocol.queue, Protocol.ring_result.
  destruct (decide (rc r = 0)) as [Hrc|Hrc].
  - rewrite Hring, (bool_decide_eq_true_2 _ Hrc).
    destruct (decide _) as [_|Hno]; [|by destruct Hno]. fold ring.
    by destruct (Protocol.state_of ring (buf_index buf)).
  - rewrite (bool_decide_eq_false_2 _ Hrc).
    by destruct (Protocol.state_of ring (buf_index buf)).
Qed.

(** C6, as the code has it.  [v4l2_dqbuf] asks the driver once.  When
    the driver completes a buffer the structure it filled in (index,
    bytes used, flags, timestamp, sequence) is returned and the index
    it names is held by the application from then on, whatever its
    state was: the code checks neither that the index was queued nor
    that it belongs to the pool.  For an index that was queued this is
    the specification's [dequeue].  When the call fails the process
    exits with the dequeue error, no ring has changed and the call is
    not repeated. *)
Theorem v4l2_dqbuf_hands_over p fd buf :
  let r := vidioc_dqbuf dev (kernel p) fd buf in
  let p' := ioctl_after (vidioc_dqbuf dev) VIDIOC_DQBUF p fd buf in
  let ring := Protocol.custody fd (buf_type buf) (trace p) in
  let i := buf_index (out r) in
  v4l2_dqbuf dev fd buf p =
    (if decide (rc r = 0) then Ret (out r) p'
     else Exit (mk_fatal EXIT_FAILURE (errno p')
                  "Can not dequeue %s buffer from %d"
                  [AName (v4l2_type_name (buf_type (out r))); AInt fd]) p')
  ∧ final (v4l2_dqbuf dev fd buf p) = Some p'
  ∧ trace p' = trace p ++
      [E_ioctl fd (VIDIOC_DQBUF buf) (VIDIOC_DQBUF (out r)) (rc r)]
  ∧ (∀ fd' type,
       Protocol.custody fd' type (trace p') =
         if decide (rc r = 0 ∧ fd' = fd ∧ type = buf_type buf)
         then <[i := Protocol.DequeuedByApp]>
                (Protocol.custody fd' type (trace p))
         else Protocol.custody fd' type (trace p))
  ∧ (if decide (rc r = 0)
     then Protocol.failure (v4l2_dqbuf dev fd buf p) = None
          ∧ Protocol.state_of
              (Protocol.custody fd (buf_type buf) (trace p')) i
            = Protocol.DequeuedByApp
          ∧ (Protocol.state_of ring i = Protocol.QueuedToDriver →
             Protocol.ring_result fd (buf_type buf)
               (v4l2_dqbuf dev fd buf p)
             = Protocol.dequeue ring i (rc r))
     else Protocol.failure (v4l2_dqbuf dev fd buf p)
          = Some Protocol.DequeueFailed
          ∧ Protocol.ring_result fd (buf_type buf)
              (v4l2_dqbuf dev fd buf p)
            = Protocol.dequeue ring i (rc r)).
Proof.
  intros r p' ring i.
  assert (Hrun : v4l2_dqbuf dev fd buf p =
    if decide (rc r = 0) then Ret (out r) p'
    else Exit (mk_fatal EXIT_FAILURE (errno p')
                 "Can not dequeue %s buffer from %d"
                 [AName (v4l2_type_name (buf_type (out r))); AInt fd]) p').
  { unfold v4l2_dqbuf. run_monad. fold r p'.
    case_bool_decide; destruct (decide (rc r = 0)); done. }
  assert (Hring : ∀ fd' type,
    Protocol.custody fd' type (trace p') =
      if decide (rc r = 0 ∧ fd' = fd ∧ type = buf_type buf)
      then <[i := Protocol.DequeuedByApp]>
             (Protocol.custody fd' type (trace p))
      else Protocol.custody fd' type (trace p)).
  { intros fd' type. subst p'. unfold ioctl_after, after; simpl. fold r.
    rewrite custody_snoc; simpl.
    destruct (decide (rc r = 0 ∧ fd' = fd ∧ type = buf_type buf))
      as [(Hrc & -> & ->)|Hno].
    - by rewrite (bool_decide_eq_true_2 _).
    - rewrite (bool_decide_eq_false_2 _); [done|].
      intros (? & ? & ?). apply Hno. split_and!; congruence. }
  split; [exact Hrun|]. split; [by rewrite Hrun; destruct (decide _)|].
  split; [done|]. split; [exact Hring|]. rewrite Hrun.
  unfold Protocol.dequeue, Protocol.ring_result, Protocol.failure.
  destruct (decide (rc r = 0)) as [Hrc|Hrc].
  - rewrite Hring, (bool_decide_eq_true_2 _ Hrc).
    destruct (decide _) as [_|Hno]; [|by destruct Hno]. fold ring.
    split; [done|]. split.
    + rewrite state_of_insert. by destruct (decide _).
    + by intros ->.
  - by rewrite (bool_decide_eq_false_2 _ Hrc).
Qed.

(** C7. A device has a stream for each buffer type.  From a stopped
    stream, [v4l2_streamon] makes the one stream-on request for its
    type: when the driver refuses, the process exits with the
    stream-start error and the stream is still stopped; when it
    accepts, the stream is running.  The streams of the other buffer
    types and of other descriptors are as they were, running or not. *)
Theorem v4l2_streamon_start p fd type :
  let r := vidioc_streamon dev (kernel p) fd type in
  let p' := ioctl_after (vidioc_streamon dev) VIDIOC_STREAMON p fd type in
  Protocol.stream fd type (trace p) = Protocol.Stopped →
  v4l2_streamon dev fd type p =
    (if decide (rc r = 0) then Ret () p'
     else Exit (mk_fatal EXIT_FAILURE (errno p') "Failed to start %s stream"
                  [AName (v4l2_type_name type)]) p')
  ∧ final (v4l2_streamon dev fd type p) = Some p'
  ∧ trace p' = trace p ++
      [E_ioctl fd (VIDIOC_STREAMON type) (VIDIOC_STREAMON (out r)) (rc r)]
  ∧ Protocol.stream_result fd type (v4l2_streamon dev fd type p) =
      Some (Protocol.start Protocol.Stopped (rc r))
  ∧ Protocol.stream fd type (trace p') =
      (if decide (rc r = 0) then Protocol.Running else Protocol.Stopped)
  ∧ (∀ fd' type', (fd', type') ≠ (fd, type) →
       Protocol.stream fd' type' (trace p')
       = Protocol.stream fd' type' (trace p)).
Proof.
  intros r p' Hstopped.
  assert (Hrun : v4l2_streamon dev fd type p =
    if decide (rc r = 0) then Ret () p'
    else Exit (mk_fatal EXIT_FAILURE (errno p') "Failed to start %s stream"
                 [AName (v4l2_type_name type)]) p').
  { unfold v4l2_streamon. run_monad.
    fold r p'. case_bool_decide; destruct (decide (rc r = 0)); done. }
  assert (Hstream : Protocol.stream fd type (trace p') =
            if decide (rc r = 0) then Protocol.Running else Protocol.Stopped).
  { subst p'. unfold ioctl_after, after; simpl. fold r.
    rewrite stream_snoc, Hstopped; simpl.
    destruct (decide (rc r = 0)) as [Hrc|Hrc].
    - by rewrite (bool_decide_eq_true_2 _).
    - rewrite (bool_decide_eq_false_2 _); [done|]. tauto. }
  split; [exact Hrun|]. split; [by rewrite Hrun; destruct (decide _)|].
  split; [done|]. split; [|split; [exact Hstream|]].
  - rewrite Hrun. unfold Protocol.start, Protocol.stream_result.
    destruct (decide (rc r = 0)) as [Hrc|Hrc].
    + rewrite Hstream. destruct (decide (rc r = 0)); [|done].
      by rewrite (bool_decide_eq_true_2 _ Hrc).
    + by rewrite (bool_decide_eq_false_2 _ Hrc).
  - intros fd' type' Hother. subst p'. unfold ioctl_after, after; simpl.
    rewrite stream_snoc; simpl.
    rewrite (bool_decide_eq_false_2 _); [done|]. intros (-> & -> & _).
    by apply Hother.
Qed.

End Ring.

(** The process in which the output stream of descriptor 3 runs. *)
Lemma v4l2_streamon_start_witness :
  let p := ioctl_after (vidioc_streamon willing) VIDIOC_STREAMON proc0 3
             V4L2_BUF_TYPE_VIDEO_OUTPUT in
  Protocol.stream 3 V4L2_BUF_TYPE_VIDEO_OUTPUT (trace p) = Protocol.Running
  ∧ Protocol.stream 3 V4L2_BUF_TYPE_VIDEO_CAPTURE (trace p)
    = Protocol.Stopped
  ∧ Protocol.failure (v4l2_streamon refusing 3 V4L2_BUF_TYPE_VIDEO_CAPTURE p)
    = Some Protocol.StreamStartFailed
  ∧ Protocol.stream 3 V4L2_BUF_TYPE_VIDEO_CAPTURE
      (trace (ioctl_after (vidioc_streamon refusing) VIDIOC_STREAMON p 3
                V4L2_BUF_TYPE_VIDEO_CAPTURE))
    = Protocol.Stopped
  ∧ Protocol.stream 3 V4L2_BUF_TYPE_VIDEO_OUTPUT
      (trace (ioctl_after (vidioc_streamon refusing) VIDIOC_STREAMON p 3
                V4L2_BUF_TYPE_VIDEO_CAPTURE))
    = Protocol.Running
  ∧ Protocol.stream 3 V4L2_BUF_TYPE_VIDEO_CAPTURE
      (trace (ioctl_after (vidioc_streamon willing) VIDIOC_STREAMON p 3
                V4L2_BUF_TYPE_VIDEO_CAPTURE))
    = Protocol.Running.
Proof.
  intros p. split; [reflexivity|]. split; [reflexivity|].
  destruct (v4l2_streamon_start refusing p 3 V4L2_BUF_TYPE_VIDEO_CAPTURE
              eq_refl) as (Hrun & _ & _ & _ & Hstopped & Hothers).
  destruct (v4l2_streamon_start willing p 3 V4L2_BUF_TYPE_VIDEO_CAPTURE
              eq_refl) as (_ & _ & _ & _ & Hrunning & _).
  split; [by rewrite Hrun|]. split; [exact Hstopped|].
  split; [|exact Hrunning].
  rewrite (Hothers 3 V4L2_BUF_TYPE_VIDEO_OUTPUT); [reflexivity|].
  discriminate.
Defined.

(** A buffer that was queued and is completed: here [v4l2_dqbuf] is the
    transition of the specification. *)
Lemma v4l2_dqbuf_hands_over_witness :
  let p := ioctl_after (vidioc_qbuf willing) VIDIOC_QBUF proc0 3 buf0 in
  Protocol.state_of
    (Protocol.custody 3 V4L2_BUF_TYPE_VIDEO_CAPTURE (trace p)) 0
  = Protocol.QueuedToDriver
  ∧ Protocol.ring_result 3 V4L2_BUF_TYPE_VIDEO_CAPTURE
      (v4l2_dqbuf willing 3 buf0 p)
    = Protocol.dequeue
        (Protocol.custody 3 V4L2_BUF_TYPE_VIDEO_CAPTURE (trace p)) 0 0.
Proof.
  intros p. split; [reflexivity|].
  destruct (v4l2_dqbuf_hands_over willing p 3 buf0)
    as (_ & _ & _ & _ & Hspec).
  change (rc (vidioc_dqbuf willing (kernel p) 3 buf0)) with 0 in Hspec.
  destruct (decide (0 = 0)) as [_|Hno]; [|by destruct Hno].
  destruct Hspec as (_ & _ & Hspec). apply Hspec. reflexivity.
Defined.

(** C1 as stated fails: the driver here accepts every request, and the
    second [v4l2_qbuf] of an index that is already queued returns like
    the first, where the specification's [queue] answers
    [InvalidState]. *)
Lemma v4l2_qbuf_twice_accepted :
  match v4l2_qbuf willing 3 buf0 proc0 with
  | Ret b p1 =>
      Protocol.state_of (Protocol.custody 3 (buf_type b) (trace p1))
        (buf_index b)
      = Protocol.QueuedToDriver
      ∧ Protocol.queue (Protocol.custody 3 (buf_type b) (trace p1))
          (buf_index b) 0
        = inl Protocol.InvalidState
      ∧ v4l2_qbuf willing 3 b p1
        = Ret b (ioctl_after (vidioc_qbuf willing) VIDIOC_QBUF p1 3 b)
      ∧ Protocol.failure (v4l2_qbuf willing 3 b p1) = None
  | _ => False
  end.
Proof. vm_compute. repeat split. Qed.

(** C6 as stated fails: four buffers are requested and buffer 0 is
    queued, and the driver reports buffer 7 as completed.  The index
    was never queued and is not one of the pool, so the specification's
    [dequeue] has no transition for it; [v4l2_dqbuf] returns it like
    any other and the index passes from [Free] to the application. *)
Lemma v4l2_dqbuf_unqueued_index :
  match (v4l2_buffers_request stray 3 V4L2_BUF_TYPE_VIDEO_CAPTURE 4
           V4L2_MEMORY_MMAP
         ≫= λ _, v4l2_qbuf stray 3 buf0) proc0 with
  | Ret _ p1 =>
      let ring := Protocol.custody 3 V4L2_BUF_TYPE_VIDEO_CAPTURE (trace p1) in
      Protocol.state_of ring 0 = Protocol.QueuedToDriver
      ∧ Protocol.state_of ring 7 = Protocol.Free
      ∧ Protocol.dequeue ring 7 0 = None
      ∧ match v4l2_dqbuf stray 3 buf0 p1 with
        | Ret b p2 =>
            buf_index b = 7
            ∧ Protocol.state_of
                (Protocol.custody 3 V4L2_BUF_TYPE_VIDEO_CAPTURE (trace p2)) 7
              = Protocol.DequeuedByApp
            ∧ Protocol.state_of
                (Protocol.custody 3 V4L2_BUF_TYPE_VIDEO_CAPTURE (trace p2)) 0
              = Protocol.QueuedToDriver
        | _ => False
        end
  | _ => False
  end.
Proof. vm_compute. repeat split. Qed.

(** ** Mapping and exporting the buffers *)

Section Pool.
Context {K : Type} (dev : kernel_ops K).
Implicit Types (p : proc K) (fd type prot i : Z) (bufs : list Z).

(** One iteration of the mapping loop. *)
Lemma buffers_mmap_from_step n fd type prot i bufs p :
  let buf := mk_buffer i type 0 0 0 0 0 0 0 0 0 in
  let r := vidioc_querybuf dev (kernel p) fd buf in
  let p1 := ioctl_after (vidioc_querybuf dev) VIDIOC_QUERYBUF p fd buf in
  let m := sys_mmap dev (kernel p1) (buf_length (out r)) prot MAP_SHARED fd
             (buf_offset (out r)) in
  let p2 := mmap_after dev p1 (buf_length (out r)) prot MAP_SHARED fd
              (buf_offset (out r)) in
  buffers_mmap_from dev (S n) fd type prot i bufs p =
    if decide (rc r ≠ 0) then
      Exit (mk_fatal EXIT_FAILURE (errno p1) "Can not query buffer" []) p1
    else if decide (0 ≤ i < Z.of_nat (length bufs)) then
      if decide (rc m = MAP_FAILED) then
        Exit (mk_fatal EXIT_FAILURE (errno p2) "Can not mmap %s buffer"
                [AName (v4l2_type_name type)]) p2
      else if decide (i < INT_MAX) then
        buffers_mmap_from dev n fd type prot (i + 1)
          (<[Z.to_nat i := rc m]> bufs) p2
      else Undefined
    else Undefined.
Proof.
  intros buf r p1 m p2. simpl.
  run_monad.
  fold buf. fold r. fold p1.
  case_bool_decide; destruct (decide (rc r ≠ 0)); try done; simpl.
  fold m. fold p2.
  case_bool_decide; destruct (decide (0 ≤ i < _)); try done; simpl.
  case_bool_decide; destruct (decide (rc m = MAP_FAILED)); try done; simpl.
  case_bool_decide; destruct (decide (i < INT_MAX)); done.
Qed.

Lemma maps_ioctl_after {A} (call : K → Z → A → reply K A) req p fd (a : A) :
  maps (ioctl_after call req p fd a) = maps p.
Proof. reflexivity. Qed.

Lemma trace_ioctl_after {A} (call : K → Z → A → reply K A) req p fd (a : A) :
  trace (ioctl_after call req p fd a)
  = trace p ++ [E_ioctl fd (req a) (req (out (call (kernel p) fd a)))
                  (rc (call (kernel p) fd a))].
Proof. reflexivity. Qed.

Lemma trace_mmap_after p len prot flags fd off :
  trace (mmap_after dev p len prot flags fd off)
  = trace p ++ [E_mmap len prot flags fd off
                  (rc (sys_mmap dev (kernel p) len prot flags fd off))].
Proof. reflexivity. Qed.

Lemma maps_mmap_after p len prot flags fd off :
  maps (mmap_after dev p len prot flags fd off)
  = if decide (rc (sys_mmap dev (kernel p) len prot flags fd off)
               = MAP_FAILED)
    then maps p
    else maps p ++ [mk_region
                      (rc (sys_mmap dev (kernel p) len prot flags fd off))
                      len prot flags fd off].
Proof.
  unfold mmap_after; simpl.
  destruct (Z.eqb_spec (rc (sys_mmap dev (kernel p) len prot flags fd off))
              MAP_FAILED); by destruct (decide _).
Qed.

(** What a run of the mapping loop from index [i] amounts to.  If it
    returns, every one of the [n] buffers was queried and mapped, in
    index order; if the process exits, the buffers before the failing
    one are mapped and stay so; and the run is defined whenever the
    counter stays an [int] and the array is long enough. *)
Lemma buffers_mmap_from_run n fd type prot : ∀ i bufs p,
  match buffers_mmap_from dev n fd type prot i bufs p with
  | Ret bufs' p' =>
      ∃ qas : list (v4l2_buffer * Z),
        length qas = n
        ∧ bufs' = take (Z.to_nat i) bufs ++ qas.*2
                  ++ drop (Z.to_nat i + n) bufs
        ∧ maps p' = maps p ++ (mmap_region fd prot <$> qas)
        ∧ trace p' = trace p ++ mmap_events fd type prot i qas
        ∧ Forall (mapped_by dev fd prot) qas
  | Exit f p' =>
      status f = EXIT_FAILURE
      ∧ ∃ (qas : list (v4l2_buffer * Z)) tl,
          (length qas < n)%nat
          ∧ maps p' = maps p ++ (mmap_region fd prot <$> qas)
          ∧ trace p' = trace p ++ mmap_events fd type prot i qas ++ tl
          ∧ Forall (mapped_by dev fd prot) qas
          ∧ mmap_stopped fd type prot (i + Z.of_nat (length qas)) f tl
  | Undefined =>
      ¬ (0 ≤ i ∧ i + Z.of_nat n ≤ INT_MAX
         ∧ i + Z.of_nat n ≤ Z.of_nat (length bufs))
  end.
Proof.
  induction n as [|n IH]; intros i bufs p.
  { simpl. exists []. simpl. rewrite !app_nil_r, Nat.add_0_r, take_drop.
    by repeat split. }
  rewrite buffers_mmap_from_step.
  set (buf := mk_buffer i type 0 0 0 0 0 0 0 0 0).
  set (r := vidioc_querybuf dev (kernel p) fd buf).
  set (p1 := ioctl_after (vidioc_querybuf dev) VIDIOC_QUERYBUF p fd buf).
  set (m := sys_mmap dev (kernel p1) (buf_length (out r)) prot MAP_SHARED fd
              (buf_offset (out r))).
  set (p2 := mmap_after dev p1 (buf_length (out r)) prot MAP_SHARED fd
               (buf_offset (out r))).
  assert (Ht1 : trace p1 = trace p ++
            [E_ioctl fd (VIDIOC_QUERYBUF buf) (VIDIOC_QUERYBUF (out r)) (rc r)])
    by reflexivity.
  assert (Hm1 : maps p1 = maps p) by reflexivity.
  assert (Ht2 : trace p2 = trace p1 ++
            [E_mmap (buf_length (out r)) prot MAP_SHARED fd
               (buf_offset (out r)) (rc m)]) by reflexivity.
  assert (Hmk : rc m ≠ MAP_FAILED → mapped_by dev fd prot (out r, rc m)).
  { intros Hok. split; [done|]. by exists (kernel p1). }
  assert (Hm2f : rc m = MAP_FAILED → maps p2 = maps p).
  { intros ?. subst p2. rewrite maps_mmap_after. fold m.
    by destruct (decide _). }
  assert (Hm2s : rc m ≠ MAP_FAILED
                 → maps p2 = maps p ++ [mmap_region fd prot (out r, rc m)]).
  { intros ?. subst p2. rewrite maps_mmap_after. fold m.
    by destruct (decide _). }
  clearbody p2 m p1 r.
  destruct (decide (rc r ≠ 0)) as [Hrc|Hrc].
  { split; [done|]. exists [], [E_ioctl fd (VIDIOC_QUERYBUF buf)
                                  (VIDIOC_QUERYBUF (out r)) (rc r)].
    split_and!.
    - simpl; lia.
    - simpl. by rewrite app_nil_r.
    - by rewrite Ht1.
    - constructor.
    - left. split; [done|]. exists (out r), (rc r).
      simpl. by rewrite Z.add_0_r. }
  assert (rc r = 0) as Hrc0 by (by destruct (decide (rc r = 0))).
  destruct (decide (0 ≤ i < Z.of_nat (length bufs))) as [Hin|Hout]; [|lia].
  destruct (decide (rc m = MAP_FAILED)) as [Hfail|Hok].
  { split; [done|]. exists [], [E_ioctl fd (VIDIOC_QUERYBUF buf)
                                  (VIDIOC_QUERYBUF (out r)) 0;
                                E_mmap (buf_length (out r)) prot MAP_SHARED fd
                                  (buf_offset (out r)) MAP_FAILED].
    split_and!.
    - simpl; lia.
    - simpl. by rewrite app_nil_r, Hm2f.
    - simpl. by rewrite Ht2, Ht1, Hrc0, Hfail, <- app_assoc.
    - constructor.
    - right. split; [done|]. exists (out r).
      simpl. by rewrite Z.add_0_r. }
  destruct (decide (i < INT_MAX)) as [Hmax|Hmax]; [|lia].
  specialize (IH (i + 1) (<[Z.to_nat i := rc m]> bufs) p2).
  destruct (buffers_mmap_from dev n fd type prot (i + 1)
              (<[Z.to_nat i := rc m]> bufs) p2) as [bufs' p'|f p'|].
  - destruct IH as (qas & Hlen & Hbufs & Hmaps & Htrace & Hall).
    exists ((out r, rc m) :: qas). split_and!.
    + simpl. by rewrite Hlen.
    + rewrite Hbufs. replace (Z.to_nat (i + 1)) with (S (Z.to_nat i)) by lia.
      rewrite (take_S_r _ _ (rc m)) by (apply list_lookup_insert_eq; lia).
      rewrite take_insert_ge by lia.
      rewrite drop_insert_lt by lia.
      replace (Z.to_nat i + S n)%nat with (S (Z.to_nat i) + n)%nat by lia.
      by rewrite <- app_assoc.
    + rewrite Hmaps, Hm2s by done. simpl. by rewrite <- app_assoc.
    + rewrite Htrace, Ht2, Ht1, Hrc0. simpl. by rewrite <- !app_assoc.
    + constructor; [by apply Hmk|done].
  - destruct IH as (Hst & qas & tl & Hlen & Hmaps & Htrace & Hall & Hstop).
    split; [done|]. exists ((out r, rc m) :: qas), tl. split_and!.
    + simpl. lia.
    + rewrite Hmaps, Hm2s by done. simpl. by rewrite <- app_assoc.
    + rewrite Htrace, Ht2, Ht1, Hrc0. simpl. by rewrite <- !app_assoc.
    + constructor; [by apply Hmk|done].
    + replace (i + Z.of_nat (length ((out r, rc m) :: qas)))
        with (i + 1 + Z.of_nat (length qas)) by (simpl; lia).
      done.
  - rewrite length_insert in IH. lia.
Qed.

(** One iteration of the export loop. *)
Lemma buffers_export_from_step n fd type i bufs p :
  let ebuf := mk_exportbuffer type i 0 0 0 in
  let r := vidioc_expbuf dev (kernel p) fd ebuf in
  let p1 := ioctl_after (vidioc_expbuf dev) VIDIOC_EXPBUF p fd ebuf in
  buffers_export_from dev (S n) fd type i bufs p =
    if decide (rc r ≠ 0) then
      Exit (mk_fatal EXIT_FAILURE (errno p1) "Can not export %s buffer"
              [AName (v4l2_type_name type)]) p1
    else if decide (0 ≤ i < Z.of_nat (length bufs)) then
      if decide (i < INT_MAX) then
        buffers_export_from dev n fd type (i + 1)
          (<[Z.to_nat i := exp_fd (out r)]> bufs) p1
      else Undefined
    else Undefined.
Proof.
  intros ebuf r p1. simpl.
  run_monad.
  fold ebuf. fold r. fold p1.
  case_bool_decide; destruct (decide (rc r ≠ 0)); try done; simpl.
  case_bool_decide; destruct (decide (0 ≤ i < _)); try done; simpl.
  case_bool_decide; destruct (decide (i < INT_MAX)); done.
Qed.

(** What a run of the export loop from index [i] amounts to. *)
Lemma buffers_export_from_run n fd type : ∀ i bufs p,
  match buffers_export_from dev n fd type i bufs p with
  | Ret bufs' p' =>
      ∃ es : list v4l2_exportbuffer,
        length es = n
        ∧ bufs' = take (Z.to_nat i) bufs ++ (exp_fd <$> es)
                  ++ drop (Z.to_nat i + n) bufs
        ∧ maps p' = maps p
        ∧ trace p' = trace p ++ export_events fd type i es
  | Exit f p' =>
      status f = EXIT_FAILURE
      ∧ format f = "Can not export %s buffer"
      ∧ ∃ (es : list v4l2_exportbuffer) e ret,
          (length es < n)%nat ∧ ret ≠ 0
          ∧ maps p' = maps p
          ∧ trace p' = trace p ++ export_events fd type i es
              ++ [E_ioctl fd
                    (VIDIOC_EXPBUF
                       (mk_exportbuffer type (i + Z.of_nat (length es)) 0 0 0))
                    (VIDIOC_EXPBUF e) ret]
  | Undefined =>
      ¬ (0 ≤ i ∧ i + Z.of_nat n ≤ INT_MAX
         ∧ i + Z.of_nat n ≤ Z.of_nat (length bufs))
  end.
Proof.
  induction n as [|n IH]; intros i bufs p.
  { simpl. exists []. simpl. rewrite app_nil_r, Nat.add_0_r, take_drop.
    by repeat split. }
  rewrite buffers_export_from_step.
  set (ebuf := mk_exportbuffer type i 0 0 0).
  set (r := vidioc_expbuf dev (kernel p) fd ebuf).
  set (p1 := ioctl_after (vidioc_expbuf dev) VIDIOC_EXPBUF p fd ebuf).
  assert (Ht1 : trace p1 = trace p ++
            [E_ioctl fd (VIDIOC_EXPBUF ebuf) (VIDIOC_EXPBUF (out r)) (rc r)])
    by reflexivity.
  assert (Hm1 : maps p1 = maps p) by reflexivity.
  clearbody p1 r.
  destruct (decide (rc r ≠ 0)) as [Hrc|Hrc].
  { split; [done|]. split; [done|]. exists [], (out r), (rc r). split_and!.
    - simpl; lia.
    - done.
    - done.
    - simpl. by rewrite Z.add_0_r. }
  assert (rc r = 0) as Hrc0 by (by destruct (decide (rc r = 0))).
  destruct (decide (0 ≤ i < Z.of_nat (length bufs))) as [Hin|Hout]; [|lia].
  destruct (decide (i < INT_MAX)) as [Hmax|Hmax]; [|lia].
  specialize (IH (i + 1) (<[Z.to_nat i := exp_fd (out r)]> bufs) p1).
  destruct (buffers_export_from dev n fd type (i + 1)
              (<[Z.to_nat i := exp_fd (out r)]> bufs) p1) as [bufs' p'|f p'|].
  - destruct IH as (es & Hlen & Hbufs & Hmaps & Htrace).
    exists (out r :: es). split_and!.
    + simpl. by rewrite Hlen.
    + rewrite Hbufs. replace (Z.to_nat (i + 1)) with (S (Z.to_nat i)) by lia.
      rewrite (take_S_r _ _ (exp_fd (out r)))
        by (apply list_lookup_insert_eq; lia).
      rewrite take_insert_ge by lia.
      rewrite drop_insert_lt by lia.
      replace (Z.to_nat i + S n)%nat with (S (Z.to_nat i) + n)%nat by lia.
      by rewrite <- app_assoc.
    + by rewrite Hmaps.
    + rewrite Htrace, Ht1, Hrc0. simpl. by rewrite <- !app_assoc.
  - destruct IH as (Hst & Hfmt & es & e & ret & Hlen & Hret & Hmaps & Htrace).
    split; [done|]. split; [done|]. exists (out r :: es), e, ret. split_and!.
    + simpl. lia.
    + done.
    + by rewrite Hmaps.
    + rewrite Htrace, Ht1, Hrc0. simpl. rewrite <- !app_assoc. simpl.
      replace (i + Z.of_nat (S (length es)))
        with (i + 1 + Z.of_nat (length es)) by lia.
      done.
  - rewrite length_insert in IH. lia.
Qed.

(** The history of a successful construction has no failed call. *)
Lemma mmap_events_quiet fd type prot (qas : list (v4l2_buffer * Z)) : ∀ i,
  Forall (mapped_by dev fd prot) qas →
  Forall (λ e, io_failed e = false) (mmap_events fd type prot i qas).
Proof.
  induction qas as [|[q a] qas IH]; intros i Hall; [constructor|].
  inversion Hall as [|? ? [Hok _] Hrest]; subst. simpl in Hok. simpl.
  constructor; [done|]. constructor; [|by apply IH].
  simpl. by destruct (Z.eqb_spec a MAP_FAILED).
Qed.

Lemma export_events_quiet fd type (es : list v4l2_exportbuffer) : ∀ i,
  Forall (λ e, io_failed e = false) (export_events fd type i es).
Proof.
  induction es as [|e es IH]; intros i; [constructor|].
  simpl. constructor; [done|apply IH].
Qed.

End Pool.

Section PoolClaims.
Context {K : Type} (dev : kernel_ops K).
Implicit Types (p : proc K) (fd type prot num : Z) (bufs : list Z).

Lemma mmap_stopped_last fd type prot i f tl :
  mmap_stopped fd type prot i f tl →
  ∃ e, last tl = Some e ∧ io_failed e = true.
Proof.
  intros [[_ (q & ret & Hret & ->)]|[_ (q & ->)]]; eexists; (split; [done|]).
  - simpl. by destruct (Z.eqb_spec ret 0).
  - done.
Qed.

Lemma last_app_some {A} (l1 l2 : list A) (x : A) :
  last l2 = Some x → last (l1 ++ l2) = Some x.
Proof. intros H. rewrite last_app. by rewrite H. Qed.

(** C3, as the code has it.  When a mapping fails during the call, the
    process exits with failure status and the map-failed error, so the
    call does not return and no partial pool reaches the caller; but
    nothing is unmapped: the buffers before the failing one are all
    still mapped at that point, after the regions that were mapped
    before the call, and the failed [mmap] is the last call made. *)
Theorem v4l2_buffers_mmap_failure_exits p fd type num bufs prot pf
    len prot' flags fd' off :
  final (v4l2_buffers_mmap dev fd type num bufs prot p) = Some pf →
  E_mmap len prot' flags fd' off MAP_FAILED
    ∈ drop (length (trace p)) (trace pf) →
  ∃ f, v4l2_buffers_mmap dev fd type num bufs prot p = Exit f pf
       ∧ status f = EXIT_FAILURE
       ∧ Protocol.classify f = Some Protocol.MapFailed
       ∧ ∃ (qas : list (v4l2_buffer * Z)) q,
           (length qas < Z.to_nat num)%nat
           ∧ Forall (mapped_by dev fd prot) qas
           ∧ maps pf = maps p ++ (mmap_region fd prot <$> qas)
           ∧ trace pf = trace p ++ mmap_events fd type prot 0 qas
               ++ [E_ioctl fd
                     (VIDIOC_QUERYBUF
                        (mk_buffer (Z.of_nat (length qas)) type
                           0 0 0 0 0 0 0 0 0))
                     (VIDIOC_QUERYBUF q) 0;
                   E_mmap (buf_length q) prot MAP_SHARED fd (buf_offset q)
                     MAP_FAILED].
Proof.
  intros Hfinal Hin. unfold v4l2_buffers_mmap in *.
  pose proof (buffers_mmap_from_run dev (Z.to_nat num) fd type prot 0 bufs p)
    as Hspec.
  destruct (buffers_mmap_from dev (Z.to_nat num) fd type prot 0 bufs p)
    as [bufs' p'|f p'|]; simpl in Hfinal; [| |done];
    injection Hfinal as ->.
  - destruct Hspec as (qas & _ & _ & _ & Htrace & Hall). exfalso.
    rewrite Htrace, drop_app_length in Hin.
    pose proof (mmap_events_quiet dev fd type prot qas 0 Hall) as Hquiet.
    rewrite Forall_forall in Hquiet. by specialize (Hquiet _ Hin).
  - destruct Hspec as (Hst & qas & tl & Hlen & Hmaps & Htrace & Hall & Hstop).
    rewrite Htrace, drop_app_length in Hin.
    pose proof (mmap_events_quiet dev fd type prot qas 0 Hall) as Hquiet.
    rewrite Forall_forall in Hquiet.
    apply elem_of_app in Hin as [Hin|Hin];
      [by specialize (Hquiet _ Hin)|].
    destruct Hstop as [[_ (q & ret & _ & ->)]|[Hfmt (q & ->)]].
    { apply list_elem_of_singleton in Hin. discriminate Hin. }
    exists f. split; [done|]. split; [done|]. split.
    { unfold Protocol.classify. by rewrite Hfmt. }
    exists qas, q. by rewrite Z.add_0_l in Htrace.
Qed.

(** C5, as the code has it.  For a count from 1 to [INT_MAX] that the
    driver granted exactly and an array with room for it, the run of
    either loop is defined; unless a call fails (then the process
    exits), it fills the entries 0 to [num - 1], one per index and in
    index order, and leaves the rest of the array alone.  A mapped entry is the mapping of the length and offset the
    driver reported for its index, and its length is not zero when
    [mmap] refuses an empty region; an exported entry is the descriptor
    the driver exported for its index, with no length attached. *)
Theorem v4l2_buffers_pool_entries p0 p fd type num memory n bufs prot :
  1 ≤ num ≤ INT_MAX →
  num ≤ Z.of_nat (length bufs) →
  (∀ k prot' flags fd' off,
     rc (sys_mmap dev k 0 prot' flags fd' off) = MAP_FAILED) →
  v4l2_buffers_request dev fd type num memory p0 = Ret n p →
  n = num
  ∧ match v4l2_buffers_mmap dev fd type n bufs prot p with
  | Ret bufs' p' =>
      ∃ qas : list (v4l2_buffer * Z),
        Z.of_nat (length qas) = num
        ∧ bufs' = qas.*2 ++ drop (Z.to_nat num) bufs
        ∧ maps p' = maps p ++ (mmap_region fd prot <$> qas)
        ∧ trace p' = trace p ++ mmap_events fd type prot 0 qas
        ∧ Forall (λ qa, mapped_by dev fd prot qa ∧ buf_length qa.1 ≠ 0) qas
  | Exit f p' =>
      status f = EXIT_FAILURE ∧ ∃ e, last (trace p') = Some e
                                     ∧ io_failed e = true
  | Undefined => False
  end
  ∧ match v4l2_buffers_export dev fd type n bufs p with
    | Ret bufs' p' =>
        ∃ es : list v4l2_exportbuffer,
          Z.of_nat (length es) = num
          ∧ bufs' = (exp_fd <$> es) ++ drop (Z.to_nat num) bufs
          ∧ maps p' = maps p
          ∧ trace p' = trace p ++ export_events fd type 0 es
    | Exit f p' =>
        status f = EXIT_FAILURE ∧ ∃ e, last (trace p') = Some e
                                       ∧ io_failed e = true
    | Undefined => False
    end.
Proof.
  intros Hnum Hlen Hposix Hreq.
  destruct (v4l2_buffers_request_ret dev _ _ _ _ _ _ _ Hreq) as (-> & _).
  split; [done|]. split.
  - unfold v4l2_buffers_mmap.
    pose proof (buffers_mmap_from_run dev (Z.to_nat num) fd type prot 0 bufs p)
      as Hspec.
    destruct (buffers_mmap_from dev (Z.to_nat num) fd type prot 0 bufs p)
      as [bufs' p'|f p'|].
    + destruct Hspec as (qas & Hn & Hbufs & Hmaps & Htrace & Hall).
      exists qas. split_and!; try done; [lia|].
      apply Forall_impl with (1 := Hall). intros [q a] Hqa.
      split; [done|]. intros Hz. destruct Hqa as [Hok (k & Ha)].
      simpl in *. rewrite Hz in Ha. rewrite Hposix in Ha. done.
    + destruct Hspec as (Hst & qas & tl & _ & _ & Htrace & _ & Hstop).
      split; [done|].
      destruct (mmap_stopped_last _ _ _ _ _ _ Hstop) as (e & Hlast & Hfail).
      exists e. split; [|done].
      rewrite Htrace, app_assoc. by apply last_app_some.
    + apply Hspec. lia.
  - unfold v4l2_buffers_export.
    pose proof (buffers_export_from_run dev (Z.to_nat num) fd type 0 bufs p)
      as Hspec.
    destruct (buffers_export_from dev (Z.to_nat num) fd type 0 bufs p)
      as [bufs' p'|f p'|].
    + destruct Hspec as (es & Hn & Hbufs & Hmaps & Htrace).
      exists es. split_and!; try done. lia.
    + destruct Hspec as (Hst & _ & es & e & ret & _ & Hret & _ & Htrace).
      split; [done|]. eexists. split.
      * rewrite Htrace, app_assoc. by apply last_app_some.
      * simpl. by destruct (Z.eqb_spec ret 0).
    + apply Hspec. lia.
Qed.

End PoolClaims.

Lemma v4l2_buffers_mmap_failure_exits_witness :
  ∃ f pf,
    v4l2_buffers_mmap one_mapping 3 V4L2_BUF_TYPE_VIDEO_CAPTURE 2 [0; 0] 3
      proc0 = Exit f pf
    ∧ status f = EXIT_FAILURE
    ∧ Protocol.classify f = Some Protocol.MapFailed
    ∧ ∃ qas : list (v4l2_buffer * Z),
        (length qas < Z.to_nat 2)%nat
        ∧ maps pf = maps proc0 ++ (mmap_region 3 3 <$> qas).
Proof.
  edestruct (v4l2_buffers_mmap_failure_exits one_mapping proc0 3
               V4L2_BUF_TYPE_VIDEO_CAPTURE 2 [0; 0] 3)
    as (f & Hrun & Hst & Hkind & qas & q & Hlen & _ & Hmaps & _).
  - vm_compute. reflexivity.
  - vm_compute. do 3 apply list_elem_of_further. apply list_elem_of_here.
  - exists f. eexists. split; [exact Hrun|]. split; [exact Hst|].
    split; [exact Hkind|]. exists qas. split; [exact Hlen | exact Hmaps].
Defined.

(** C3 as stated fails: the device maps buffer 0 and has no room for
    buffer 1; the process exits with the map-failed error while the
    mapping of buffer 0 is still in place. *)
Lemma v4l2_buffers_mmap_no_unwinding :
  match v4l2_buffers_mmap one_mapping 3 V4L2_BUF_TYPE_VIDEO_CAPTURE 2 [0; 0]
          3 proc0 with
  | Exit f p' =>
      Protocol.classify f = Some Protocol.MapFailed
      ∧ maps proc0 = []
      ∧ maps p' = [mk_region 65536 4096 3 MAP_SHARED 3 0]
  | _ => False
  end.
Proof. vm_compute. repeat split. Qed.

Lemma v4l2_buffers_pool_entries_witness :
  let p := ioctl_after (vidioc_reqbufs willing) VIDIOC_REQBUFS proc0 3
             (mk_requestbuffers 2 V4L2_BUF_TYPE_VIDEO_CAPTURE
                V4L2_MEMORY_MMAP) in
  v4l2_buffers_request willing 3 V4L2_BUF_TYPE_VIDEO_CAPTURE 2
    V4L2_MEMORY_MMAP proc0 = Ret 2 p
  ∧ match v4l2_buffers_mmap willing 3 V4L2_BUF_TYPE_VIDEO_CAPTURE 2
            [0; 0; 7] 3 p with
    | Ret bufs' p' =>
        ∃ qas : list (v4l2_buffer * Z),
          Z.of_nat (length qas) = 2
          ∧ bufs' = qas.*2 ++ drop (Z.to_nat 2) [0; 0; 7]
          ∧ maps p' = maps p ++ (mmap_region 3 3 <$> qas)
          ∧ trace p' = trace p
              ++ mmap_events 3 V4L2_BUF_TYPE_VIDEO_CAPTURE 3 0 qas
          ∧ Forall (λ qa, mapped_by willing 3 3 qa ∧ buf_length qa.1 ≠ 0) qas
    | Exit f p' =>
        status f = EXIT_FAILURE ∧ ∃ e, last (trace p') = Some e
                                       ∧ io_failed e = true
    | Undefined => False
    end.
Proof.
  intros p. split; [vm_compute; reflexivity|].
  apply (v4l2_buffers_pool_entries willing proc0 p 3
           V4L2_BUF_TYPE_VIDEO_CAPTURE 2 V4L2_MEMORY_MMAP 2 [0; 0; 7] 3).
  - vm_compute. split; discriminate.
  - vm_compute. discriminate.
  - intros. reflexivity.
  - vm_compute. reflexivity.
Defined.

(** On the willing device both constructions return, with the two
    entries filled and the third left alone. *)
Lemma pool_of_two_is_built :
  (∃ p', v4l2_buffers_mmap willing 3 V4L2_BUF_TYPE_VIDEO_CAPTURE 2 [0; 0; 7]
           3 proc0 = Ret [65536; 69632; 7] p')
  ∧ (∃ p', v4l2_buffers_export willing 3 V4L2_BUF_TYPE_VIDEO_CAPTURE 2
             [0; 0; 7] proc0 = Ret [10; 11; 7] p').
Proof. split; eexists; vm_compute; reflexivity. Qed.

(** C5 as stated fails on the length: the device grants the one buffer
    requested and exports it, and the code returns the descriptor
    without ever asking for the buffer's length, which is zero. *)
Lemma v4l2_buffers_export_zero_length :
  match v4l2_buffers_request hollow 3 V4L2_BUF_TYPE_VIDEO_CAPTURE 1
          V4L2_MEMORY_MMAP proc0 with
  | Ret n p1 =>
      n = 1
      ∧ match v4l2_buffers_export hollow 3 V4L2_BUF_TYPE_VIDEO_CAPTURE n [0]
                p1 with
        | Ret bufs' p2 =>
            bufs' = [10]
            ∧ buf_length
                (out (vidioc_querybuf hollow (kernel p2) 3
                        (mk_buffer 0 V4L2_BUF_TYPE_VIDEO_CAPTURE
                           0 0 0 0 0 0 0 0 0))) = 0
        | _ => False
        end
  | _ => False
  end.
Proof. vm_compute. repeat split. Qed.

(** ** Failed calls are fatal, except in [v4l2_framerate_get] *)

Section Fatal.
Context {K : Type} (dev : kernel_ops K).

Lemma fatal_ret {A} (a : A) : io_failure_fatal (mret a : M K A).
Proof. intros p. exists []. by rewrite app_nil_r. Qed.

Lemma fatal_bind {A B} (m : M K A) (k : A → M K B) :
  io_failure_fatal m → (∀ a, io_failure_fatal (k a)) →
  io_failure_fatal (m ≫= k).
Proof.
  intros Hm Hk p. specialize (Hm p). unfold mbind, M_bind.
  destruct (m p) as [a p1|f p1|]; [|done|done].
  destruct Hm as (t1 & Ht1 & Hq1). specialize (Hk a p1).
  destruct (k a p1) as [b p2|f p2|]; [|done|done].
  destruct Hk as (t2 & Ht2 & Hq2). exists (t1 ++ t2).
  split; [by rewrite Ht2, Ht1, app_assoc | by apply Forall_app].
Qed.

Lemma never_returns_fatal {A} (m : M K A) :
  never_returns m → io_failure_fatal m.
Proof. intros Hm p. specialize (Hm p). by destruct (m p). Qed.

Lemma never_returns_bind {A B} (m : M K A) (k : A → M K B) :
  never_returns m → never_returns (m ≫= k).
Proof.
  intros Hm p. specialize (Hm p). unfold mbind, M_bind. by destruct (m p).
Qed.

Lemma never_returns_error en fmt args :
  never_returns (error (K := K) EXIT_FAILURE en fmt args).
Proof. by intros p. Qed.

Lemma fatal_when (b : bool) (m : M K unit) :
  io_failure_fatal m → io_failure_fatal (when b m).
Proof. destruct b; [done|]. intros _. apply fatal_ret. Qed.

Lemma fatal_store bufs i v : io_failure_fatal (store (K := K) bufs i v).
Proof.
  intros p. unfold store. case_bool_decide; [|done].
  exists []. by rewrite app_nil_r.
Qed.

(** A call followed by its check: the continuation ends the process
    when the call failed. *)
Lemma fatal_call {A B} (m : M K A) (failed : A → bool) (k : A → M K B) :
  one_call m failed →
  (∀ a, failed a = false → io_failure_fatal (k a)) →
  (∀ a, failed a = true → never_returns (k a)) →
  io_failure_fatal (m ≫= k).
Proof.
  intros Hm Hok Hbad p. specialize (Hm p). unfold mbind, M_bind.
  destruct (m p) as [a p1|f p1|]; [|done|done].
  destruct Hm as (e & Ht1 & He).
  destruct (failed a) eqn:Hfa.
  - specialize (Hbad a Hfa p1). by destruct (k a p1).
  - specialize (Hok a Hfa p1). destruct (k a p1) as [b p2|f p2|]; [|done|done].
    destruct Hok as (t2 & Ht2 & Hq2). exists (e :: t2).
    split; [by rewrite Ht2, Ht1, <- app_assoc|].
    constructor; [by rewrite He|done].
Qed.

Lemma one_call_open path flags :
  one_call (open dev path flags) (λ fd, fd <? 0).
Proof. intros p. by eexists. Qed.

Lemma one_call_fstat fd :
  one_call (fstat dev fd) (λ x, x.1 =? -1).
Proof. intros p. by eexists. Qed.

Lemma one_call_ioctl {A} (call : K → Z → A → reply K A) req fd (a : A) :
  one_call (ioctl call req fd a) (λ x, bool_decide (x.1 ≠ 0)).
Proof.
  intros p. eexists. split; [reflexivity|]. simpl.
  case_bool_decide as H; destruct (Z.eqb_spec (rc (call (kernel p) fd a)) 0);
    done.
Qed.

(** A request followed by the test of its return value. *)
Lemma fatal_checked_ioctl {A B} (call : K → Z → A → reply K A) req fd (a : A)
    (k : Z * A → M K B) :
  (∀ ret y, ret ≠ 0 → never_returns (k (ret, y))) →
  (∀ y, io_failure_fatal (k (0, y))) →
  io_failure_fatal (ioctl call req fd a ≫= k).
Proof.
  intros Hbad Hok. eapply fatal_call; [apply one_call_ioctl| |];
    intros [ret y] Hf; simpl in Hf.
  - apply bool_decide_eq_false in Hf.
    destruct (decide (ret = 0)) as [->|]; [apply Hok|done].
  - apply bool_decide_eq_true in Hf. by apply Hbad.
Qed.

(** A test that ends the process or is passed over. *)
Lemma fatal_guard {B} (b : bool) en fmt args (k : unit → M K B) :
  io_failure_fatal (k ()) →
  io_failure_fatal (when b (error EXIT_FAILURE en fmt args) ≫= k).
Proof.
  intros Hk. apply fatal_bind; [|by intros []].
  apply fatal_when, never_returns_fatal, never_returns_error.
Qed.

Lemma never_returns_guard {B} (P : Prop) `{!Decision P} en fmt args
    (k : unit → M K B) :
  P → never_returns (when (bool_decide P) (error EXIT_FAILURE en fmt args) ≫= k).
Proof.
  intros HP. rewrite (bool_decide_eq_true_2 _ HP).
  apply never_returns_bind, never_returns_error.
Qed.

Lemma fatal_v4l2_open device positive negative card :
  io_failure_fatal (v4l2_open dev device positive negative card).
Proof.
  unfold v4l2_open.
  eapply fatal_call; [apply one_call_open| |]; intros fd Hfd; simpl in Hfd;
    rewrite Hfd; [|apply never_returns_bind, never_returns_error].
  apply fatal_guard.
  eapply fatal_call; [apply one_call_fstat| |]; intros [r st] Hr;
    simpl in Hr; simpl; rewrite Hr;
    [|apply never_returns_bind, never_returns_error].
  apply fatal_guard.
  apply fatal_checked_ioctl.
  - intros ret cap Hret. by apply never_returns_guard.
  - intros cap. do 3 apply fatal_guard. apply fatal_ret.
Qed.

Lemma fatal_v4l2_configure fd type pixelformat width height :
  io_failure_fatal (v4l2_configure dev fd type pixelformat width height).
Proof.
  unfold v4l2_configure. apply fatal_checked_ioctl.
  - intros ret fmt Hret. by apply never_returns_guard.
  - intros fmt. do 2 apply fatal_guard.
    apply fatal_when, never_returns_fatal, never_returns_error.
Qed.

Lemma fatal_framerate_commit fd type framerate parm :
  io_failure_fatal (framerate_commit dev fd type framerate parm).
Proof.
  unfold framerate_commit. apply fatal_checked_ioctl.
  - intros ret parm' Hret. by apply never_returns_guard.
  - intros parm'. apply fatal_guard.
    apply fatal_when, never_returns_fatal, never_returns_error.
Qed.

Lemma fatal_v4l2_framerate_configure fd type framerate :
  io_failure_fatal (v4l2_framerate_configure dev fd type framerate).
Proof.
  unfold v4l2_framerate_configure. apply fatal_checked_ioctl.
  - intros ret parm Hret. by apply never_returns_guard.
  - intros parm. apply fatal_guard.
    destruct (bool_decide (type = V4L2_BUF_TYPE_VIDEO_CAPTURE)).
    { destruct (Z.land (parm_capability parm) V4L2_CAP_TIMEPERFRAME =? 0);
        [apply fatal_ret|apply fatal_framerate_commit]. }
    destruct (bool_decide (type = V4L2_BUF_TYPE_VIDEO_OUTPUT)).
    { destruct (Z.land (parm_capability parm) V4L2_CAP_TIMEPERFRAME =? 0);
        [apply fatal_ret|apply fatal_framerate_commit]. }
    apply fatal_framerate_commit.
Qed.

Lemma fatal_v4l2_buffers_request fd type num memory :
  io_failure_fatal (v4l2_buffers_request dev fd type num memory).
Proof.
  unfold v4l2_buffers_request. apply fatal_checked_ioctl.
  - intros ret reqbuf Hret. by apply never_returns_guard.
  - intros reqbuf. do 3 apply fatal_guard. apply fatal_ret.
Qed.

Lemma fatal_v4l2_dqbuf fd buf : io_failure_fatal (v4l2_dqbuf dev fd buf).
Proof.
  unfold v4l2_dqbuf. apply fatal_checked_ioctl.
  - intros ret buf' Hret. by apply never_returns_guard.
  - intros buf'. apply fatal_guard, fatal_ret.
Qed.

Lemma fatal_v4l2_qbuf fd buf : io_failure_fatal (v4l2_qbuf dev fd buf).
Proof.
  unfold v4l2_qbuf. apply fatal_checked_ioctl.
  - intros ret buf' Hret. by apply never_returns_guard.
  - intros buf'. apply fatal_guard, fatal_ret.
Qed.

Lemma fatal_v4l2_streamon fd type : io_failure_fatal (v4l2_streamon dev fd type).
Proof.
  unfold v4l2_streamon. apply fatal_checked_ioctl.
  - intros ret type' Hret. simpl. rewrite (bool_decide_eq_true_2 _ Hret).
    apply never_returns_error.
  - intros type'.
    apply fatal_when, never_returns_fatal, never_returns_error.
Qed.

End Fatal.

Section FatalLoops.
Context {K : Type} (dev : kernel_ops K).

Lemma fatal_v4l2_buffers_mmap fd type num bufs prot :
  io_failure_fatal (v4l2_buffers_mmap dev fd type num bufs prot).
Proof.
  intros p. unfold v4l2_buffers_mmap.
  pose proof (buffers_mmap_from_run dev (Z.to_nat num) fd type prot 0 bufs p)
    as Hspec.
  destruct (buffers_mmap_from dev (Z.to_nat num) fd type prot 0 bufs p)
    as [bufs' p'|f p'|]; [|by destruct Hspec|done].
  destruct Hspec as (qas & _ & _ & _ & Htrace & Hall).
  eexists. split; [exact Htrace|]. by apply (mmap_events_quiet dev).
Qed.

Lemma fatal_v4l2_buffers_export fd type num bufs :
  io_failure_fatal (v4l2_buffers_export dev fd type num bufs).
Proof.
  intros p. unfold v4l2_buffers_export.
  pose proof (buffers_export_from_run dev (Z.to_nat num) fd type 0 bufs p)
    as Hspec.
  destruct (buffers_export_from dev (Z.to_nat num) fd type 0 bufs p)
    as [bufs' p'|f p'|]; [|by destruct Hspec|done].
  destruct Hspec as (es & _ & _ & _ & Htrace).
  eexists. split; [exact Htrace|]. apply export_events_quiet.
Qed.

Lemma v4l2_framerate_get_eq p fd type :
  let parm := mk_streamparm type 0 0 0 0 0 0 in
  let r := vidioc_g_parm dev (kernel p) fd parm in
  v4l2_framerate_get dev fd type p =
    Ret (if decide (rc r ≠ 0) then NAN
         else float_div (float_of_u32 (parm_denominator (out r)))
                        (float_of_u32 (parm_numerator (out r))))
        (ioctl_after (vidioc_g_parm dev) VIDIOC_G_PARM p fd parm).
Proof.
  intros parm r.
  unfold v4l2_framerate_get. run_monad. fold parm. fold r.
  by case_bool_decide; destruct (decide (rc r ≠ 0)).
Qed.

End FatalLoops.

(** At thirty frames a second the quotient is the [float] 30, for an
    output stream as for a capture stream. *)
Example v4l2_framerate_get_thirty :
  (∃ p', v4l2_framerate_get willing 3 V4L2_BUF_TYPE_VIDEO_OUTPUT proc0
         = Ret (float_of_u32 30) p')
  ∧ (∃ p', v4l2_framerate_get willing 3 V4L2_BUF_TYPE_VIDEO_CAPTURE proc0
           = Ret (float_of_u32 30) p').
Proof. split; eexists; vm_compute; reflexivity. Qed.

(** C9. [v4l2_framerate_get] always returns: [NAN] when the query of
    the streaming parameters fails, and otherwise the quotient, in
    [float], of the denominator by the numerator of the time per frame
    that the driver stored, whatever the buffer type.  A failed call is
    thus not fatal there, as the refusing device shows; in every other
    operation of the module that makes system calls it is. *)
Theorem v4l2_framerate_get_only_nonfatal :
  (∀ K (dev : kernel_ops K) (p : proc K) fd type,
     let parm := mk_streamparm type 0 0 0 0 0 0 in
     let r := vidioc_g_parm dev (kernel p) fd parm in
     v4l2_framerate_get dev fd type p =
       Ret (if decide (rc r ≠ 0) then NAN
            else float_div (float_of_u32 (parm_denominator (out r)))
                           (float_of_u32 (parm_numerator (out r))))
           (ioctl_after (vidioc_g_parm dev) VIDIOC_G_PARM p fd parm))
  ∧ ¬ io_failure_fatal
        (v4l2_framerate_get refusing 3 V4L2_BUF_TYPE_VIDEO_CAPTURE)
  ∧ (∀ K (dev : kernel_ops K),
       (∀ device positive negative card,
          io_failure_fatal (v4l2_open dev device positive negative card))
       ∧ (∀ fd type pixelformat width height,
            io_failure_fatal
              (v4l2_configure dev fd type pixelformat width height))
       ∧ (∀ fd type framerate,
            io_failure_fatal (v4l2_framerate_configure dev fd type framerate))
       ∧ (∀ fd type num memory,
            io_failure_fatal (v4l2_buffers_request dev fd type num memory))
       ∧ (∀ fd type num bufs prot,
            io_failure_fatal (v4l2_buffers_mmap dev fd type num bufs prot))
       ∧ (∀ fd type num bufs,
            io_failure_fatal (v4l2_buffers_export dev fd type num bufs))
       ∧ (∀ fd buf, io_failure_fatal (v4l2_dqbuf dev fd buf))
       ∧ (∀ fd buf, io_failure_fatal (v4l2_qbuf dev fd buf))
       ∧ (∀ fd type, io_failure_fatal (v4l2_streamon dev fd type))).
Proof.
  split; [intros; apply v4l2_framerate_get_eq|]. split.
  - intros Hfatal. specialize (Hfatal proc0). vm_compute in Hfatal.
    destruct Hfatal as (t & Ht & Hq).
    subst t. inversion Hq as [|? ? He _]. discriminate He.
  - intros K dev. split_and!; intros.
    + apply fatal_v4l2_open.
    + apply fatal_v4l2_configure.
    + apply fatal_v4l2_framerate_configure.
    + apply fatal_v4l2_buffers_request.
    + apply fatal_v4l2_buffers_mmap.
    + apply fatal_v4l2_buffers_export.
    + apply fatal_v4l2_dqbuf.
    + apply fatal_v4l2_qbuf.
    + apply fatal_v4l2_streamon.
Qed.

(** * Further properties of the module *)

(** ** Names *)

(** The macro [v4l2_name] on any table shorter than [2 ^ 31] entries
    and any value of an [int] or an [unsigned]: an index of the table
    gives the element there, everything else, negative values included,
    gives the literal. *)
Theorem v4l2_name_lookup (a : Z) (arr : list cstring) :
  - 2 ^ 31 ≤ a < 2 ^ 32 → ARRAY_SIZE arr < 2 ^ 31 →
  v4l2_name a arr =
    if decide (0 ≤ a < ARRAY_SIZE arr) then arr !! Z.to_nat a
    else Some (Some "unknown").
Proof.
  intros Ha Hsz. unfold v4l2_name.
  destruct (Z.ltb_spec a 0) as [Hneg|Hpos].
  - rewrite to_unsigned_neg by lia.
    destruct (Z.ltb_spec (a + 2 ^ 32) (ARRAY_SIZE arr)); [lia|].
    destruct (decide (0 ≤ a < ARRAY_SIZE arr)); [lia|done].
  - rewrite to_unsigned_nonneg by lia.
    destruct (Z.ltb_spec a (ARRAY_SIZE arr));
      destruct (decide (0 ≤ a < ARRAY_SIZE arr)); (done || lia).
Qed.

Lemma v4l2_name_lookup_witness :
  v4l2_name (-1) v4l2_memory_names = Some (Some "unknown")
  ∧ v4l2_name 4 v4l2_memory_names = Some (Some "dmabuf").
Proof.
  split.
  - apply (v4l2_name_lookup (-1) v4l2_memory_names); vm_compute; done.
  - apply (v4l2_name_lookup 4 v4l2_memory_names); vm_compute; done.
Defined.

(** The values named in a table have names of their own: two of them
    with the same name are equal, and none is named like the values
    outside the table. *)
Theorem v4l2_names_distinct (a b : Z) :
  (0 ≤ a ≤ 9 → 0 ≤ b ≤ 9 →
     v4l2_field_name a = v4l2_field_name b → a = b)
  ∧ (1 ≤ a ≤ 11 → 1 ≤ b ≤ 11 →
       v4l2_type_name a = v4l2_type_name b → a = b)
  ∧ (1 ≤ a ≤ 4 → 1 ≤ b ≤ 4 →
       v4l2_memory_name a = v4l2_memory_name b → a = b)
  ∧ (0 ≤ a ≤ 9 → v4l2_field_name a ≠ v4l2_field_name 10)
  ∧ (1 ≤ a ≤ 11 → v4l2_type_name a ≠ v4l2_type_name 12)
  ∧ (1 ≤ a ≤ 4 → v4l2_memory_name a ≠ v4l2_memory_name 5).
Proof.
  split_and!.
  - intros Ha Hb.
    assert (Hca : a = 0 ∨ a = 1 ∨ a = 2 ∨ a = 3 ∨ a = 4 ∨ a = 5 ∨ a = 6
                  ∨ a = 7 ∨ a = 8 ∨ a = 9) by lia.
    assert (Hcb : b = 0 ∨ b = 1 ∨ b = 2 ∨ b = 3 ∨ b = 4 ∨ b = 5 ∨ b = 6
                  ∨ b = 7 ∨ b = 8 ∨ b = 9) by lia.
    clear Ha Hb.
    repeat (destruct Hca as [->|Hca]); repeat (destruct Hcb as [->|Hcb]);
      subst; first [reflexivity | intros H; vm_compute in H; discriminate H].
  - intros Ha Hb.
    assert (Hca : a = 1 ∨ a = 2 ∨ a = 3 ∨ a = 4 ∨ a = 5 ∨ a = 6 ∨ a = 7
                  ∨ a = 8 ∨ a = 9 ∨ a = 10 ∨ a = 11) by lia.
    assert (Hcb : b = 1 ∨ b = 2 ∨ b = 3 ∨ b = 4 ∨ b = 5 ∨ b = 6 ∨ b = 7
                  ∨ b = 8 ∨ b = 9 ∨ b = 10 ∨ b = 11) by lia.
    clear Ha Hb.
    repeat (destruct Hca as [->|Hca]); repeat (destruct Hcb as [->|Hcb]);
      subst; first [reflexivity | intros H; vm_compute in H; discriminate H].
  - intros Ha Hb.
    assert (Hca : a = 1 ∨ a = 2 ∨ a = 3 ∨ a = 4) by lia.
    assert (Hcb : b = 1 ∨ b = 2 ∨ b = 3 ∨ b = 4) by lia.
    clear Ha Hb.
    repeat (destruct Hca as [->|Hca]); repeat (destruct Hcb as [->|Hcb]);
      subst; first [reflexivity | intros H; vm_compute in H; discriminate H].
  - intros Ha.
    assert (Hca : a = 0 ∨ a = 1 ∨ a = 2 ∨ a = 3 ∨ a = 4 ∨ a = 5 ∨ a = 6
                  ∨ a = 7 ∨ a = 8 ∨ a = 9) by lia.
    clear Ha. repeat (destruct Hca as [->|Hca]); subst;
      intros H; vm_compute in H; discriminate H.
  - intros Ha.
    assert (Hca : a = 1 ∨ a = 2 ∨ a = 3 ∨ a = 4 ∨ a = 5 ∨ a = 6 ∨ a = 7
                  ∨ a = 8 ∨ a = 9 ∨ a = 10 ∨ a = 11) by lia.
    clear Ha. repeat (destruct Hca as [->|Hca]); subst;
      intros H; vm_compute in H; discriminate H.
  - intros Ha.
    assert (Hca : a = 1 ∨ a = 2 ∨ a = 3 ∨ a = 4) by lia.
    clear Ha. repeat (destruct Hca as [->|Hca]); subst;
      intros H; vm_compute in H; discriminate H.
Qed.

Lemma v4l2_names_distinct_witness :
  v4l2_field_name 4 ≠ v4l2_field_name 10
  ∧ v4l2_type_name 9 ≠ v4l2_type_name 12
  ∧ v4l2_memory_name 4 ≠ v4l2_memory_name 5.
Proof.
  split_and!.
  - apply (v4l2_names_distinct 4 4). lia.
  - apply (v4l2_names_distinct 9 9). lia.
  - apply (v4l2_names_distinct 4 4). lia.
Defined.

(** ** Opening the device *)

Section Open.
Context {K : Type} (dev : kernel_ops K).
Implicit Types (p : proc K).

(** [v4l2_open] returns exactly when the file opens, is a character
    device, answers the capability query, has every capability asked
    for and none of those ruled out; it then returns the descriptor
    that [open] gave, and the card name if the caller passed an array
    for it.  In every other case the process exits with failure status;
    the checks are made in this order, so that after a failed [open]
    or [fstat] no further call is made. *)
Theorem v4l2_open_accepts p device positive negative card :
  let o := sys_open dev (kernel p) device O_RDWR in
  let p1 := after p o (E_open device O_RDWR (rc o)) in
  let s := sys_fstat dev (kernel p1) (rc o) in
  let p2 := after p1 s (E_fstat (rc o) (rc s)) in
  let q := vidioc_querycap dev (kernel p2) (rc o) (mk_capability "" 0) in
  let p3 := ioctl_after (vidioc_querycap dev) VIDIOC_QUERYCAP p2 (rc o)
              (mk_capability "" 0) in
  let caps := cap_capabilities (out q) in
  match v4l2_open dev device positive negative card p with
  | Ret (fd, card') p' =>
      fd = rc o ∧ 0 ≤ fd ∧ p' = p3
      ∧ rc s ≠ -1 ∧ S_ISCHR (out s) = true ∧ rc q = 0
      ∧ Z.land caps positive = positive ∧ Z.land caps negative = 0
      ∧ card' = match card with
                | Some _ => Some (cap_card (out q))
                | None => None
                end
  | Exit f p' =>
      status f = EXIT_FAILURE
      ∧ (if decide (rc o < 0) then p' = p1
         else if decide (rc s = -1 ∨ S_ISCHR (out s) = false) then p' = p2
         else p' = p3
              ∧ (rc q ≠ 0 ∨ Z.land caps positive ≠ positive
                 ∨ Z.land caps negative ≠ 0))
  | Undefined => False
  end.
Proof.
  intros o p1 s p2 q p3 caps. unfold v4l2_open. run_monad.
  unfold open, fstat; simpl. fold o. fold p1.
  destruct (Z.ltb_spec (rc o) 0) as [Hfd|Hfd]; simpl.
  { split; [done|]. by destruct (decide (rc o < 0)); [|lia]. }
  change (sys_fstat dev (next o) (rc o)) with s. fold p2.
  destruct (Z.eqb_spec (rc s) (-1)) as [Hs|Hs]; simpl.
  { split; [done|]. destruct (decide (rc o < 0)); [lia|].
    destruct (decide (rc s = -1 ∨ S_ISCHR (out s) = false)); [done|tauto]. }
  destruct (S_ISCHR (out s)) eqn:Hchr; simpl; last first.
  { split; [done|]. destruct (decide (rc o < 0)); [lia|].
    destruct (decide (rc s = -1 ∨ false = false)); [done|tauto]. }
  change (vidioc_querycap dev (next s) (rc o) (mk_capability "" 0)) with q.
  change (ioctl_after (vidioc_querycap dev) VIDIOC_QUERYCAP p2 (rc o)
            (mk_capability "" 0)) with p3.
  assert (Hno : ¬ (rc s = -1 ∨ true = false)) by (intros [?|?]; done).
  case_bool_decide as Hq; simpl.
  { split; [done|]. destruct (decide (rc o < 0)); [lia|].
    destruct (decide (rc s = -1 ∨ true = false)); [done|]. tauto. }
  fold caps.
  case_bool_decide as Hpos; simpl.
  { split; [done|]. destruct (decide (rc o < 0)); [lia|].
    destruct (decide (rc s = -1 ∨ true = false)); [done|]. tauto. }
  case_bool_decide as Hneg; simpl.
  { split; [done|]. destruct (decide (rc o < 0)); [lia|].
    destruct (decide (rc s = -1 ∨ true = false)); [done|]. tauto. }
  split_and!; done.
Qed.

End Open.

(** ** Setting the frame rate *)

Section Framerate.
Context {K : Type} (dev : kernel_ops K).
Implicit Types (p : proc K) (fd type framerate : Z).

(** For a capture or an output stream, [v4l2_framerate_configure] reads
    the streaming parameters and, when the device can adjust the time
    per frame, asks for [1 / framerate] with the other parameters as
    read; it returns when the driver hands back [framerate] as the
    denominator (the numerator handed back is not looked at).  When the
    device cannot adjust the time per frame it returns after the one
    query, without having set anything. *)
Theorem v4l2_framerate_configure_sets p fd type framerate :
  type = V4L2_BUF_TYPE_VIDEO_CAPTURE ∨ type = V4L2_BUF_TYPE_VIDEO_OUTPUT →
  let parm := mk_streamparm type 0 0 0 0 0 0 in
  let g := vidioc_g_parm dev (kernel p) fd parm in
  let p1 := ioctl_after (vidioc_g_parm dev) VIDIOC_G_PARM p fd parm in
  let wanted := set_timeperframe (out g) 1 framerate in
  let s := vidioc_s_parm dev (kernel p1) fd wanted in
  let p2 := ioctl_after (vidioc_s_parm dev) VIDIOC_S_PARM p1 fd wanted in
  let fixed := Z.land (parm_capability (out g)) V4L2_CAP_TIMEPERFRAME = 0 in
  match v4l2_framerate_configure dev fd type framerate p with
  | Ret _ p' =>
      rc g = 0
      ∧ (fixed ∧ p' = p1
         ∨ ¬ fixed ∧ p' = p2 ∧ rc s = 0
           ∧ parm_denominator (out s) = framerate)
  | Exit f p' =>
      status f = EXIT_FAILURE
      ∧ (rc g ≠ 0 ∧ p' = p1
         ∨ rc g = 0 ∧ ¬ fixed ∧ p' = p2
           ∧ (rc s ≠ 0 ∨ parm_denominator (out s) ≠ framerate))
  | Undefined => False
  end.
Proof.
  intros Htype parm g p1 wanted s p2 fixed.
  unfold v4l2_framerate_configure, framerate_commit. run_monad.
  fold parm. fold g. fold p1.
  case_bool_decide as Hg; simpl; [by split; [|left]|].
  assert (rc g = 0) as Hg0 by (by destruct (decide (rc g = 0))).
  destruct Htype as [->| ->]; simpl;
    (destruct (Z.eqb_spec (Z.land (parm_capability (out g))
                             V4L2_CAP_TIMEPERFRAME) 0) as [Hfix|Hfix];
     [by split; [|left]|]);
    simpl; fold wanted; fold s; fold p2;
    (case_bool_decide as Hs; simpl; [split; [done|]; right; tauto|]);
    (case_bool_decide as Hd; simpl; [split; [done|]; right; tauto|]);
    (split; [done|]; right; split_and!; try done;
     by destruct (decide (rc s = 0))).
Qed.

(** For any other buffer type the frame rate passed in plays no part:
    the parameters that were read are written back as they are, and the
    function returns when both requests succeed, whatever rate the
    driver reports. *)
Theorem v4l2_framerate_configure_ignores p fd type framerate :
  type ≠ V4L2_BUF_TYPE_VIDEO_CAPTURE → type ≠ V4L2_BUF_TYPE_VIDEO_OUTPUT →
  let parm := mk_streamparm type 0 0 0 0 0 0 in
  let g := vidioc_g_parm dev (kernel p) fd parm in
  let p1 := ioctl_after (vidioc_g_parm dev) VIDIOC_G_PARM p fd parm in
  let s := vidioc_s_parm dev (kernel p1) fd (out g) in
  let p2 := ioctl_after (vidioc_s_parm dev) VIDIOC_S_PARM p1 fd (out g) in
  match v4l2_framerate_configure dev fd type framerate p with
  | Ret _ p' => rc g = 0 ∧ rc s = 0 ∧ p' = p2
  | Exit f p' =>
      status f = EXIT_FAILURE
      ∧ (rc g ≠ 0 ∧ p' = p1 ∨ rc g = 0 ∧ rc s ≠ 0 ∧ p' = p2)
  | Undefined => False
  end
  ∧ ∀ framerate',
      v4l2_framerate_configure dev fd type framerate' p
      = v4l2_framerate_configure dev fd type framerate p.
Proof.
  intros Hc Ho parm g p1 s p2.
  unfold v4l2_framerate_configure, framerate_commit.
  rewrite !(bool_decide_eq_false_2 _ Hc), !(bool_decide_eq_false_2 _ Ho).
  split; [|done]. run_monad. fold parm. fold g. fold p1.
  case_bool_decide as Hg; simpl; [by split; [|left]|].
  assert (rc g = 0) as Hg0 by (by destruct (decide (rc g = 0))).
  fold s. fold p2.
  case_bool_decide as Hs; simpl; [split; [done|]; right; tauto|].
  split_and!; done.
Qed.

End Framerate.

Lemma v4l2_framerate_configure_sets_witness :
  ∃ p', v4l2_framerate_configure willing 3 V4L2_BUF_TYPE_VIDEO_CAPTURE 30
          proc0 = Ret () p'
        ∧ length (trace p') = 2%nat.
Proof.
  pose proof (v4l2_framerate_configure_sets willing proc0 3
                V4L2_BUF_TYPE_VIDEO_CAPTURE 30 (or_introl eq_refl)) as H.
  destruct (v4l2_framerate_configure willing 3 V4L2_BUF_TYPE_VIDEO_CAPTURE
              30 proc0) as [[] p'|f p'|] eqn:E.
  - exists p'. split; [reflexivity|].
    destruct H as (_ & [(Hfix & _)|(_ & -> & _)]).
    + vm_compute in Hfix. discriminate Hfix.
    + reflexivity.
  - vm_compute in E. discriminate E.
  - destruct H.
Defined.

Lemma v4l2_framerate_configure_ignores_witness :
  v4l2_framerate_configure willing 3 V4L2_BUF_TYPE_VIDEO_CAPTURE_MPLANE 60
    proc0
  = v4l2_framerate_configure willing 3 V4L2_BUF_TYPE_VIDEO_CAPTURE_MPLANE 30
      proc0.
Proof.
  apply (v4l2_framerate_configure_ignores willing proc0 3
           V4L2_BUF_TYPE_VIDEO_CAPTURE_MPLANE 30); vm_compute; discriminate.
Defined.

(** ** Failures inside the mapping and export loops *)

Section Loops.
Context {K : Type} (dev : kernel_ops K).
Implicit Types (p pf : proc K) (fd type prot num : Z) (bufs : list Z).

Lemma quiet_not_failed (t : list event) (e : event) :
  Forall (λ e, io_failed e = false) t → e ∈ t → io_failed e = false.
Proof. rewrite Forall_forall. auto. Qed.

(** When the export of a buffer is refused, the process exits with
    failure status and the export error; the buffers before it have
    been exported, the refused request is the last call made, and no
    region was mapped or unmapped. *)
Theorem v4l2_buffers_export_failure_exits p fd type num bufs pf fd' a res ret :
  final (v4l2_buffers_export dev fd type num bufs p) = Some pf →
  E_ioctl fd' (VIDIOC_EXPBUF a) res ret ∈ drop (length (trace p)) (trace pf) →
  ret ≠ 0 →
  ∃ f, v4l2_buffers_export dev fd type num bufs p = Exit f pf
       ∧ status f = EXIT_FAILURE
       ∧ format f = "Can not export %s buffer"
       ∧ maps pf = maps p
       ∧ ∃ es : list v4l2_exportbuffer,
           (length es < Z.to_nat num)%nat
           ∧ a = mk_exportbuffer type (Z.of_nat (length es)) 0 0 0
           ∧ trace pf = trace p ++ export_events fd type 0 es
               ++ [E_ioctl fd (VIDIOC_EXPBUF a) res ret].
Proof.
  intros Hfinal Hin Hret. unfold v4l2_buffers_export in *.
  assert (Hbad : io_failed (E_ioctl fd' (VIDIOC_EXPBUF a) res ret) = true).
  { simpl. by destruct (Z.eqb_spec ret 0). }
  pose proof (buffers_export_from_run dev (Z.to_nat num) fd type 0 bufs p)
    as Hspec.
  destruct (buffers_export_from dev (Z.to_nat num) fd type 0 bufs p)
    as [bufs' p'|f p'|]; simpl in Hfinal; [| |done];
    injection Hfinal as ->.
  - destruct Hspec as (es & _ & _ & _ & Htrace). exfalso.
    rewrite Htrace, drop_app_length in Hin.
    pose proof (quiet_not_failed _ _ (export_events_quiet fd type es 0) Hin).
    congruence.
  - destruct Hspec
      as (Hst & Hfmt & es & e & r & Hlen & Hr & Hmaps & Htrace).
    rewrite Htrace, drop_app_length in Hin.
    apply elem_of_app in Hin as [Hin|Hin].
    { pose proof (quiet_not_failed _ _ (export_events_quiet fd type es 0) Hin).
      congruence. }
    apply list_elem_of_singleton in Hin. injection Hin as -> -> -> ->.
    exists f. split_and!; try done. exists es. by split_and!.
Qed.

(** When the query of a buffer fails in [v4l2_buffers_mmap], the
    process exits with failure status before any mapping of that
    buffer is tried; the buffers before it are mapped and stay so. *)
Theorem v4l2_buffers_mmap_query_failure_exits p fd type num bufs prot pf
    fd' a res ret :
  final (v4l2_buffers_mmap dev fd type num bufs prot p) = Some pf →
  E_ioctl fd' (VIDIOC_QUERYBUF a) res ret
    ∈ drop (length (trace p)) (trace pf) →
  ret ≠ 0 →
  ∃ f, v4l2_buffers_mmap dev fd type num bufs prot p = Exit f pf
       ∧ status f = EXIT_FAILURE
       ∧ format f = "Can not query buffer"
       ∧ ∃ qas : list (v4l2_buffer * Z),
           (length qas < Z.to_nat num)%nat
           ∧ a = mk_buffer (Z.of_nat (length qas)) type 0 0 0 0 0 0 0 0 0
           ∧ maps pf = maps p ++ (mmap_region fd prot <$> qas)
           ∧ trace pf = trace p ++ mmap_events fd type prot 0 qas
               ++ [E_ioctl fd (VIDIOC_QUERYBUF a) res ret].
Proof.
  intros Hfinal Hin Hret. unfold v4l2_buffers_mmap in *.
  assert (Hbad : io_failed (E_ioctl fd' (VIDIOC_QUERYBUF a) res ret) = true).
  { simpl. by destruct (Z.eqb_spec ret 0). }
  pose proof (buffers_mmap_from_run dev (Z.to_nat num) fd type prot 0 bufs p)
    as Hspec.
  destruct (buffers_mmap_from dev (Z.to_nat num) fd type prot 0 bufs p)
    as [bufs' p'|f p'|]; simpl in Hfinal; [| |done];
    injection Hfinal as ->.
  - destruct Hspec as (qas & _ & _ & _ & Htrace & Hall). exfalso.
    rewrite Htrace, drop_app_length in Hin.
    pose proof (quiet_not_failed _ _
                  (mmap_events_quiet dev fd type prot qas 0 Hall) Hin).
    congruence.
  - destruct Hspec as (Hst & qas & tl & Hlen & Hmaps & Htrace & Hall & Hstop).
    rewrite Htrace, drop_app_length in Hin.
    apply elem_of_app in Hin as [Hin|Hin].
    { pose proof (quiet_not_failed _ _
                    (mmap_events_quiet dev fd type prot qas 0 Hall) Hin).
      congruence. }
    destruct Hstop as [[Hfmt (q & r & Hr & ->)]|[_ (q & ->)]].
    + apply list_elem_of_singleton in Hin. injection Hin as -> -> -> ->.
      exists f. split_and!; try done. exists qas. by split_and!.
    + exfalso. apply elem_of_cons in Hin as [Hin|Hin].
      * injection Hin as _ _ _ ->. done.
      * apply list_elem_of_singleton in Hin. discriminate Hin.
Qed.

End Loops.

Lemma v4l2_buffers_export_failure_exits_witness :
  ∃ f pf,
    v4l2_buffers_export (faulty 1) 3 V4L2_BUF_TYPE_VIDEO_CAPTURE 2 [0; 0]
      proc0 = Exit f pf
    ∧ format f = "Can not export %s buffer"
    ∧ maps pf = maps proc0.
Proof.
  edestruct (v4l2_buffers_export_failure_exits (faulty 1) proc0 3
               V4L2_BUF_TYPE_VIDEO_CAPTURE 2 [0; 0])
    as (f & Hrun & _ & Hfmt & Hmaps & _).
  - vm_compute. reflexivity.
  - vm_compute. apply list_elem_of_further, list_elem_of_here.
  - discriminate.
  - exists f. eexists. split; [exact Hrun|]. split; [exact Hfmt|exact Hmaps].
Defined.

Lemma v4l2_buffers_mmap_query_failure_exits_witness :
  ∃ f pf,
    v4l2_buffers_mmap (faulty 1) 3 V4L2_BUF_TYPE_VIDEO_CAPTURE 2 [0; 0] 3
      proc0 = Exit f pf
    ∧ format f = "Can not query buffer"
    ∧ length (maps pf) = 1%nat.
Proof.
  edestruct (v4l2_buffers_mmap_query_failure_exits (faulty 1) proc0 3
               V4L2_BUF_TYPE_VIDEO_CAPTURE 2 [0; 0] 3)
    as (f & Hrun & _ & Hfmt & qas & _).
  - vm_compute. reflexivity.
  - vm_compute. do 2 apply list_elem_of_further. apply list_elem_of_here.
  - discriminate.
  - exists f. eexists. split; [exact Hrun|]. split; [exact Hfmt|].
    reflexivity.
Defined.

(** ** The mapped regions across the module *)

Section Maps.
Context {K : Type} (dev : kernel_ops K).

Lemma keeps_maps_ret {A} (a : A) : keeps_maps (mret a : M K A).
Proof. by intros p. Qed.

Lemma keeps_maps_bind {A B} (m : M K A) (k : A → M K B) :
  keeps_maps m → (∀ a, keeps_maps (k a)) → keeps_maps (m ≫= k).
Proof.
  intros Hm Hk p. specialize (Hm p). unfold mbind, M_bind.
  destruct (m p) as [a p1|f p1|]; [|done|done].
  specialize (Hk a p1). destruct (k a p1); congruence.
Qed.

Lemma keeps_maps_error st en fmt args :
  keeps_maps (error (K := K) st en fmt args).
Proof. intros p. unfold error. by destruct (st =? 0). Qed.

Lemma keeps_maps_when (b : bool) (m : M K unit) :
  keeps_maps m → keeps_maps (when b m).
Proof. destruct b; [done|]. intros _. apply keeps_maps_ret. Qed.

Lemma keeps_maps_guard {B} (b : bool) st en fmt args (k : unit → M K B) :
  (∀ u, keeps_maps (k u)) →
  keeps_maps (when b (error st en fmt args) ≫= k).
Proof.
  intros Hk. apply keeps_maps_bind; [|done].
  apply keeps_maps_when, keeps_maps_error.
Qed.

Lemma keeps_maps_ioctl {A} (call : K → Z → A → reply K A) req fd (a : A) :
  keeps_maps (ioctl call req fd a).
Proof. by intros p. Qed.

Lemma keeps_maps_v4l2_open device positive negative card :
  keeps_maps (v4l2_open dev device positive negative card).
Proof.
  unfold v4l2_open.
  apply keeps_maps_bind; [by intros p|intros fd].
  apply keeps_maps_guard; intros _.
  apply keeps_maps_bind; [by intros p|intros [r st]].
  apply keeps_maps_bind.
  { destruct (r =? -1); [apply keeps_maps_error|].
    apply keeps_maps_when, keeps_maps_error. }
  intros _. apply keeps_maps_bind; [apply keeps_maps_ioctl|intros [ret cap]].
  do 3 (apply keeps_maps_guard; intros _). apply keeps_maps_ret.
Qed.

Lemma keeps_maps_v4l2_configure fd type pixelformat width height :
  keeps_maps (v4l2_configure dev fd type pixelformat width height).
Proof.
  unfold v4l2_configure.
  apply keeps_maps_bind; [apply keeps_maps_ioctl|intros [ret fmt]].
  do 2 (apply keeps_maps_guard; intros _).
  apply keeps_maps_when, keeps_maps_error.
Qed.

Lemma keeps_maps_framerate_commit fd type framerate parm :
  keeps_maps (framerate_commit dev fd type framerate parm).
Proof.
  unfold framerate_commit.
  apply keeps_maps_bind; [apply keeps_maps_ioctl|intros [ret parm']].
  apply keeps_maps_guard; intros _.
  apply keeps_maps_when, keeps_maps_error.
Qed.

Lemma keeps_maps_v4l2_framerate_configure fd type framerate :
  keeps_maps (v4l2_framerate_configure dev fd type framerate).
Proof.
  unfold v4l2_framerate_configure.
  apply keeps_maps_bind; [apply keeps_maps_ioctl|intros [ret parm]].
  apply keeps_maps_guard; intros _.
  destruct (bool_decide (type = V4L2_BUF_TYPE_VIDEO_CAPTURE)).
  { destruct (Z.land (parm_capability parm) V4L2_CAP_TIMEPERFRAME =? 0);
      [apply keeps_maps_ret|apply keeps_maps_framerate_commit]. }
  destruct (bool_decide (type = V4L2_BUF_TYPE_VIDEO_OUTPUT)).
  { destruct (Z.land (parm_capability parm) V4L2_CAP_TIMEPERFRAME =? 0);
      [apply keeps_maps_ret|apply keeps_maps_framerate_commit]. }
  apply keeps_maps_framerate_commit.
Qed.

Lemma keeps_maps_v4l2_framerate_get fd type :
  keeps_maps (v4l2_framerate_get dev fd type).
Proof.
  unfold v4l2_framerate_get.
  apply keeps_maps_bind; [apply keeps_maps_ioctl|intros [ret parm]].
  destruct (bool_decide (ret ≠ 0)); apply keeps_maps_ret.
Qed.

Lemma keeps_maps_v4l2_buffers_request fd type num memory :
  keeps_maps (v4l2_buffers_request dev fd type num memory).
Proof.
  unfold v4l2_buffers_request.
  apply keeps_maps_bind; [apply keeps_maps_ioctl|intros [ret reqbuf]].
  do 3 (apply keeps_maps_guard; intros _). apply keeps_maps_ret.
Qed.

Lemma keeps_maps_v4l2_buffers_export fd type num bufs :
  keeps_maps (v4l2_buffers_export dev fd type num bufs).
Proof.
  intros p. unfold v4l2_buffers_export.
  pose proof (buffers_export_from_run dev (Z.to_nat num) fd type 0 bufs p)
    as Hspec.
  destruct (buffers_export_from dev (Z.to_nat num) fd type 0 bufs p)
    as [bufs' p'|f p'|]; [| |done].
  - by destruct Hspec as (es & _ & _ & Hmaps & _).
  - by destruct Hspec as (_ & _ & es & e & ret & _ & _ & Hmaps & _).
Qed.

Lemma keeps_maps_v4l2_dqbuf fd buf : keeps_maps (v4l2_dqbuf dev fd buf).
Proof.
  unfold v4l2_dqbuf.
  apply keeps_maps_bind; [apply keeps_maps_ioctl|intros [ret buf']].
  apply keeps_maps_guard; intros _. apply keeps_maps_ret.
Qed.

Lemma keeps_maps_v4l2_qbuf fd buf : keeps_maps (v4l2_qbuf dev fd buf).
Proof.
  unfold v4l2_qbuf.
  apply keeps_maps_bind; [apply keeps_maps_ioctl|intros [ret buf']].
  apply keeps_maps_guard; intros _. apply keeps_maps_ret.
Qed.

Lemma keeps_maps_v4l2_streamon fd type : keeps_maps (v4l2_streamon dev fd type).
Proof.
  unfold v4l2_streamon.
  apply keeps_maps_bind; [apply keeps_maps_ioctl|intros [ret type']].
  apply keeps_maps_when, keeps_maps_error.
Qed.

(** A run of the mapping loop that ends with a process in hand has
    only added regions. *)
Lemma v4l2_buffers_mmap_extends fd type num bufs prot (p : proc K) :
  match final (v4l2_buffers_mmap dev fd type num bufs prot p) with
  | Some p' => maps p `prefix_of` maps p'
  | None => True
  end.
Proof.
  unfold v4l2_buffers_mmap.
  pose proof (buffers_mmap_from_run dev (Z.to_nat num) fd type prot 0 bufs p)
    as Hspec.
  destruct (buffers_mmap_from dev (Z.to_nat num) fd type prot 0 bufs p)
    as [bufs' p'|f p'|]; simpl; [| |done].
  - destruct Hspec as (qas & _ & _ & Hmaps & _). by eexists.
  - destruct Hspec as (_ & qas & tl & _ & Hmaps & _). by eexists.
Qed.

End Maps.

(** No operation of the module unmaps anything.  Mapping the buffers
    only adds regions to those already mapped; every other operation
    that makes system calls leaves the mapped regions exactly as they
    were, whether it returns or the process exits. *)
Theorem v4l2_never_unmaps :
  ∀ K (dev : kernel_ops K),
    (∀ fd type num bufs prot (p : proc K),
       match final (v4l2_buffers_mmap dev fd type num bufs prot p) with
       | Some p' => maps p `prefix_of` maps p'
       | None => True
       end)
    ∧ (∀ device positive negative card,
         keeps_maps (v4l2_open dev device positive negative card))
    ∧ (∀ fd type pixelformat width height,
         keeps_maps (v4l2_configure dev fd type pixelformat width height))
    ∧ (∀ fd type framerate,
         keeps_maps (v4l2_framerate_configure dev fd type framerate))
    ∧ (∀ fd type, keeps_maps (v4l2_framerate_get dev fd type))
    ∧ (∀ fd type num memory,
         keeps_maps (v4l2_buffers_request dev fd type num memory))
    ∧ (∀ fd type num bufs,
         keeps_maps (v4l2_buffers_export dev fd type num bufs))
    ∧ (∀ fd buf, keeps_maps (v4l2_dqbuf dev fd buf))
    ∧ (∀ fd buf, keeps_maps (v4l2_qbuf dev fd buf))
    ∧ (∀ fd type, keeps_maps (v4l2_streamon dev fd type)).
Proof.
  intros K dev. split_and!; intros.
  - apply v4l2_buffers_mmap_extends.
  - apply keeps_maps_v4l2_open.
  - apply keeps_maps_v4l2_configure.
  - apply keeps_maps_v4l2_framerate_configure.
  - apply keeps_maps_v4l2_framerate_get.
  - apply keeps_maps_v4l2_buffers_request.
  - apply keeps_maps_v4l2_buffers_export.
  - apply keeps_maps_v4l2_dqbuf.
  - apply keeps_maps_v4l2_qbuf.
  - apply keeps_maps_v4l2_streamon.
Qed.

(** ** The caller's array *)

Section Room.
Context {K : Type} (dev : kernel_ops K).
Implicit Types (p : proc K) (fd type prot num i : Z) (bufs : list Z).

Lemma buffers_mmap_from_room n fd type prot : ∀ i bufs p bufs' p',
  buffers_mmap_from dev n fd type prot i bufs p = Ret bufs' p' →
  length bufs' = length bufs
  ∧ (n ≠ 0%nat → 0 ≤ i ∧ i + Z.of_nat n ≤ Z.of_nat (length bufs)
                 ∧ i + Z.of_nat n ≤ INT_MAX).
Proof.
  induction n as [|n IH]; intros i bufs p bufs' p'.
  { simpl. intros [= <- <-]. done. }
  rewrite buffers_mmap_from_step.
  destruct (decide _); [done|].
  destruct (decide (0 ≤ i < _)) as [Hin|]; [|done].
  destruct (decide _); [done|].
  destruct (decide (i < INT_MAX)) as [Hmax|]; [|done].
  intros Hrun. apply IH in Hrun as [Hlen Hroom].
  rewrite length_insert in Hlen, Hroom. split; [done|]. intros _.
  destruct (decide (n = 0%nat)) as [->|Hn]; [lia|].
  specialize (Hroom Hn). lia.
Qed.

Lemma buffers_export_from_room n fd type : ∀ i bufs p bufs' p',
  buffers_export_from dev n fd type i bufs p = Ret bufs' p' →
  length bufs' = length bufs
  ∧ (n ≠ 0%nat → 0 ≤ i ∧ i + Z.of_nat n ≤ Z.of_nat (length bufs)
                 ∧ i + Z.of_nat n ≤ INT_MAX).
Proof.
  induction n as [|n IH]; intros i bufs p bufs' p'.
  { simpl. intros [= <- <-]. done. }
  rewrite buffers_export_from_step.
  destruct (decide _); [done|].
  destruct (decide (0 ≤ i < _)) as [Hin|]; [|done].
  destruct (decide (i < INT_MAX)) as [Hmax|]; [|done].
  intros Hrun. apply IH in Hrun as [Hlen Hroom].
  rewrite length_insert in Hlen, Hroom. split; [done|]. intros _.
  destruct (decide (n = 0%nat)) as [->|Hn]; [lia|].
  specialize (Hroom Hn). lia.
Qed.

(** The loops taken apart: [n + k] iterations are [n] iterations
    followed by [k] more from where they arrived. *)
Lemma buffers_export_from_app n k fd type : ∀ i bufs p,
  buffers_export_from dev (n + k) fd type i bufs p =
    match buffers_export_from dev n fd type i bufs p with
    | Ret bufs' p' =>
        buffers_export_from dev k fd type (i + Z.of_nat n) bufs' p'
    | Exit f p' => Exit f p'
    | Undefined => Undefined
    end.
Proof.
  induction n as [|n IH]; intros i bufs p.
  { simpl. by rewrite Z.add_0_r. }
  change (S n + k)%nat with (S (n + k)). rewrite !buffers_export_from_step.
  destruct (decide _); [done|].
  destruct (decide (0 ≤ i < _)); [|done].
  destruct (decide (i < INT_MAX)); [|done].
  rewrite IH. by replace (i + 1 + Z.of_nat n) with (i + Z.of_nat (S n)) by lia.
Qed.

Lemma buffers_mmap_from_app n k fd type prot : ∀ i bufs p,
  buffers_mmap_from dev (n + k) fd type prot i bufs p =
    match buffers_mmap_from dev n fd type prot i bufs p with
    | Ret bufs' p' =>
        buffers_mmap_from dev k fd type prot (i + Z.of_nat n) bufs' p'
    | Exit f p' => Exit f p'
    | Undefined => Undefined
    end.
Proof.
  induction n as [|n IH]; intros i bufs p.
  { simpl. by rewrite Z.add_0_r. }
  change (S n + k)%nat with (S (n + k)). rewrite !buffers_mmap_from_step.
  destruct (decide _); [done|].
  destruct (decide (0 ≤ i < _)); [|done].
  destruct (decide _); [done|].
  destruct (decide (i < INT_MAX)); [|done].
  rewrite IH. by replace (i + 1 + Z.of_nat n) with (i + Z.of_nat (S n)) by lia.
Qed.

(** Neither loop checks the length of the array it fills.  With an
    array of [n] entries and a count above [n], the first [n]
    iterations fill the array and stay inside it; unless a request has
    failed by then, iteration [n] makes its request and, when that is
    answered, executes the store [bufs[n] = ...], one element past the
    end of the array.  In the mapping loop the store comes before the
    test of the value [mmap] returned, so it is made whether the
    mapping succeeded or not. *)
Theorem v4l2_buffers_store_past_end p fd type num bufs prot :
  let n := Z.of_nat (length bufs) in
  n < num → num ≤ INT_MAX →
  match v4l2_buffers_export dev fd type n bufs p with
  | Ret bufs' p' =>
      let e := vidioc_expbuf dev (kernel p') fd
                 (mk_exportbuffer type n 0 0 0) in
      let p1 := ioctl_after (vidioc_expbuf dev) VIDIOC_EXPBUF p' fd
                  (mk_exportbuffer type n 0 0 0) in
      length bufs' = length bufs
      ∧ (rc e ≠ 0 →
           ∃ f, v4l2_buffers_export dev fd type num bufs p = Exit f p1)
      ∧ (rc e = 0 →
           store bufs' n (exp_fd (out e)) p1 = Undefined
           ∧ v4l2_buffers_export dev fd type num bufs p = Undefined)
  | Exit f pf => v4l2_buffers_export dev fd type num bufs p = Exit f pf
  | Undefined => False
  end
  ∧ match v4l2_buffers_mmap dev fd type n bufs prot p with
    | Ret bufs' p' =>
        let q := vidioc_querybuf dev (kernel p') fd
                   (mk_buffer n type 0 0 0 0 0 0 0 0 0) in
        let p1 := ioctl_after (vidioc_querybuf dev) VIDIOC_QUERYBUF p' fd
                    (mk_buffer n type 0 0 0 0 0 0 0 0 0) in
        let a := sys_mmap dev (kernel p1) (buf_length (out q)) prot
                   MAP_SHARED fd (buf_offset (out q)) in
        let p2 := mmap_after dev p1 (buf_length (out q)) prot MAP_SHARED fd
                    (buf_offset (out q)) in
        length bufs' = length bufs
        ∧ (rc q ≠ 0 →
             ∃ f, v4l2_buffers_mmap dev fd type num bufs prot p = Exit f p1)
        ∧ (rc q = 0 →
             store bufs' n (rc a) p2 = Undefined
             ∧ v4l2_buffers_mmap dev fd type num bufs prot p = Undefined)
    | Exit f pf => v4l2_buffers_mmap dev fd type num bufs prot p = Exit f pf
    | Undefined => False
    end.
Proof.
  intros n Hn Hmax. unfold v4l2_buffers_export, v4l2_buffers_mmap.
  assert (Hnum : Z.to_nat num = (length bufs + S (Z.to_nat (num - n - 1)))%nat)
    by lia.
  rewrite Hnum, buffers_export_from_app, buffers_mmap_from_app.
  subst n. rewrite Nat2Z.id, !Z.add_0_l. split.
  - pose proof (buffers_export_from_run dev (length bufs) fd type 0 bufs p)
      as Hrun.
    destruct (buffers_export_from dev (length bufs) fd type 0 bufs p)
      as [bufs' p'|f pf|] eqn:Hfirst; [|done|apply Hrun; lia].
    apply buffers_export_from_room in Hfirst as [Hlen _].
    rewrite buffers_export_from_step. split; [done|]. split.
    + intros Hrc. eexists. by destruct (decide _).
    + intros Hrc. split.
      * unfold store. rewrite bool_decide_eq_false_2; [done|lia].
      * destruct (decide _); [done|].
        by destruct (decide (0 ≤ _ < _)); [lia|].
  - pose proof (buffers_mmap_from_run dev (length bufs) fd type prot 0 bufs p)
      as Hrun.
    destruct (buffers_mmap_from dev (length bufs) fd type prot 0 bufs p)
      as [bufs' p'|f pf|] eqn:Hfirst; [|done|apply Hrun; lia].
    apply buffers_mmap_from_room in Hfirst as [Hlen _].
    rewrite buffers_mmap_from_step. split; [done|]. split.
    + intros Hrc. eexists. by destruct (decide _).
    + intros Hrc. split.
      * unfold store. rewrite bool_decide_eq_false_2; [done|lia].
      * destruct (decide _); [done|].
        by destruct (decide (0 ≤ _ < _)); [lia|].
Qed.

End Room.

(** An array of one entry and two buffers asked for: the descriptor of
    buffer 0 is stored, the store of buffer 1 falls outside. *)
Lemma v4l2_buffers_store_past_end_witness :
  v4l2_buffers_export willing 3 V4L2_BUF_TYPE_VIDEO_CAPTURE 1 [0] proc0
  = Ret [10] (ioctl_after (vidioc_expbuf willing) VIDIOC_EXPBUF proc0 3
                (mk_exportbuffer V4L2_BUF_TYPE_VIDEO_CAPTURE 0 0 0 0))
  ∧ v4l2_buffers_export willing 3 V4L2_BUF_TYPE_VIDEO_CAPTURE 2 [0] proc0
    = Undefined.
Proof.
  split; [reflexivity|].
  destruct (v4l2_buffers_store_past_end willing proc0 3
              V4L2_BUF_TYPE_VIDEO_CAPTURE 2 [0] 0) as [Hexport _].
  - simpl. lia.
  - vm_compute. discriminate.
  - simpl in Hexport. apply Hexport. reflexivity.
Defined.

(** ** Printing *)

(** The buffer types as numbers. *)
Ltac buf_types :=
  unfold V4L2_BUF_TYPE_VIDEO_CAPTURE, V4L2_BUF_TYPE_VIDEO_OUTPUT,
    V4L2_BUF_TYPE_VIDEO_OVERLAY, V4L2_BUF_TYPE_VBI_CAPTURE,
    V4L2_BUF_TYPE_VBI_OUTPUT, V4L2_BUF_TYPE_SLICED_VBI_CAPTURE,
    V4L2_BUF_TYPE_SLICED_VBI_OUTPUT, V4L2_BUF_TYPE_VIDEO_OUTPUT_OVERLAY,
    V4L2_BUF_TYPE_VIDEO_CAPTURE_MPLANE, V4L2_BUF_TYPE_VIDEO_OUTPUT_MPLANE,
    V4L2_BUF_TYPE_SDR_CAPTURE in *.

(** The four bytes of a 32-bit code, low byte first, spell the code. *)
Lemma fourcc_bytes (x : Z) :
  0 ≤ x < 2 ^ 32 →
  let cs := [Z.land x 0xff; Z.land (Z.shiftr x 8) 0xff;
             Z.land (Z.shiftr x 16) 0xff; Z.land (Z.shiftr x 24) 0xff] in
  fourcc cs = x ∧ Forall (λ c, 0 ≤ c < 256) cs.
Proof.
  intros Hx cs. subst cs.
  change 0xff with (Z.ones 8). rewrite !Z.land_ones by lia.
  rewrite !Z.shiftr_div_pow2 by lia. unfold fourcc; simpl.
  change (2 ^ 8) with 256. change (2 ^ 16) with 65536.
  change (2 ^ 24) with 16777216. change (2 ^ 32) with 4294967296 in Hx.
  split.
  - Z.div_mod_to_equations. lia.
  - repeat constructor; Z.div_mod_to_equations; lia.
Qed.

(** For every type that carries a four-character code,
    [v4l2_print_format] prints the code as its four bytes, low byte
    first: the characters of the second call spell the code back. *)
Theorem v4l2_print_format_fourcc (p : v4l2_format_members) (code : Z) :
  format_code p = Some code → 0 ≤ code < 2 ^ 32 →
  (∀ calls, v4l2_print_format p = Some calls →
     ∃ call, calls !! 1%nat = Some call
             ∧ length (chars_of call) = 4%nat
             ∧ Forall (λ c, 0 ≤ c < 256) (chars_of call)
             ∧ fourcc (chars_of call) = code).
Proof.
  intros Hcode Hrange calls. revert Hcode.
  unfold format_code, v4l2_print_format.
  destruct (fourcc_bytes code Hrange) as [Hspell Hbytes].
  destruct (bool_decide_reflect (f_type p = V4L2_BUF_TYPE_VIDEO_CAPTURE
               ∨ f_type p = V4L2_BUF_TYPE_VIDEO_OUTPUT)).
  { intros [= ->] [= <-]. eexists. split; [reflexivity|]. by split_and!. }
  destruct (bool_decide_reflect
              (f_type p = V4L2_BUF_TYPE_VIDEO_CAPTURE_MPLANE
               ∨ f_type p = V4L2_BUF_TYPE_VIDEO_OUTPUT_MPLANE)).
  { intros [= ->]. destruct (print_planes _ _ _) as [planes|]; [|done].
    intros [= <-]. eexists. split; [reflexivity|]. by split_and!. }
  destruct (bool_decide_reflect (f_type p = V4L2_BUF_TYPE_VBI_CAPTURE
               ∨ f_type p = V4L2_BUF_TYPE_VBI_OUTPUT))
    as [Hvbi|Hvbi].
  { intros [= ->].
    destruct (bool_decide_reflect
                (f_type p = V4L2_BUF_TYPE_VIDEO_OVERLAY
               ∨ f_type p = V4L2_BUF_TYPE_VIDEO_OUTPUT_OVERLAY)) as [Hov|Hov];
      [exfalso; clear -Hvbi Hov; buf_types; lia|].
    intros [= <-]. eexists. split; [reflexivity|]. by split_and!. }
  destruct (bool_decide_reflect (f_type p = V4L2_BUF_TYPE_SDR_CAPTURE))
    as [Hsdr|Hsdr]; [|done].
  intros [= ->].
  destruct (bool_decide_reflect
              (f_type p = V4L2_BUF_TYPE_VIDEO_OVERLAY
               ∨ f_type p = V4L2_BUF_TYPE_VIDEO_OUTPUT_OVERLAY)) as [Hov|Hov];
    [exfalso; clear -Hsdr Hov; buf_types; lia|].
  destruct (bool_decide_reflect
              (f_type p = V4L2_BUF_TYPE_SLICED_VBI_CAPTURE
               ∨ f_type p = V4L2_BUF_TYPE_SLICED_VBI_OUTPUT)) as [Hsl|Hsl];
    [exfalso; clear -Hsdr Hsl; buf_types; lia|].
  intros [= <-]. eexists. split; [reflexivity|].
  simpl. rewrite Z.shiftr_0_r. by split_and!.
Qed.

Lemma v4l2_print_format_fourcc_witness :
  ∃ calls call,
    v4l2_print_format (sample_format V4L2_BUF_TYPE_VIDEO_CAPTURE 0)
    = Some calls
    ∧ calls !! 1%nat = Some call
    ∧ chars_of call = [0x59; 0x55; 0x59; 0x56]
    ∧ fourcc (chars_of call) = yuyv.
Proof.
  eexists.
  edestruct (v4l2_print_format_fourcc
               (sample_format V4L2_BUF_TYPE_VIDEO_CAPTURE 0) yuyv)
    as (call & Hcall & _ & _ & Hspell).
  - reflexivity.
  - vm_compute. split; [discriminate|reflexivity].
  - vm_compute. reflexivity.
  - exists call. split; [reflexivity|]. split; [exact Hcall|].
    split; [|exact Hspell]. injection Hcall as <-. reflexivity.
Defined.

(** The loop over the planes reads [plane_fmt[i]] for every [i] below
    [n]: it succeeds exactly when the array is that long. *)
Lemma print_planes_spec (n : nat) : ∀ (i : Z) plane_fmt,
  0 ≤ i →
  match print_planes n i plane_fmt with
  | Some calls =>
      length calls = n
      ∧ (n ≠ 0%nat → i + Z.of_nat n ≤ Z.of_nat (length plane_fmt))
  | None => Z.of_nat (length plane_fmt) < i + Z.of_nat n
  end.
Proof.
  induction n as [|n IH]; intros i plane_fmt Hi; [done|]. simpl.
  destruct (plane_fmt !! Z.to_nat i) as [pl|] eqn:Hpl.
  - apply lookup_lt_Some in Hpl. specialize (IH (i + 1) plane_fmt).
    destruct (print_planes n (i + 1) plane_fmt) as [calls|]; simpl.
    + destruct IH as [Hlen Hroom]; [lia|]. split; [by rewrite Hlen|].
      intros _. destruct (decide (n = 0%nat)) as [->|Hn]; [lia|].
      specialize (Hroom Hn). lia.
    + specialize (IH ltac:(lia)). lia.
  - apply lookup_ge_None in Hpl. lia.
Qed.

(** For a multi-planar format whose [plane_fmt] array has its
    [VIDEO_MAX_PLANES] elements, [v4l2_print_format] prints two calls
    and one more for every plane when [num_planes] is within the array;
    the count is not checked, and a larger one makes the loop read past
    the end of the array. *)
Theorem v4l2_print_format_planes (p : v4l2_format_members) :
  f_type p = V4L2_BUF_TYPE_VIDEO_CAPTURE_MPLANE
  ∨ f_type p = V4L2_BUF_TYPE_VIDEO_OUTPUT_MPLANE →
  Z.of_nat (length (mp_plane_fmt (f_pix_mp p))) = VIDEO_MAX_PLANES →
  0 ≤ mp_num_planes (f_pix_mp p) →
  match v4l2_print_format p with
  | Some calls =>
      mp_num_planes (f_pix_mp p) ≤ VIDEO_MAX_PLANES
      ∧ Z.of_nat (length calls) = 2 + mp_num_planes (f_pix_mp p)
  | None => VIDEO_MAX_PLANES < mp_num_planes (f_pix_mp p)
  end.
Proof.
  intros Htype Hlen Hnum. unfold v4l2_print_format.
  destruct (bool_decide_reflect
              (f_type p = V4L2_BUF_TYPE_VIDEO_CAPTURE
               ∨ f_type p = V4L2_BUF_TYPE_VIDEO_OUTPUT)) as [Hpix|_];
    [exfalso; clear -Htype Hpix; buf_types; lia|].
  rewrite (bool_decide_eq_true_2 _ Htype).
  pose proof (print_planes_spec (Z.to_nat (mp_num_planes (f_pix_mp p))) 0
                (mp_plane_fmt (f_pix_mp p)) ltac:(done)) as Hspec.
  destruct (print_planes _ _ _) as [planes|]; simpl.
  - destruct Hspec as [Hcount Hroom].
    split; [|lia].
    destruct (decide (Z.to_nat (mp_num_planes (f_pix_mp p)) = 0%nat));
      [unfold VIDEO_MAX_PLANES; lia|].
    specialize (Hroom ltac:(done)). lia.
  - lia.
Qed.

Lemma v4l2_print_format_planes_witness :
  (∃ calls,
     v4l2_print_format (sample_format V4L2_BUF_TYPE_VIDEO_CAPTURE_MPLANE 2)
     = Some calls ∧ length calls = 4%nat)
  ∧ v4l2_print_format (sample_format V4L2_BUF_TYPE_VIDEO_CAPTURE_MPLANE 9)
    = None.
Proof.
  pose proof (v4l2_print_format_planes
                (sample_format V4L2_BUF_TYPE_VIDEO_CAPTURE_MPLANE 2)
                (or_introl eq_refl) eq_refl ltac:(vm_compute; discriminate))
    as H2.
  pose proof (v4l2_print_format_planes
                (sample_format V4L2_BUF_TYPE_VIDEO_CAPTURE_MPLANE 9)
                (or_introl eq_refl) eq_refl ltac:(vm_compute; discriminate))
    as H9.
  split.
  - destruct (v4l2_print_format
                (sample_format V4L2_BUF_TYPE_VIDEO_CAPTURE_MPLANE 2))
      as [calls|]; [|vm_compute in H2; discriminate H2].
    exists calls. split; [reflexivity|]. destruct H2 as [_ H2].
    simpl in H2. lia.
  - destruct (v4l2_print_format
                (sample_format V4L2_BUF_TYPE_VIDEO_CAPTURE_MPLANE 9))
      as [calls|]; [|reflexivity].
    destruct H9 as [H9 _]. vm_compute in H9. destruct H9. reflexivity.
Defined.

(** [v4l2_print_buffer] prints the seconds of the timestamp as hours,
    minutes and seconds: for a time that is not negative and whose
    minutes fit an [int], minutes and seconds are below 60 and the three
    numbers make up the seconds again. *)
Theorem v4l2_print_buffer_clock (p : v4l2_buffer) :
  0 ≤ buf_tv_sec p < 60 * 2 ^ 31 →
  ∃ fmt h m s rest,
    v4l2_print_buffer p = [pr_debug fmt (PInt h :: PInt m :: PInt s :: rest)]
    ∧ 0 ≤ m < 60 ∧ 0 ≤ s < 60
    ∧ 3600 * h + 60 * m + s = buf_tv_sec p.
Proof.
  intros Ht. unfold v4l2_print_buffer. do 5 eexists. split; [reflexivity|].
  change (2 ^ 31) with 2147483648 in Ht.
  rewrite (Z.quot_div_nonneg _ 3600), (Z.quot_div_nonneg _ 60) by lia.
  rewrite (Z.rem_mod_nonneg (buf_tv_sec p) 60) by lia.
  assert (Hmin : to_int (buf_tv_sec p `div` 60) = buf_tv_sec p `div` 60).
  { unfold to_int. change (2 ^ 31) with 2147483648.
    change (2 ^ 32) with 4294967296.
    rewrite Z.mod_small; [lia|]. Z.div_mod_to_equations. lia. }
  assert (Hsec : to_int (buf_tv_sec p `mod` 60) = buf_tv_sec p `mod` 60).
  { unfold to_int. change (2 ^ 31) with 2147483648.
    change (2 ^ 32) with 4294967296.
    rewrite Z.mod_small; [lia|]. Z.div_mod_to_equations. lia. }
  rewrite Hmin, Hsec.
  rewrite Z.rem_mod_nonneg by (Z.div_mod_to_equations; lia).
  split_and!; Z.div_mod_to_equations; lia.
Qed.

Lemma v4l2_print_buffer_clock_witness :
  ∃ fmt rest,
    v4l2_print_buffer (mk_buffer 0 1 0 0 0 3725 0 0 1 0 0)
    = [pr_debug fmt (PInt 1 :: PInt 2 :: PInt 5 :: rest)].
Proof.
  destruct (v4l2_print_buffer_clock (mk_buffer 0 1 0 0 0 3725 0 0 1 0 0))
    as (fmt & h & m & s & rest & Hrun & _).
  - vm_compute. split; [discriminate|reflexivity].
  - exists fmt, rest. rewrite Hrun. vm_compute in Hrun.
    injection Hrun as <- <- <- <- <-. reflexivity.
Defined.

(** [v4l2_print_buffer] hands the type name and the memory name to the
    two [%s] of its format.  Neither is ever read outside its table,
    and one of them is a null pointer exactly when the type or the
    memory kind of the buffer is 0. *)
Theorem v4l2_print_buffer_null_name (p : v4l2_buffer) :
  - 2 ^ 31 ≤ buf_type p < 2 ^ 32 → - 2 ^ 31 ≤ buf_memory p < 2 ^ 32 →
  ∃ call,
    v4l2_print_buffer p = [call]
    ∧ names_of call
      = [v4l2_type_name (buf_type p); v4l2_memory_name (buf_memory p)]
    ∧ Forall is_Some (names_of call)
    ∧ (Some NULL ∈ names_of call ↔ buf_type p = 0 ∨ buf_memory p = 0).
Proof.
  intros Htype Hmem. eexists. split; [reflexivity|].
  change (names_of _) with
    [v4l2_type_name (buf_type p); v4l2_memory_name (buf_memory p)].
  split; [reflexivity|]. split.
  { repeat constructor; by apply v4l2_name_in_bounds. }
  rewrite elem_of_cons, list_elem_of_singleton. split.
  - intros [Hnull|Hnull].
    + left. destruct (decide (buf_type p = 0)) as [|Hnz]; [done|].
      destruct (v4l2_type_name_not_null _ Htype Hnz) as [s Hs].
      rewrite Hs in Hnull. discriminate Hnull.
    + right. destruct (decide (buf_memory p = 0)) as [|Hnz]; [done|].
      destruct (v4l2_memory_name_not_null _ Hmem Hnz) as [s Hs].
      rewrite Hs in Hnull. discriminate Hnull.
  - intros [->| ->]; [by left|by right].
Qed.

Lemma v4l2_print_buffer_null_name_witness :
  ∃ call,
    v4l2_print_buffer (mk_buffer 0 1 0 0 0 0 0 0 0 0 0) = [call]
    ∧ Some NULL ∈ names_of call.
Proof.
  destruct (v4l2_print_buffer_null_name (mk_buffer 0 1 0 0 0 0 0 0 0 0 0))
    as (call & Hrun & _ & _ & Hnull).
  - vm_compute. split; [discriminate|reflexivity].
  - vm_compute. split; [discriminate|reflexivity].
  - exists call. split; [exact Hrun|]. apply Hnull. right. reflexivity.
Defined.

(** ** The frame rate as a [float] *)

(** Facts about the rounding of binary32, for mantissas that are not
    negative. *)

Lemma digits2_pos_bounds (m : positive) :
  2 ^ (Zpos (digits2_pos m) - 1) ≤ Zpos m < 2 ^ Zpos (digits2_pos m).
Proof.
  induction m as [m IH|m IH|]; simpl; [| |done].
  - rewrite Pos2Z.inj_succ.
    replace (Z.succ (Zpos (digits2_pos m)) - 1)
      with (Z.succ (Zpos (digits2_pos m) - 1)) by lia.
    rewrite !Z.pow_succ_r by lia. lia.
  - rewrite Pos2Z.inj_succ.
    replace (Z.succ (Zpos (digits2_pos m)) - 1)
      with (Z.succ (Zpos (digits2_pos m) - 1)) by lia.
    rewrite !Z.pow_succ_r by lia. lia.
Qed.

(** The number of digits of a number between two powers of two. *)
Lemma digits2_pos_unique (m : positive) (d : Z) :
  2 ^ (d - 1) ≤ Zpos m < 2 ^ d → 1 ≤ d → Zpos (digits2_pos m) = d.
Proof.
  intros [Hlo Hhi] Hd. pose proof (digits2_pos_bounds m) as [Hlo' Hhi'].
  destruct (Z.lt_trichotomy (Zpos (digits2_pos m)) d) as [Hlt|[Heq|Hgt]];
    [|done|].
  - assert (2 ^ Zpos (digits2_pos m) ≤ 2 ^ (d - 1))
      by (apply Z.pow_le_mono_r; lia). lia.
  - assert (2 ^ d ≤ 2 ^ (Zpos (digits2_pos m) - 1))
      by (apply Z.pow_le_mono_r; lia). lia.
Qed.

Lemma shr_1_half (mrs : shr_record) :
  0 ≤ shr_m mrs → shr_m (shr_1 mrs) = shr_m mrs `div` 2.
Proof.
  destruct mrs as [m r s]. simpl. intros Hm.
  destruct m as [|[p|p|]|p]; simpl; try done; try lia.
  - apply (Z.div_unique _ _ _ 1); lia.
  - apply (Z.div_unique _ _ _ 0); lia.
Qed.

Lemma iter_shr_1_div (n : positive) : ∀ mrs : shr_record,
  0 ≤ shr_m mrs →
  shr_m (SpecFloat.iter_pos shr_1 n mrs) = shr_m mrs `div` 2 ^ Zpos n.
Proof.
  assert (Hpow : ∀ k : positive, 0 < 2 ^ Zpos k)
    by (intros; apply Z.pow_pos_nonneg; lia).
  induction n as [n IH|n IH|]; intros mrs Hm; simpl.
  - pose proof (Hpow n). pose proof (shr_1_half mrs Hm) as H1.
    assert (0 ≤ shr_m (shr_1 mrs))
      by (rewrite H1; apply Z.div_pos; lia).
    assert (0 ≤ shr_m (SpecFloat.iter_pos shr_1 n (shr_1 mrs)))
      by (rewrite IH by done; apply Z.div_pos; lia).
    rewrite !IH, H1 by done. rewrite !Z.div_div by lia.
    f_equal. replace (Zpos n~1) with (1 + Zpos n + Zpos n) by lia.
    rewrite !Z.pow_add_r by lia. lia.
  - pose proof (Hpow n).
    assert (0 ≤ shr_m (SpecFloat.iter_pos shr_1 n mrs))
      by (rewrite IH by done; apply Z.div_pos; lia).
    rewrite !IH by done. rewrite !Z.div_div by lia.
    f_equal. replace (Zpos n~0) with (Zpos n + Zpos n) by lia.
    rewrite !Z.pow_add_r by lia. lia.
  - by apply shr_1_half.
Qed.

Lemma shr_spec (mrs : shr_record) (e n : Z) :
  0 ≤ n → 0 ≤ shr_m mrs →
  (shr mrs e n).2 = e + n
  ∧ shr_m (shr mrs e n).1 = shr_m mrs `div` 2 ^ n.
Proof.
  intros Hn Hm. destruct n as [|k|k]; simpl; [|by rewrite iter_shr_1_div|lia].
  split; [lia|]. by rewrite Z.div_1_r.
Qed.

Lemma shr_nonneg (mrs : shr_record) (e n : Z) :
  0 ≤ shr_m mrs → 0 ≤ shr_m (shr mrs e n).1.
Proof.
  intros Hm. destruct n as [|k|k]; simpl; try done.
  rewrite iter_shr_1_div by done. apply Z.div_pos; [done|].
  apply Z.pow_pos_nonneg; lia.
Qed.

Lemma shr_m_of_loc (m : Z) (l : location) : shr_m (shr_record_of_loc m l) = m.
Proof. by destruct l as [|[]]. Qed.

Lemma round_nearest_even_bounds (m : Z) (l : location) :
  m ≤ round_nearest_even m l ≤ m + 1.
Proof.
  unfold round_nearest_even. destruct l as [|[]]; try lia.
  destruct (Z.even m); lia.
Qed.

(** Rounding a mantissa that is not negative never gives a NaN. *)
Lemma binary_round_aux_not_nan (s : bool) (mx ex : Z) (lx : location) :
  0 ≤ mx → binary_round_aux 24 128 s mx ex lx ≠ S754_nan.
Proof.
  intros Hmx. unfold binary_round_aux, shr_fexp.
  set (n1 := fexp 24 128 (Zdigits2 mx + ex) - ex).
  pose proof (shr_nonneg (shr_record_of_loc mx lx) ex n1) as H1.
  rewrite shr_m_of_loc in H1. specialize (H1 Hmx).
  destruct (shr (shr_record_of_loc mx lx) ex n1) as [mrs' e']. simpl in H1.
  set (m2 := round_nearest_even (shr_m mrs') (loc_of_shr_record mrs')).
  assert (0 ≤ m2)
    by (pose proof (round_nearest_even_bounds (shr_m mrs')
                      (loc_of_shr_record mrs')); lia).
  set (n2 := fexp 24 128 (Zdigits2 m2 + e') - e').
  pose proof (shr_nonneg (shr_record_of_loc m2 loc_Exact) e' n2) as H2.
  rewrite shr_m_of_loc in H2. specialize (H2 ltac:(done)).
  destruct (shr (shr_record_of_loc m2 loc_Exact) e' n2) as [mrs'' e''].
  simpl in H2. destruct (shr_m mrs'') as [|q|q]; [done| |lia].
  by destruct (e'' <=? 128 - 24).
Qed.

(** Rounding a mantissa of at least 24 digits, inside the exponent
    range, gives a finite number. *)
Lemma binary_round_aux_finite (s : bool) (m : positive) (e : Z)
    (lx : location) :
  24 ≤ Zpos (digits2_pos m) → -149 ≤ e → e + Zpos (digits2_pos m) ≤ 127 →
  ∃ m' e', binary_round_aux 24 128 s (Zpos m) e lx = S754_finite s m' e'.
Proof.
  intros Hd He Hmax. pose proof (digits2_pos_bounds m) as [Hlo Hhi].
  set (d := Zpos (digits2_pos m)) in *.
  unfold binary_round_aux, shr_fexp.
  change (Zdigits2 (Zpos m)) with d.
  assert (Hn1 : fexp 24 128 (d + e) - e = d - 24)
    by (unfold fexp, emin; lia).
  rewrite Hn1.
  destruct (shr_spec (shr_record_of_loc (Zpos m) lx) e (d - 24))
    as [He1 Hm1]; [lia|by rewrite shr_m_of_loc|].
  rewrite shr_m_of_loc in Hm1.
  destruct (shr (shr_record_of_loc (Zpos m) lx) e (d - 24)) as [mrs' e'].
  simpl in He1, Hm1.
  assert (Hpow : 0 < 2 ^ (d - 24)) by (apply Z.pow_pos_nonneg; lia).
  assert (Hsplit : 2 ^ d = 2 ^ 24 * 2 ^ (d - 24)).
  { rewrite <- Z.pow_add_r by lia. f_equal. lia. }
  assert (Hsplit' : 2 ^ (d - 1) = 2 ^ 23 * 2 ^ (d - 24)).
  { rewrite <- Z.pow_add_r by lia. f_equal. lia. }
  assert (Hm1r : 2 ^ 23 ≤ shr_m mrs' < 2 ^ 24).
  { rewrite Hm1. split.
    - apply Z.div_le_lower_bound; lia.
    - apply Z.div_lt_upper_bound; lia. }
  pose proof (round_nearest_even_bounds (shr_m mrs') (loc_of_shr_record mrs'))
    as Hm2.
  set (m2 := round_nearest_even (shr_m mrs') (loc_of_shr_record mrs')) in *.
  change (2 ^ 23) with 8388608 in Hm1r. change (2 ^ 24) with 16777216 in Hm1r.
  destruct m2 as [|p2|p2] eqn:Ep2; [lia| |lia].
  destruct (decide (Zpos p2 < 16777216)) as [Hsmall|Hbig].
  - assert (Hd2 : Zpos (digits2_pos p2) = 24)
      by (apply digits2_pos_unique; [change (2 ^ (24 - 1)) with 8388608;
          change (2 ^ 24) with 16777216|]; lia).
    change (Zdigits2 (Zpos p2)) with (Zpos (digits2_pos p2)). rewrite Hd2.
    assert (Hn2 : fexp 24 128 (24 + e') - e' = 0)
      by (unfold fexp, emin; lia).
    rewrite Hn2. simpl.
    exists p2, e'. destruct (Z.leb_spec e' (128 - 24)); [done|lia].
  - assert (Hp2 : Zpos p2 = 16777216) by lia. injection Hp2 as ->.
    change (Zdigits2 16777216) with 25.
    assert (Hn2 : fexp 24 128 (25 + e') - e' = 1)
      by (unfold fexp, emin; lia).
    rewrite Hn2. simpl. eexists _, _.
    destruct (Z.leb_spec (e' + 1) (128 - 24)); [done|lia].
Qed.

Lemma digits2_pos_iter_xO (m k : positive) :
  Zpos (digits2_pos (Pos.iter xO m k)) = Zpos (digits2_pos m) + Zpos k.
Proof.
  induction k as [|k IH] using Pos.peano_ind; simpl.
  - by rewrite Pos2Z.inj_succ.
  - rewrite Pos.iter_succ. simpl. rewrite !Pos2Z.inj_succ, IH. lia.
Qed.

(** A positive 32-bit integer converts to a finite positive [float]. *)
Lemma float_of_u32_finite (n : Z) :
  0 < n < 2 ^ 32 → ∃ m e, float_of_u32 n = S754_finite false m e.
Proof.
  intros Hn. destruct n as [|m|m]; [lia| |lia].
  unfold float_of_u32, binary_normalize, binary_round, shl_align.
  pose proof (digits2_pos_bounds m) as [Hlo Hhi].
  set (d := Zpos (digits2_pos m)) in *.
  assert (Hd : d ≤ 32).
  { destruct (decide (d ≤ 32)); [done|].
    assert (2 ^ 32 ≤ 2 ^ (d - 1)) by (apply Z.pow_le_mono_r; lia). lia. }
  assert (Hfexp : fexp 24 128 (d + 0) = d - 24)
    by (unfold fexp, emin; lia).
  rewrite Hfexp.
  destruct (d - 24 - 0) as [|k|k] eqn:Hk.
  - apply binary_round_aux_finite; fold d; lia.
  - apply binary_round_aux_finite; fold d; lia.
  - apply binary_round_aux_finite; rewrite ?digits2_pos_iter_xO; fold d; lia.
Qed.

Lemma SFdiv_core_binary_nonneg (m1 m2 : positive) (e1 e2 : Z) :
  0 ≤ (SFdiv_core_binary 24 128 (Zpos m1) e1 (Zpos m2) e2).1.1.
Proof.
  unfold SFdiv_core_binary.
  set (s := e1 - e2 - _).
  set (m' := match s with 0 => Zpos m1 | Zpos _ => _ | Zneg _ => 0 end).
  assert (Hm' : 0 ≤ m').
  { subst m'. destruct s; [lia| |lia]. apply Z.shiftl_nonneg. lia. }
  pose proof (Z.div_pos m' (Zpos m2) Hm' ltac:(lia)) as Hq.
  unfold Z.div in Hq. by destruct (Z.div_eucl m' (Zpos m2)).
Qed.

(** The quotient of two finite positive numbers is a number. *)
Lemma float_div_finite_not_nan (sx sy : bool) (mx my : positive) (ex ey : Z) :
  float_div (S754_finite sx mx ex) (S754_finite sy my ey) ≠ NAN.
Proof.
  unfold float_div, SFdiv.
  pose proof (SFdiv_core_binary_nonneg mx my ex ey) as Hq.
  destruct (SFdiv_core_binary 24 128 (Zpos mx) ex (Zpos my) ey)
    as [[mz ez] lz].
  by apply binary_round_aux_not_nan.
Qed.

Section FramerateValue.

Context {K : Type} (dev : kernel_ops K).

(** [v4l2_framerate_get] returns [NAN] exactly when the query fails or
    the driver reports the interval 0/0, so [NAN] alone does not tell a
    failed query from an answered one.  An answered query with a zero
    numerator gives plus infinity, one with a zero denominator alone
    gives zero: a division by zero is never an error here. *)
Theorem v4l2_framerate_get_nan (p : proc K) (fd type : Z) :
  let r := vidioc_g_parm dev (kernel p) fd (mk_streamparm type 0 0 0 0 0 0) in
  let num := parm_numerator (out r) in
  let den := parm_denominator (out r) in
  0 ≤ num < 2 ^ 32 → 0 ≤ den < 2 ^ 32 →
  ∃ x p', v4l2_framerate_get dev fd type p = Ret x p'
    ∧ (x = NAN ↔ rc r ≠ 0 ∨ (num = 0 ∧ den = 0))
    ∧ (rc r = 0 → num = 0 → 0 < den → x = S754_infinity false)
    ∧ (rc r = 0 → 0 < num → den = 0 → x = S754_zero false).
Proof.
  intros r num den Hnum Hden. rewrite v4l2_framerate_get_eq.
  eexists _, _. split; [reflexivity|]. fold r. fold num. fold den.
  destruct (decide (rc r ≠ 0)) as [Hrc|Hrc].
  { split_and!; [by split; [left|]|done|done]. }
  assert (Hz : float_of_u32 0 = S754_zero false) by reflexivity.
  destruct (decide (num = 0)) as [Hn|Hn], (decide (den = 0)) as [Hd|Hd].
  - rewrite Hn, Hd, Hz.
    split_and!; [by split; [right|]|lia|lia].
  - destruct (float_of_u32_finite den) as (m & e & ->); [lia|].
    rewrite Hn, Hz.
    split_and!; [split; [done|intros [?|[_ ?]]; done]|done|lia].
  - destruct (float_of_u32_finite num) as (m & e & ->); [lia|].
    rewrite Hd, Hz.
    split_and!; [split; [done|intros [?|[? _]]; done]|lia|done].
  - destruct (float_of_u32_finite num) as (m & e & ->); [lia|].
    destruct (float_of_u32_finite den) as (m' & e' & ->); [lia|].
    split_and!; [split|lia|lia].
    + intros Hnan. by apply float_div_finite_not_nan in Hnan.
    + intros [?|[? _]]; done.
Qed.

End FramerateValue.

Lemma v4l2_framerate_get_nan_witness :
  ∃ x p', v4l2_framerate_get willing 3 V4L2_BUF_TYPE_VIDEO_CAPTURE proc0
          = Ret x p'
        ∧ x ≠ NAN.
Proof.
  destruct (v4l2_framerate_get_nan willing proc0 3 V4L2_BUF_TYPE_VIDEO_CAPTURE)
    as (x & p' & Hrun & Hnan & _); [vm_compute; split; congruence..|].
  exists x, p'. split; [exact Hrun|].
  intros Hx. apply Hnan in Hx. vm_compute in Hx.
  destruct Hx as [Hx|[Hx _]]; [by apply Hx|discriminate Hx].
Defined.

(** ** The error code of the final message *)

Section Codes.
Context {K : Type} (dev : kernel_ops K).
Implicit Types (P : fatal → proc K → Prop).

Lemma exits_with_ret {A} P (a : A) : exits_with P (mret a : M K A).
Proof. by intros p. Qed.

Lemma exits_with_bind {A B} P (m : M K A) (k : A → M K B) :
  exits_with P m → (∀ a, exits_with P (k a)) → exits_with P (m ≫= k).
Proof.
  intros Hm Hk p. specialize (Hm p). unfold mbind, M_bind.
  destruct (m p) as [a p1|f p1|]; [|done|done]. apply Hk.
Qed.

Lemma exits_with_ioctl {A} P (call : K → Z → A → reply K A) req fd (a : A) :
  exits_with P (ioctl call req fd a).
Proof. by intros p. Qed.

Lemma exits_with_mmap P len prot flags fd off :
  exits_with P (mmap dev len prot flags fd off).
Proof. by intros p. Qed.

Lemma exits_with_store P bufs i v : exits_with P (store (K := K) bufs i v).
Proof. intros p. unfold store. by case_bool_decide. Qed.

Lemma exits_with_incr P i : exits_with P (incr (K := K) i).
Proof. intros p. unfold incr. by case_bool_decide. Qed.

Lemma no_code_guard {B} (b : bool) st fmt args (k : unit → M K B) :
  (∀ u, exits_with no_code (k u)) →
  exits_with no_code (when b (error st (lit 0) fmt args) ≫= k).
Proof.
  intros Hk. apply exits_with_bind; [|done]. intros p.
  destruct b; [|done]. unfold when, error. by destruct (st =? 0).
Qed.

Lemma system_code_guard {B} (b : bool) st fmt args (k : unit → M K B) :
  (∀ u, exits_with system_code (k u)) →
  exits_with system_code (when b (error st errno fmt args) ≫= k).
Proof.
  intros Hk. apply exits_with_bind; [|done]. intros p.
  destruct b; [|done]. unfold when, error. by destruct (st =? 0).
Qed.

Lemma exits_with_unit P (m : M K unit) :
  exits_with P (m ≫= mret) → exits_with P m.
Proof.
  intros H p. specialize (H p). unfold mbind, M_bind in H.
  by destruct (m p) as [[] ?| |].
Qed.

Lemma no_code_framerate_commit fd type framerate parm :
  exits_with no_code (framerate_commit dev fd type framerate parm).
Proof.
  unfold framerate_commit.
  apply exits_with_bind; [apply exits_with_ioctl|intros [ret parm']].
  apply no_code_guard; intros _.
  apply exits_with_unit, no_code_guard; intros u. apply exits_with_ret.
Qed.

Lemma no_code_v4l2_configure fd type pixelformat width height :
  exits_with no_code (v4l2_configure dev fd type pixelformat width height).
Proof.
  unfold v4l2_configure.
  apply exits_with_bind; [apply exits_with_ioctl|intros [ret fmt]].
  do 2 (apply no_code_guard; intros _).
  apply exits_with_unit, no_code_guard; intros u. apply exits_with_ret.
Qed.

Lemma no_code_v4l2_framerate_configure fd type framerate :
  exits_with no_code (v4l2_framerate_configure dev fd type framerate).
Proof.
  unfold v4l2_framerate_configure.
  apply exits_with_bind; [apply exits_with_ioctl|intros [ret parm]].
  apply no_code_guard; intros _.
  destruct (bool_decide (type = V4L2_BUF_TYPE_VIDEO_CAPTURE)).
  { destruct (Z.land (parm_capability parm) V4L2_CAP_TIMEPERFRAME =? 0);
      [apply exits_with_ret|apply no_code_framerate_commit]. }
  destruct (bool_decide (type = V4L2_BUF_TYPE_VIDEO_OUTPUT)).
  { destruct (Z.land (parm_capability parm) V4L2_CAP_TIMEPERFRAME =? 0);
      [apply exits_with_ret|apply no_code_framerate_commit]. }
  apply no_code_framerate_commit.
Qed.

Lemma system_code_buffers_mmap_from n fd type prot i bufs :
  exits_with system_code (buffers_mmap_from dev n fd type prot i bufs).
Proof.
  revert i bufs. induction n as [|n IH]; intros i bufs; simpl.
  { apply exits_with_ret. }
  apply exits_with_bind; [apply exits_with_ioctl|intros [ret buf]].
  apply system_code_guard; intros _.
  apply exits_with_bind; [apply exits_with_mmap|intros a].
  apply exits_with_bind; [apply exits_with_store|intros bufs'].
  apply system_code_guard; intros _.
  apply exits_with_bind; [apply exits_with_incr|intros i']. apply IH.
Qed.

Lemma system_code_buffers_export_from n fd type i bufs :
  exits_with system_code (buffers_export_from dev n fd type i bufs).
Proof.
  revert i bufs. induction n as [|n IH]; intros i bufs; simpl.
  { apply exits_with_ret. }
  apply exits_with_bind; [apply exits_with_ioctl|intros [ret ebuf]].
  apply system_code_guard; intros _.
  apply exits_with_bind; [apply exits_with_store|intros bufs'].
  apply exits_with_bind; [apply exits_with_incr|intros i']. apply IH.
Qed.

Lemma system_code_v4l2_dqbuf fd buf :
  exits_with system_code (v4l2_dqbuf dev fd buf).
Proof.
  unfold v4l2_dqbuf.
  apply exits_with_bind; [apply exits_with_ioctl|intros [ret buf']].
  apply system_code_guard; intros _. apply exits_with_ret.
Qed.

Lemma system_code_v4l2_qbuf fd buf :
  exits_with system_code (v4l2_qbuf dev fd buf).
Proof.
  unfold v4l2_qbuf.
  apply exits_with_bind; [apply exits_with_ioctl|intros [ret buf']].
  apply system_code_guard; intros _. apply exits_with_ret.
Qed.

Lemma system_code_v4l2_streamon fd type :
  exits_with system_code (v4l2_streamon dev fd type).
Proof.
  unfold v4l2_streamon.
  apply exits_with_bind; [apply exits_with_ioctl|intros [ret type']].
  apply exits_with_unit, system_code_guard; intros u. apply exits_with_ret.
Qed.

End Codes.

(** When the driver refuses a format or a frame rate, the final message
    of the configuration functions never names the system's error: the
    [errnum] they pass to [error] is 0 in every one of their fatal
    paths.  The buffer and streaming functions pass [errno], so their
    final message carries the code left by the failed call. *)
Theorem v4l2_configure_drops_errno :
  ∀ K (dev : kernel_ops K),
    (∀ fd type pixelformat width height,
       exits_with no_code
         (v4l2_configure dev fd type pixelformat width height))
    ∧ (∀ fd type framerate,
         exits_with no_code (v4l2_framerate_configure dev fd type framerate))
    ∧ (∀ fd type num bufs prot,
         exits_with system_code (v4l2_buffers_mmap dev fd type num bufs prot))
    ∧ (∀ fd type num bufs,
         exits_with system_code (v4l2_buffers_export dev fd type num bufs))
    ∧ (∀ fd buf, exits_with system_code (v4l2_dqbuf dev fd buf))
    ∧ (∀ fd buf, exits_with system_code (v4l2_qbuf dev fd buf))
    ∧ (∀ fd type, exits_with system_code (v4l2_streamon dev fd type)).
Proof.
  intros K dev. split_and!; intros.
  - apply no_code_v4l2_configure.
  - apply no_code_v4l2_framerate_configure.
  - apply system_code_buffers_mmap_from.
  - apply system_code_buffers_export_from.
  - apply system_code_v4l2_dqbuf.
  - apply system_code_v4l2_qbuf.
  - apply system_code_v4l2_streamon.
Qed.
